(** * HealthArchive dataset releases: the release builder and the bundle validator

    A shallow embedding of [scripts/build_release.py] and
    [scripts/validate_release_bundle.py].

    Conventions.
    - A Python [bytes] object and a Python [str] are both a [string] (a sequence
      of 8-bit characters); a [str] is carried by its UTF-8 encoding, so only
      the ASCII white space of [str.strip] and [str.split] is modelled.
    - A Python exception is a value of [exn]; a function that can raise returns
      [result A].
    - Values produced by [json.loads] are [value]s; a JSON object is a
      [gmap string value].
    - [json.loads], [hashlib.sha256], the gzip codec and the network are the
      environment: they are Section variables, never assumed globally. *)

From Stdlib Require Import ZArith QArith String Ascii List Bool Lia DecimalString Sorted.
From Stdlib Require Import Qpower Lqa.
From stdpp Require Import gmap strings list fin_maps.
Import ListNotations.

Local Open Scope Z_scope.

(** ** Python values and exceptions *)

Module Py.

Inductive exn :=
| RuntimeError (msg : string)
| ValueError (msg : string)
| TypeError (msg : string)
| AttributeError (msg : string)
| SystemExit (msg : string)
| OtherError (cls msg : string).

(** [str(exc)] *)
Definition exn_str (e : exn) : string :=
  match e with
  | RuntimeError m | ValueError m | TypeError m | AttributeError m
  | SystemExit m | OtherError _ m => m
  end.

Inductive result (A : Type) :=
| Ok (a : A)
| Raise (e : exn).
Arguments Ok {A} a.
Arguments Raise {A} e.

Definition bind {A B} (r : result A) (k : A -> result B) : result B :=
  match r with
  | Ok a => k a
  | Raise e => Raise e
  end.

(** What [json.loads] can return.  A float is kept as the rational it
    denotes. *)
#[local] Unset Elimination Schemes.
Inductive value :=
| VNone
| VBool (b : bool)
| VInt (z : Z)
| VFloat (q : Q)
| VStr (s : string)
| VList (l : list value)
| VDict (d : gmap string value).
#[local] Set Elimination Schemes.

(** The values [v] with [isinstance(v, int)]: [bool] is a subclass of [int]
    in Python, [True == 1] and [False == 0]. *)
Inductive pyint :=
| Int (z : Z)
| Bool (b : bool).

Definition int_val (i : pyint) : Z :=
  match i with
  | Int z => z
  | Bool b => Z.b2z b
  end.

Definition isinstance_int (v : value) : option pyint :=
  match v with
  | VInt z => Some (Int z)
  | VBool b => Some (Bool b)
  | _ => None
  end.

Definition isinstance_bool (v : value) : option bool :=
  match v with
  | VBool b => Some b
  | _ => None
  end.

Definition isinstance_str (v : value) : option string :=
  match v with
  | VStr s => Some s
  | _ => None
  end.

Definition isinstance_dict (v : value) : option (gmap string value) :=
  match v with
  | VDict d => Some d
  | _ => None
  end.

(** [bool(v)] *)
Definition truthy (v : value) : bool :=
  match v with
  | VNone => false
  | VBool b => b
  | VInt z => negb (z =? 0)
  | VFloat q => negb (Qeq_bool q 0)
  | VStr s => negb (String.eqb s "")
  | VList l => match l with [] => false | _ => true end
  | VDict d => negb (bool_decide (d = ∅))
  end.

(** [str(z)] for an [int] *)
Definition str_Z (z : Z) : string := NilZero.string_of_int (Z.to_int z).

Definition str_bool (b : bool) : string := if b then "True" else "False".

Definition str_int (i : pyint) : string :=
  match i with
  | Int z => str_Z z
  | Bool b => str_bool b
  end.

(** [str(v)] for [v : int | None] *)
Definition str_opt_int (o : option pyint) : string :=
  match o with
  | None => "None"
  | Some i => str_int i
  end.

(** [a <= b] on ints *)
Definition int_le (a b : pyint) : bool := int_val a <=? int_val b.

End Py.
Export Py.

Notation "x <- r ;; k" := (Py.bind r (fun x => k))
  (at level 100, r at next level, right associativity).

(** ** The HTTP retry client ([build_release.py], [_http_json] and
       [_http_ndjson_stream]) *)

Module Http.

(** What one call of [urllib.request.urlopen] does: it raises, or it returns a
    response with a status and a body. *)
Inductive response :=
| UrlopenRaises (e : exn)
| HttpResponse (status : Z) (body : string).

(** What the libraries and the network do for one call of the client:
    - [Request url] is [urllib.request.Request(url, headers=...)], which
      builds the request or raises ([ValueError] for a URL without scheme);
    - [urlopen k] is the k-th call of [urllib.request.urlopen] of the call,
      counted from 0;
    - [float_pow x n] is [x ** n] on floats, a float being kept as the
      rational it denotes; it raises when the result is out of range;
    - [time_sleep secs] is [time.sleep(secs)], which returns after that time
      or raises ([OverflowError] for a time the clock cannot hold). *)
Record world := {
  Request : string -> result unit;
  urlopen :> nat -> response;
  float_pow : Q -> nat -> result Q;
  time_sleep : Q -> result unit
}.

(** What the client does to the outside world, in order: calls of [urlopen]
    and sleeps that returned. *)
Inductive event :=
| Urlopen (attempt : nat)
| Sleep (seconds : Q).

(** How the loop of the two functions is left: by the [return] of the [try]
    body, at its end or by [break] (the final [raise] follows), or by an
    exception raised in the [except] block. *)
Inductive outcome (A : Type) :=
| Return (v : A)
| Exhausted (last_exc : option exn)
| Escaped (e : exn).
#[global] Arguments Return {A} v.
#[global] Arguments Exhausted {A} last_exc.
#[global] Arguments Escaped {A} e.

(** [time.sleep(1.5**attempt)]: the seconds slept, or the exception of the
    power or of the sleep. *)
Definition sleep_backoff (w : world) (attempt : nat) : result Q :=
  secs <- float_pow w (3 # 2) attempt ;;
  _ <- time_sleep w secs ;;
  Ok secs.

(** The loop both functions share:
<<
    last_exc = None
    for attempt in range(retries + 1):
        try:
            <body, returns on success>
        except Exception as exc:
            last_exc = exc
            if attempt >= retries:
                break
            time.sleep(1.5**attempt)
    raise RuntimeError(...last_exc...)
>>
    [todo] is what is left of [range(retries + 1)]. *)
Fixpoint retry_loop {A} (w : world) (body : nat -> result A) (retries : Z)
    (todo : nat) (attempt : nat) (last_exc : option exn)
    : outcome A * list event :=
  match todo with
  | O => (Exhausted last_exc, [])
  | S todo' =>
      match body attempt with
      | Ok v => (Return v, [Urlopen attempt])
      | Raise exc =>
          if Z.of_nat attempt >=? retries
          then (Exhausted (Some exc), [Urlopen attempt])
          else
            match sleep_backoff w attempt with
            | Raise e => (Escaped e, [Urlopen attempt])
            | Ok secs =>
                let '(r, evs) := retry_loop w body retries todo' (S attempt) (Some exc) in
                (r, Urlopen attempt :: Sleep secs :: evs)
            end
      end
  end.

(** [{last_exc}] in an f-string *)
Definition str_last_exc (last_exc : option exn) : string :=
  match last_exc with
  | None => "None"
  | Some e => exn_str e
  end.

Section Client.

(** [json.loads(payload.decode("utf-8"))] *)
Variable json_loads : string -> result value.

(** The [try] body of [_http_json] on the response to one attempt. *)
Definition json_body (url : string) (r : response) : result value :=
  match r with
  | UrlopenRaises e => Raise e
  | HttpResponse status payload =>
      if status =? 200 then json_loads payload
      else Raise (RuntimeError ("GET " +:+ url +:+ " failed with HTTP " +:+ str_Z status))
  end.

Definition _http_json (url : string) (retries : Z) (net : world)
    : result value * list event :=
  match Request net url with
  | Raise e => (Raise e, [])
  | Ok _ =>
      let '(r, evs) :=
        retry_loop net (fun attempt => json_body url (net attempt)) retries
                   (Z.to_nat (retries + 1)) 0 None in
      match r with
      | Return v => (Ok v, evs)
      | Exhausted last_exc =>
          (Raise (RuntimeError ("Failed to fetch JSON from " +:+ url +:+ ": "
                                +:+ str_last_exc last_exc)), evs)
      | Escaped e => (Raise e, evs)
      end
  end.

(** The [try] body of [_http_ndjson_stream]; the open response it returns is
    carried by its body.  [body.decode('utf-8', errors='replace')] is the
    identity on the UTF-8 text the model carries. *)
Definition stream_body (url : string) (r : response) : result string :=
  match r with
  | UrlopenRaises e => Raise e
  | HttpResponse status body =>
      if status =? 200 then Ok body
      else Raise (RuntimeError ("GET " +:+ url +:+ " failed with HTTP " +:+ str_Z status
                                +:+ ": " +:+ substring 0 2048 body))
  end.

Definition _http_ndjson_stream (url : string) (retries : Z) (net : world)
    : result string * list event :=
  match Request net url with
  | Raise e => (Raise e, [])
  | Ok _ =>
      let '(r, evs) :=
        retry_loop net (fun attempt => stream_body url (net attempt)) retries
                   (Z.to_nat (retries + 1)) 0 None in
      match r with
      | Return resp => (Ok resp, evs)
      | Exhausted last_exc =>
          (Raise (RuntimeError ("Failed to stream NDJSON from " +:+ url +:+ ": "
                                +:+ str_last_exc last_exc)), evs)
      | Escaped e => (Raise e, evs)
      end
  end.

End Client.

(** The default of the [retries] keyword. *)
Definition default_retries : Z := 4.

(** A world in which every request is built, powers are exact and sleeps
    return, with the given answers of [urlopen]. *)
Definition ideal (answers : nat -> response) : world :=
  {| Request := fun _ => Ok tt;
     urlopen := answers;
     float_pow := fun x n => Ok (Qpower x (Z.of_nat n));
     time_sleep := fun _ => Ok tt |}.

End Http.

(** ** Byte strings *)

Module Bytes.

Definition NL : string := String "010"%char "".

(** The white space of [bytes.strip()]: space, tab, line feed, carriage
    return, vertical tab, form feed. *)
Definition bytes_isspace (c : ascii) : bool :=
  let n := nat_of_ascii c in
  ((n =? 32) || (n =? 9) || (n =? 10) || (n =? 13) || (n =? 11) || (n =? 12))%nat.

(** The ASCII characters with [str.isspace()]: the six above and the
    separators 0x1c-0x1f. *)
Definition str_isspace (c : ascii) : bool :=
  let n := nat_of_ascii c in
  (bytes_isspace c || ((28 <=? n) && (n <=? 31)))%nat.

Fixpoint lstrip (sp : ascii -> bool) (s : string) : string :=
  match s with
  | EmptyString => EmptyString
  | String c r => if sp c then lstrip sp r else s
  end.

Fixpoint rstrip (sp : ascii -> bool) (s : string) : string :=
  match s with
  | EmptyString => EmptyString
  | String c r =>
      match rstrip sp r with
      | EmptyString => if sp c then EmptyString else String c EmptyString
      | r' => String c r'
      end
  end.

Definition strip (sp : ascii -> bool) (s : string) : string := rstrip sp (lstrip sp s).

(** [not s]: the empty string is false *)
Definition is_empty (s : string) : bool :=
  match s with
  | EmptyString => true
  | String _ _ => false
  end.

(** [s.endswith(b"\n")] *)
Fixpoint endswith_newline (s : string) : bool :=
  match s with
  | EmptyString => false
  | String c EmptyString => Ascii.eqb c "010"%char
  | String _ r => endswith_newline r
  end.

(** Iterating over an open response yields its lines, each with its line
    feed, the last one possibly without. *)
Fixpoint readlines (s : string) : list string :=
  match s with
  | EmptyString => []
  | String c r =>
      if Ascii.eqb c "010"%char then String c EmptyString :: readlines r
      else match readlines r with
           | [] => [String c EmptyString]
           | l :: ls => String c l :: ls
           end
  end.

(** [b"".join(lines)] *)
Definition join (lines : list string) : string := fold_right String.append EmptyString lines.

End Bytes.
Export Bytes.

(** ** The paginated exporter ([build_release.py],
       [_download_export_to_gzip_jsonl]) *)

Module Exporter.
Import Http.

(** The keyword arguments of one call. [out_path] is kept as its parent and its
    [name]. *)
Record export_args := {
  api_base : string;
  path : string;
  id_field : string;
  out_dir : string;
  out_name : string;
  limit : Z;
  timeout : Q;
  user_agent : string
}.

(** The local variables that live across pages, and the bytes written to [gz]
    so far. *)
Record state := {
  after_id : option pyint;
  rows : Z;
  min_id : option pyint;
  max_id : option pyint;
  requests_made : Z;
  gz : string
}.

Definition initial : state :=
  {| after_id := None; rows := 0; min_id := None; max_id := None;
     requests_made := 0; gz := EmptyString |}.

(** The dict the function returns. *)
Record export_meta := {
  m_path : string;
  m_idField : string;
  m_rows : Z;
  m_minId : option pyint;
  m_maxId : option pyint;
  m_limitPerRequest : Z;
  m_requestsMade : Z;
  m_filename : string
}.

(** [urllib.parse.urlencode(params)] on the parameters of the loop: all of
    their characters are unreserved, nothing is escaped. *)
Definition page_url (a : export_args) (after : option pyint) : string :=
  api_base a +:+ path a +:+ "?format=jsonl&compressed=false&limit=" +:+ str_Z (limit a)
  +:+ match after with
      | None => EmptyString
      | Some i => "&afterId=" +:+ str_int i
      end.

(** [obj.get(id_field)]: only a dict has [get] *)
Definition obj_get (obj : value) (key : string) : result value :=
  match obj with
  | VDict d => Ok (default VNone (d !! key))
  | _ => Raise (AttributeError "object has no attribute 'get'")
  end.

Section Run.

(** [json.loads(line.decode("utf-8"))] *)
Variable json_loads : string -> result value.

Variable a : export_args.

(** The line written for [raw_line]. *)
Definition terminated (raw_line : string) : string :=
  if endswith_newline raw_line then raw_line else raw_line +:+ NL.

Definition blank (raw_line : string) : bool := is_empty (strip bytes_isspace raw_line).

(** The body of [for raw_line in resp], on the lines left in the response.
    [page_rows] and [last_id] are the two variables reset for each page. *)
Fixpoint page_loop (lines : list string) (st : state) (page_rows : Z)
    (last_id : option pyint) : result (state * Z * option pyint) :=
  match lines with
  | [] => Ok (st, page_rows, last_id)
  | raw_line :: lines' =>
      if blank raw_line then page_loop lines' st page_rows last_id
      else
        let page_rows := page_rows + 1 in
        let rows' := rows st + 1 in
        let line := terminated raw_line in
        obj <- json_loads line ;;
        value <- obj_get obj (id_field a) ;;
        let '(last_id, min_id', max_id') :=
          match isinstance_int value with
          | Some v =>
              (Some v,
               match min_id st with None => Some v | Some m => Some m end,
               Some v)
          | None => (last_id, min_id st, max_id st)
          end in
        page_loop lines'
          {| after_id := after_id st; rows := rows'; min_id := min_id';
             max_id := max_id'; requests_made := requests_made st;
             gz := gz st +:+ line |}
          page_rows last_id
  end.

(** What follows the page, lines 130-139. *)
Inductive next :=
| Break (st : state)
| Continue (st : state)
| Abort (e : exn).

Definition no_id_error : exn :=
  RuntimeError ("Export " +:+ path a +:+ " returned rows without '" +:+ id_field a +:+ "'").

Definition no_advance_error (after last : pyint) : exn :=
  RuntimeError ("Pagination did not advance for " +:+ path a +:+ ": afterId="
                +:+ str_int after +:+ " lastId=" +:+ str_int last).

Definition after_page (st : state) (page_rows : Z) (last_id : option pyint) : next :=
  let st1 :=
    {| after_id := after_id st; rows := rows st; min_id := min_id st;
       max_id := max_id st; requests_made := requests_made st + 1; gz := gz st |} in
  if page_rows =? 0 then Break st1
  else
    match last_id with
    | None => Abort no_id_error
    | Some last =>
        match after_id st1 with
        | Some after =>
            if int_le last after then Abort (no_advance_error after last)
            else Continue
                   {| after_id := Some last; rows := rows st1; min_id := min_id st1;
                      max_id := max_id st1; requests_made := requests_made st1;
                      gz := gz st1 |}
        | None =>
            Continue
              {| after_id := Some last; rows := rows st1; min_id := min_id st1;
                 max_id := max_id st1; requests_made := requests_made st1;
                 gz := gz st1 |}
        end
    end.

(** How a run over a finite script of responses ends: the function returns,
    it raises, or the loop asks for a page the script does not have. *)
Inductive run (A : Type) :=
| Returned (v : A)
| Raised (e : exn)
| Starved.
#[global] Arguments Returned {A} v.
#[global] Arguments Raised {A} e.
#[global] Arguments Starved {A}.

(** What a call that returns leaves behind: the dict, and the bytes it wrote
    to [gz]. *)
Definition export_output : Type := export_meta * string.

Definition meta_of (st : state) : export_meta :=
  {| m_path := path a; m_idField := id_field a; m_rows := rows st;
     m_minId := min_id st; m_maxId := max_id st; m_limitPerRequest := limit a;
     m_requestsMade := requests_made st; m_filename := out_name a |}.

(** The [while True] loop, lines 96-139, and the [return].  [server] holds, for
    each page request in turn, the network that request sees.  The second
    component is the list of the URLs requested. *)
Fixpoint export_loop (server : list world) (st : state)
    : run export_output * list string :=
  match server with
  | [] => (Starved, [])
  | net :: server' =>
      let url := page_url a (after_id st) in
      match fst (_http_ndjson_stream url default_retries net) with
      | Raise e => (Raised e, [url])
      | Ok resp =>
          match page_loop (readlines resp) st 0 None with
          | Raise e => (Raised e, [url])
          | Ok (st1, page_rows, last_id) =>
              match after_page st1 page_rows last_id with
              | Break st2 => (Returned (meta_of st2, gz st2), [url])
              | Abort e => (Raised e, [url])
              | Continue st2 =>
                  let '(o, urls) := export_loop server' st2 in
                  (o, url :: urls)
              end
          end
      end
  end.

End Run.

(** A server that answers a page request at once with status 200 and the given
    body. *)
Definition serve (body : string) : world := ideal (fun _ => HttpResponse 200 body).

End Exporter.

(** ** The release builder ([build_release.py], [main]) *)

Module Build.
Import Http Exporter.

(** The parameters of [gzip.open] in CPython's [Lib/gzip.py]:
<<
    def open(filename, mode="rb", compresslevel=9,
             encoding=None, errors=None, newline=None):
>>
    [mtime] is a parameter of [gzip.GzipFile], not of [gzip.open]. *)
Definition gzip_open_params : list string :=
  ["filename"; "mode"; "compresslevel"; "encoding"; "errors"; "newline"].

(** Binding the keyword arguments of a call of [gzip.open]: a keyword that is
    not a parameter raises before the file is touched. *)
Definition gzip_open (keywords : list string) : result unit :=
  match List.find (fun k => negb (existsb (String.eqb k) gzip_open_params)) keywords with
  | Some k => Raise (TypeError ("open() got an unexpected keyword argument '" +:+ k +:+ "'"))
  | None => Ok tt
  end.

(** The parsed command line. *)
Record cli := {
  arg_api_base : string;
  arg_out_dir : string;
  arg_tag : string;
  arg_timeout_seconds : Q;
  arg_limit : Z
}.

(** The artifact entry of the manifest: [{**meta, "sha256": sha}]. *)
Record artifact_entry := {
  e_meta : export_meta;
  e_sha256 : string
}.

(** The manifest; the constant members ([sourceProjectUrl], [notes]) are left
    to [json_dumps]. *)
Record manifest := {
  mf_version : Z;
  mf_tag : string;
  mf_releasedAtUtc : string;
  mf_apiBase : string;
  mf_exportsManifest : value;
  mf_snapshots : artifact_entry;
  mf_changes : artifact_entry
}.

(** What a build leaves in the output directory. *)
Record bundle := {
  b_snapshots_file : string;
  b_changes_file : string;
  b_manifest : manifest;
  b_sums : string
}.

Section Main.

Variable json_loads : string -> result value.
(** [int(s)] for a [str] *)
Variable int_of_str : string -> result Z.
Variable sha256_hex : string -> string.
(** The file [GzipFile] leaves for a file name and the bytes written. *)
Variable gzip_file : string -> string -> string.
(** [json.dumps(manifest, indent=2, sort_keys=True)] *)
Variable json_dumps : manifest -> string.

(** [_download_export_to_gzip_jsonl]: line 95 opens the sink with
    [gzip.open(out_path, "wb", compresslevel=6, mtime=0)], then the loop runs. *)
Definition _download_export_to_gzip_jsonl (a : export_args) (server : list world)
    : run export_output * list string :=
  match gzip_open ["compresslevel"; "mtime"] with
  | Raise e => (Raised e, [])
  | Ok _ => export_loop json_loads a server initial
  end.

(** [int(v)] *)
Definition py_int (v : value) : result Z :=
  match v with
  | VInt z => Ok z
  | VBool b => Ok (Z.b2z b)
  | VFloat q => Ok (Z.quot (Qnum q) (Zpos (Qden q)))
  | VStr s => int_of_str s
  | VNone | VList _ | VDict _ =>
      Raise (TypeError "int() argument must be a string, a bytes-like object or a real number")
  end.

(** [x or y] *)
Definition py_or (x y : value) : value := if truthy x then x else y.

(** Lines 176-177. *)
Definition negotiated_limit (requested : Z) (exports_manifest : value) : result Z :=
  max_limit_v <- obj_get exports_manifest "maxLimit" ;;
  max_limit <- py_int (py_or max_limit_v (VInt requested)) ;;
  Ok (Z.min requested max_limit).

Definition snapshots_name : string := "healtharchive-snapshots.jsonl.gz".
Definition changes_name : string := "healtharchive-changes.jsonl.gz".

(** The keyword arguments of the two calls, lines 182-199. *)
Definition snapshots_call (args : cli) (base ua : string) (lim : Z) : export_args :=
  {| api_base := base; path := "/api/exports/snapshots"; id_field := "snapshot_id";
     out_dir := arg_out_dir args; out_name := snapshots_name; limit := lim;
     timeout := arg_timeout_seconds args; user_agent := ua |}.

Definition changes_call (args : cli) (base ua : string) (lim : Z) : export_args :=
  {| api_base := base; path := "/api/exports/changes"; id_field := "change_id";
     out_dir := arg_out_dir args; out_name := changes_name; limit := lim;
     timeout := arg_timeout_seconds args; user_agent := ua |}.

(** The two calls the build makes once the capability document is in, or the
    exception of lines 173-177. *)
Definition plan (args : cli) (exports_manifest : value) : result (export_args * export_args) :=
  let base := rstrip (Ascii.eqb "/"%char) (arg_api_base args) in
  let ua := "healtharchive-datasets/1.0 (+" +:+ base +:+ ")" in
  enabled <- obj_get exports_manifest "enabled" ;;
  if negb (truthy enabled)
  then Raise (RuntimeError "Exports are disabled on the API; cannot build a dataset release.")
  else
    lim <- negotiated_limit (arg_limit args) exports_manifest ;;
    Ok (snapshots_call args base ua lim, changes_call args base ua lim).

(** [main]: [now] is what [_utc_now_iso()] returns, [exports_net] the network
    the capability request sees, the two servers those of the two exports. *)
Definition main (args : cli) (now : string) (exports_net : world)
    (snapshots_server changes_server : list world) : run bundle :=
  let base := rstrip (Ascii.eqb "/"%char) (arg_api_base args) in
  match fst (_http_json json_loads (base +:+ "/api/exports") default_retries exports_net) with
  | Raise e => Raised e
  | Ok exports_manifest =>
      match plan args exports_manifest with
      | Raise e => Raised e
      | Ok (snap, chg) =>
          match fst (_download_export_to_gzip_jsonl snap snapshots_server) with
          | Raised e => Raised e
          | Starved => Starved
          | Returned (snapshots_meta, snapshots_written) =>
              match fst (_download_export_to_gzip_jsonl chg changes_server) with
              | Raised e => Raised e
              | Starved => Starved
              | Returned (changes_meta, changes_written) =>
                  let snapshots_file := gzip_file snapshots_name snapshots_written in
                  let changes_file := gzip_file changes_name changes_written in
                  let snapshots_sha := sha256_hex snapshots_file in
                  let changes_sha := sha256_hex changes_file in
                  let mf :=
                    {| mf_version := 1; mf_tag := arg_tag args; mf_releasedAtUtc := now;
                       mf_apiBase := base; mf_exportsManifest := exports_manifest;
                       mf_snapshots := {| e_meta := snapshots_meta; e_sha256 := snapshots_sha |};
                       mf_changes := {| e_meta := changes_meta; e_sha256 := changes_sha |} |} in
                  let manifest_sha := sha256_hex (json_dumps mf +:+ NL) in
                  Returned
                    {| b_snapshots_file := snapshots_file;
                       b_changes_file := changes_file;
                       b_manifest := mf;
                       b_sums :=
                         snapshots_sha +:+ "  " +:+ snapshots_name +:+ NL
                         +:+ changes_sha +:+ "  " +:+ changes_name +:+ NL
                         +:+ manifest_sha +:+ "  manifest.json" +:+ NL |}
              end
          end
      end
  end.

End Main.

End Build.

(** ** Text ([str]) helpers of the validator *)

Module Text.

(** [s.split()]: the maximal runs of characters that are not white space.
    [split_from s] is the run that starts at the head of [s] (empty when [s]
    starts with white space) and the runs after it. *)
Fixpoint split_from (s : string) : string * list string :=
  match s with
  | EmptyString => (EmptyString, [])
  | String c r =>
      let '(t, ts) := split_from r in
      if str_isspace c
      then (EmptyString, if is_empty t then ts else t :: ts)
      else (String c t, ts)
  end.

Definition split (s : string) : list string :=
  let '(t, ts) := split_from s in
  if is_empty t then ts else t :: ts.

(** The ASCII line boundaries of [str.splitlines()]: LF, CR, VT, FF, FS, GS,
    RS; CR LF counts once. *)
Definition is_linebreak (c : ascii) : bool :=
  let n := nat_of_ascii c in
  ((n =? 10) || (n =? 13) || (n =? 11) || (n =? 12) || (n =? 28) || (n =? 29) || (n =? 30))%nat.

Fixpoint splitlines_from (after_cr : bool) (s : string) : list string :=
  match s with
  | EmptyString => []
  | String c r =>
      if after_cr && Ascii.eqb c "010"%char then splitlines_from false r
      else if is_linebreak c
      then EmptyString :: splitlines_from (Ascii.eqb c "013"%char) r
      else match splitlines_from false r with
           | [] => [String c EmptyString]
           | l :: ls => String c l :: ls
           end
  end.

Definition splitlines (s : string) : list string := splitlines_from false s.

(** [s.endswith(suffix)] *)
Definition endswith (suffix s : string) : bool :=
  let n := String.length s in
  let k := String.length suffix in
  ((k <=? n)%nat && String.eqb (substring (n - k) k s) suffix).

End Text.
Export Text.

(** ** The bundle validator ([validate_release_bundle.py]) *)

Module Validate.

Record Artifact := {
  name : string;
  filename : string;
  sha256 : string;
  rows : pyint;
  min_id : option pyint;
  max_id : option pyint;
  requests_made : pyint;
  limit_per_request : pyint;
  truncated : bool
}.

Definition _require (obj : gmap string value) (key : string) : result value :=
  match obj !! key with
  | None => Raise (ValueError ("manifest missing required field: " +:+ key))
  | Some v => Ok v
  end.

(** [{key!r}] for the keys the validator asks for: none holds a quote or a
    backslash. *)
Definition repr_key (key : string) : string := "'" +:+ key +:+ "'".

Definition _require_dict (obj : gmap string value) (key : string)
    : result (gmap string value) :=
  v <- _require obj key ;;
  match isinstance_dict v with
  | None => Raise (ValueError ("manifest field " +:+ repr_key key +:+ " must be an object"))
  | Some d => Ok d
  end.

Section ParseArtifact.

Variable meta : gmap string value.
Variable name_ : string.

Definition field (k : string) : string := "artifacts." +:+ name_ +:+ "." +:+ k.

Definition req_str (k : string) : result string :=
  v <- _require meta k ;;
  match isinstance_str v with
  | Some s =>
      if is_empty (strip str_isspace s)
      then Raise (ValueError (field k +:+ " must be a non-empty string"))
      else Ok (strip str_isspace s)
  | None => Raise (ValueError (field k +:+ " must be a non-empty string"))
  end.

Definition req_int (k : string) : result pyint :=
  v <- _require meta k ;;
  match isinstance_int v with
  | Some i => Ok i
  | None => Raise (ValueError (field k +:+ " must be an integer"))
  end.

Definition opt_int (k : string) : result (option pyint) :=
  match default VNone (meta !! k) with
  | VNone => Ok None
  | v =>
      match isinstance_int v with
      | Some i => Ok (Some i)
      | None => Raise (ValueError (field k +:+ " must be an integer or null"))
      end
  end.

Definition req_bool (k : string) : result bool :=
  v <- _require meta k ;;
  match isinstance_bool v with
  | Some b => Ok b
  | None => Raise (ValueError (field k +:+ " must be a boolean"))
  end.

(** The checks of lines 82-102 on the values read. *)
Definition check_invariants (rows_ : pyint) (min_id_ max_id_ : option pyint)
    (requests_made_ limit_per_request_ : pyint) : result unit :=
  if int_val rows_ <? 0
  then Raise (ValueError (field "rows" +:+ " must be >= 0"))
  else
    _ <- (if int_val rows_ =? 0
          then
            match min_id_, max_id_ with
            | None, None => Ok tt
            | _, _ =>
                Raise (ValueError ("artifacts." +:+ name_
                         +:+ " has rows=0 but minId/maxId are not null (minId="
                         +:+ str_opt_int min_id_ +:+ ", maxId=" +:+ str_opt_int max_id_ +:+ ")"))
            end
          else
            match min_id_, max_id_ with
            | Some lo, Some hi =>
                if int_val hi <? int_val lo
                then Raise (ValueError (field "minId" +:+ " must be <= maxId"))
                else if int_val requests_made_ <? 1
                then Raise (ValueError (field "requestsMade" +:+ " must be >= 1 when rows>0"))
                else Ok tt
            | _, _ =>
                Raise (ValueError ("artifacts." +:+ name_
                                   +:+ " has rows>0 but minId/maxId are null"))
            end) ;;
    if int_val limit_per_request_ <=? 0
    then Raise (ValueError (field "limitPerRequest" +:+ " must be > 0"))
    else if int_val requests_made_ <=? 0
    then Raise (ValueError (field "requestsMade" +:+ " must be > 0"))
    else Ok tt.

Definition _parse_artifact : result Artifact :=
  filename_ <- req_str "filename" ;;
  sha256_ <- req_str "sha256" ;;
  rows_ <- req_int "rows" ;;
  min_id_ <- opt_int "minId" ;;
  max_id_ <- opt_int "maxId" ;;
  requests_made_ <- req_int "requestsMade" ;;
  limit_per_request_ <- req_int "limitPerRequest" ;;
  truncated_ <- req_bool "truncated" ;;
  _ <- check_invariants rows_ min_id_ max_id_ requests_made_ limit_per_request_ ;;
  Ok {| name := name_; filename := filename_; sha256 := sha256_; rows := rows_;
        min_id := min_id_; max_id := max_id_; requests_made := requests_made_;
        limit_per_request := limit_per_request_; truncated := truncated_ |}.

End ParseArtifact.

(** [expected[filename] = sha] on a dict kept in insertion order: a key that
    is there keeps its place and takes the new value. *)
Fixpoint dict_set (k v : string) (d : list (string * string)) : list (string * string) :=
  match d with
  | [] => [(k, v)]
  | (k', v') :: d' =>
      if String.eqb k k' then (k, v) :: d' else (k', v') :: dict_set k v d'
  end.

Fixpoint dict_get (k : string) (d : list (string * string)) : option string :=
  match d with
  | [] => None
  | (k', v') :: d' => if String.eqb k k' then Some v' else dict_get k d'
  end.

Section Sums.

Variable sha256_hex : string -> string.
(** [{raw!r}] *)
Variable repr : string -> string.
(** The files of the bundle directory, by the name joined to it. *)
Variable fs : gmap string string.

(** What one line of the listing gives: nothing (blank), an entry
    [(filename, sha)], or the error of line 125. *)
Definition parse_line (raw : string) : result (option (string * string)) :=
  let line := strip str_isspace raw in
  if is_empty line then Ok None
  else
    let parts := split line in
    if (length parts <? 2)%nat
    then Raise (ValueError ("Invalid SHA256SUMS line: " +:+ repr raw))
    else
      let sha := strip str_isspace (hd EmptyString parts) in
      let filename_ := strip str_isspace (List.last parts EmptyString) in
      Ok (Some (filename_, sha)).

(** The first loop, lines 119-128. *)
Fixpoint read_expected (lines : list string) (expected : list (string * string))
    : result (list (string * string)) :=
  match lines with
  | [] => Ok expected
  | raw :: lines' =>
      entry <- parse_line raw ;;
      match entry with
      | None => read_expected lines' expected
      | Some (filename_, sha) => read_expected lines' (dict_set filename_ sha expected)
      end
  end.

(** The second loop, lines 133-139. *)
Fixpoint check_expected (expected : list (string * string)) : result unit :=
  match expected with
  | [] => Ok tt
  | (filename_, sha) :: expected' =>
      match fs !! filename_ with
      | None => Raise (ValueError ("SHA256SUMS references missing file: " +:+ filename_))
      | Some content =>
          let actual := sha256_hex content in
          if negb (String.eqb actual sha)
          then Raise (ValueError ("SHA256 mismatch for " +:+ filename_ +:+ ": expected "
                                  +:+ sha +:+ " got " +:+ actual))
          else check_expected expected'
      end
  end.

(** [_validate_sha256sums], on the text of the listing. *)
Definition _validate_sha256sums (sums_text : string) : result unit :=
  expected <- read_expected (splitlines sums_text) [] ;;
  match expected with
  | [] => Raise (ValueError "SHA256SUMS is empty")
  | _ => check_expected expected
  end.

End Sums.

(** The parsed command line. *)
Record cli := {
  bundle_dir : string;
  allow_empty : bool;
  allow_truncated : bool
}.

Section Main.

Variable json_loads : string -> result value.
Variable sha256_hex : string -> string.
Variable repr : string -> string.
(** Reading a gzip file to its end: the bytes, or the exception. *)
Variable gunzip : string -> result string.
(** [str(bundle_dir / name)] *)
Variable path_str : string -> string -> string.
(** The files of the bundle directory. *)
Variable fs : gmap string string.
Variable args : cli.

(** Lines 189-192, for one of the three keys. *)
Definition require_text (manifest : gmap string value) (required : string) : result unit :=
  v <- _require manifest required ;;
  match isinstance_str v with
  | Some s =>
      if is_empty (strip str_isspace s)
      then Raise (SystemExit ("ERROR: manifest." +:+ required +:+ " must be a non-empty string"))
      else Ok tt
  | None => Raise (SystemExit ("ERROR: manifest." +:+ required +:+ " must be a non-empty string"))
  end.

(** Lines 172-207: the manifest and its two artifacts. *)
Definition load_manifest : result (gmap string value * Artifact * Artifact) :=
  match fs !! "manifest.json" with
  | None =>
      Raise (SystemExit ("ERROR: Missing manifest.json at "
                         +:+ path_str (bundle_dir args) "manifest.json"))
  | Some manifest_text =>
      match fs !! "SHA256SUMS" with
      | None =>
          Raise (SystemExit ("ERROR: Missing SHA256SUMS at "
                             +:+ path_str (bundle_dir args) "SHA256SUMS"))
      | Some _ =>
          doc <- json_loads manifest_text ;;
          match isinstance_dict doc with
          | None => Raise (SystemExit "ERROR: manifest.json must contain a JSON object")
          | Some manifest =>
              version <- _require manifest "version" ;;
              match isinstance_int version with
              | None => Raise (SystemExit "ERROR: manifest.version must be a positive integer")
              | Some v =>
                  if int_val v <=? 0
                  then Raise (SystemExit "ERROR: manifest.version must be a positive integer")
                  else
                    _ <- require_text manifest "tag" ;;
                    _ <- require_text manifest "releasedAtUtc" ;;
                    _ <- require_text manifest "apiBase" ;;
                    exports_manifest <- _require manifest "exportsManifest" ;;
                    match isinstance_dict exports_manifest with
                    | None => Raise (SystemExit "ERROR: manifest.exportsManifest must be an object")
                    | Some em =>
                        match em !! "enabled" with
                        | None =>
                            Raise (SystemExit
                              "ERROR: exportsManifest.enabled missing (expected API /api/exports payload)")
                        | Some _ =>
                            artifacts <- _require_dict manifest "artifacts" ;;
                            snapshots <- _require_dict artifacts "snapshots" ;;
                            changes <- _require_dict artifacts "changes" ;;
                            snapshots_artifact <- _parse_artifact snapshots "snapshots" ;;
                            changes_artifact <- _parse_artifact changes "changes" ;;
                            Ok (manifest, snapshots_artifact, changes_artifact)
                        end
                    end
              end
          end
      end
  end.

(** Lines 209-219: what may not be published. *)
Definition publish_policy (snapshots_artifact changes_artifact : Artifact) : result unit :=
  if negb (allow_truncated args)
     && (truncated snapshots_artifact || truncated changes_artifact)
  then Raise (SystemExit
         ("ERROR: truncated release is not publishable (snapshots.truncated="
          +:+ str_bool (truncated snapshots_artifact) +:+ ", changes.truncated="
          +:+ str_bool (truncated changes_artifact)
          +:+ "). Re-run with --allow-truncated for local smoke tests."))
  else if negb (allow_empty args)
          && ((int_val (rows snapshots_artifact) =? 0) || (int_val (rows changes_artifact) =? 0))
  then Raise (SystemExit
         ("ERROR: rows=0 is suspicious; aborting (snapshots.rows="
          +:+ str_int (rows snapshots_artifact) +:+ ", changes.rows="
          +:+ str_int (rows changes_artifact) +:+ "). Re-run with --allow-empty to override."))
  else Ok tt.

(** [_validate_gzip] on the content of the file *)
Definition _validate_gzip (filename_ content : string) : result unit :=
  match gunzip content with
  | Ok _ => Ok tt
  | Raise exc =>
      Raise (ValueError ("gzip integrity check failed for " +:+ filename_ +:+ ": "
                         +:+ exn_str exc))
  end.

(** Lines 222-232, for one artifact. *)
Definition check_artifact_file (artifact : Artifact) : result unit :=
  match fs !! filename artifact with
  | None => Raise (SystemExit ("ERROR: Missing artifact file: " +:+ filename artifact))
  | Some content =>
      let actual := sha256_hex content in
      if negb (String.eqb actual (sha256 artifact))
      then Raise (SystemExit ("ERROR: manifest sha256 mismatch for " +:+ filename artifact
                              +:+ ": expected " +:+ sha256 artifact +:+ " got " +:+ actual))
      else if endswith ".gz" (filename artifact)
      then _validate_gzip (filename artifact) content
      else Ok tt
  end.

(** [{manifest['tag']}]: the key holds a string once [load_manifest] passed *)
Definition text_of (manifest : gmap string value) (key : string) : string :=
  match manifest !! key with
  | Some (VStr s) => s
  | _ => EmptyString
  end.

Definition summary_line (label : string) (artifact : Artifact) : string :=
  "- " +:+ label +:+ ": " +:+ str_int (rows artifact) +:+ " rows (minId="
  +:+ str_opt_int (min_id artifact) +:+ ", maxId=" +:+ str_opt_int (max_id artifact) +:+ ")".

Definition warning_line (snapshots_artifact changes_artifact : Artifact) : string :=
  "WARNING: truncated=true (snapshots=" +:+ str_bool (truncated snapshots_artifact)
  +:+ ", changes=" +:+ str_bool (truncated changes_artifact) +:+ ")".

(** Lines 237-250: the lines printed. *)
Definition report (manifest : gmap string value) (snapshots_artifact changes_artifact : Artifact)
    : list string :=
  [ "OK: release bundle validated";
    "- tag: " +:+ text_of manifest "tag";
    "- apiBase: " +:+ text_of manifest "apiBase";
    summary_line "snapshots" snapshots_artifact;
    summary_line "changes" changes_artifact ]
  ++ (if truncated snapshots_artifact || truncated changes_artifact
      then [warning_line snapshots_artifact changes_artifact]
      else []).

(** Lines 221-250: everything after the two policy checks. *)
Definition verify_and_report (manifest : gmap string value)
    (snapshots_artifact changes_artifact : Artifact) : result (list string) :=
  _ <- check_artifact_file snapshots_artifact ;;
  _ <- check_artifact_file changes_artifact ;;
  _ <- _validate_sha256sums sha256_hex repr fs (default EmptyString (fs !! "SHA256SUMS")) ;;
  Ok (report manifest snapshots_artifact changes_artifact).

(** [main]: the lines printed when it returns 0, or the exception. *)
Definition main : result (list string) :=
  loaded <- load_manifest ;;
  let '(manifest, snapshots_artifact, changes_artifact) := loaded in
  _ <- publish_policy snapshots_artifact changes_artifact ;;
  verify_and_report manifest snapshots_artifact changes_artifact.

End Main.

End Validate.

(** ** Vocabulary of the statements about the retry client *)

Module HttpSpec.
Import Http.

(** [1.5^k] seconds, the pause the policy asks for after attempt [k]. *)
Definition pause (k : nat) : Q := Qpower (3 # 2) (Z.of_nat k).

Definition count_urlopen (evs : list event) : nat :=
  length (List.filter (fun e => match e with Urlopen _ => true | Sleep _ => false end) evs).

Definition fails {A} (body : nat -> result A) (k : nat) : Prop :=
  exists e, body k = Raise e.

(** The world lets the client sleep after each of the attempts before [k]. *)
Definition sleeps_through (w : world) (k : nat) : Prop :=
  forall j, (j < k)%nat ->
    exists q, float_pow w (3 # 2) j = Ok q /\ time_sleep w q = Ok tt.

(** Up to attempt [n] (excluded) the float [1.5**j] is the rational [1.5^j]
    and [time.sleep] accepts it.  With binary64 floats the power is exact as
    long as [3^j < 2^53], that is up to [j = 33]. *)
Definition exact_clock (w : world) (n : nat) : Prop :=
  forall j, (j < n)%nat ->
    exists q, float_pow w (3 # 2) j = Ok q /\ Qeq q (pause j) /\ time_sleep w q = Ok tt.

(** The events of [m] attempts from attempt [k] on, with the sleeps the world
    gave between them. *)
Fixpoint slept (w : world) (k m : nat) (evs : list event) : Prop :=
  match m with
  | O => evs = []
  | S m' =>
      match m' with
      | O => evs = [Urlopen k]
      | S _ =>
          exists q rest,
            evs = Urlopen k :: Sleep q :: rest
            /\ sleep_backoff w k = Ok q
            /\ slept w (S k) m' rest
      end
  end.

(** The events the policy asks for: [m] attempts from attempt [k] on, and
    between two of them, and only there, a sleep of [1.5^attempt] seconds. *)
Fixpoint follows_policy (k m : nat) (evs : list event) : Prop :=
  match m with
  | O => evs = []
  | S m' =>
      match m' with
      | O => evs = [Urlopen k]
      | S _ =>
          exists q rest,
            evs = Urlopen k :: Sleep q :: rest
            /\ Qeq q (pause k)
            /\ follows_policy (S k) m' rest
      end
  end.

(** An attempt of [_http_ndjson_stream] that fails, and its error: that of
    the transport, or the one on a status that is not 200. *)
Inductive stream_failure (url : string) : response -> exn -> Prop :=
| stream_raises e : stream_failure url (UrlopenRaises e) e
| stream_status status body :
    status <> 200 ->
    stream_failure url (HttpResponse status body)
      (RuntimeError ("GET " +:+ url +:+ " failed with HTTP " +:+ str_Z status
                     +:+ ": " +:+ substring 0 2048 body)).

Definition stream_success (r : response) (body : string) : Prop :=
  r = HttpResponse 200 body.

(** An attempt of [_http_json] that fails, and its error: that of the
    transport, the one on a status that is not 200, or that of the decoder. *)
Inductive json_failure (json_loads : string -> result value) (url : string)
    : response -> exn -> Prop :=
| json_raises e : json_failure json_loads url (UrlopenRaises e) e
| json_status status payload :
    status <> 200 ->
    json_failure json_loads url (HttpResponse status payload)
      (RuntimeError ("GET " +:+ url +:+ " failed with HTTP " +:+ str_Z status))
| json_undecodable payload e :
    json_loads payload = Raise e ->
    json_failure json_loads url (HttpResponse 200 payload) e.

Definition json_success (json_loads : string -> result value) (r : response) (v : value)
    : Prop :=
  exists payload, r = HttpResponse 200 payload /\ json_loads payload = Ok v.

(** The retry policy in full, on what a call returned and did ([out]), for a
    request whose attempt [k] fails with [e] when [failure k e] and succeeds
    with [v] when [success k v]:
    - the events are those of [m] attempts, with a sleep of [1.5^k] seconds
      after attempt [k] exactly when attempt [k+1] follows;
    - [m <= R + 1];
    - every attempt but the last one made failed;
    - the call returns what the last attempt returned, or, when that one
      failed too, all [R + 1] attempts were made and the error raised is the
      [RuntimeError] whose message is [prefix], the URL, a colon and the text
      of the error of the last attempt. *)
Definition retry_policy {A} (failure : nat -> exn -> Prop) (success : nat -> A -> Prop)
    (R : Z) (prefix url : string) (out : result A * list event) : Prop :=
  exists m : nat,
    follows_policy 0 m (snd out)
    /\ count_urlopen (snd out) = m
    /\ Z.of_nat m <= Z.max 0 (R + 1)
    /\ (forall k, (k + 1 < m)%nat -> exists e, failure k e)
    /\ match fst out with
       | Ok v => exists j, m = S j /\ success j v
       | Raise err =>
           Z.of_nat m = Z.max 0 (R + 1)
           /\ match m with
              | O => err = RuntimeError (prefix +:+ url +:+ ": None")
              | S j =>
                  exists e,
                    failure j e
                    /\ err = RuntimeError (prefix +:+ url +:+ ": " +:+ exn_str e)
              end
       end.

(** The policy as the specification words it, for one call: at most [R + 1]
    attempts, a sleep of [1.5^attempt] seconds exactly between two attempts,
    and, when the final attempt (attempt [R]) was made and failed, the error
    with the URL and the last underlying error. *)
Definition stated_policy {A} (failure : nat -> exn -> Prop) (R : Z) (prefix url : string)
    (out : result A * list event) : Prop :=
  exists m : nat,
    follows_policy 0 m (snd out)
    /\ count_urlopen (snd out) = m
    /\ Z.of_nat m <= Z.max 0 (R + 1)
    /\ (forall e,
          Z.of_nat m = R + 1 -> failure (Z.to_nat R) e ->
          fst out = Raise (RuntimeError (prefix +:+ url +:+ ": " +:+ exn_str e))).

Definition retry_claim : Prop :=
  forall (json_loads : string -> result value) (url : string) (R : Z) (net : world),
    stated_policy (fun k => json_failure json_loads url (net k)) R
      "Failed to fetch JSON from " url (_http_json json_loads url R net)
    /\ stated_policy (fun k => stream_failure url (net k)) R
         "Failed to stream NDJSON from " url (_http_ndjson_stream url R net).

End HttpSpec.

Module HttpSample.
Import Http.

(** [1.5**34] on binary64 floats, as CPython gives it: [3^34 / 2^34] is not
    a float, and the float is [(3^34 + 1) / 2^34]. *)
Definition float_pow_34 : Q := 8338590849833285 # 8589934592.

(** A world whose floats round as binary64 does at attempt 34, and where
    every call of [urlopen] is refused. *)
Definition refusing : world :=
  {| Request := fun _ => Ok tt;
     urlopen := fun _ => UrlopenRaises (OtherError "URLError" "refused");
     float_pow := fun x n => if (n =? 34)%nat then Ok float_pow_34
                             else Ok (Qpower x (Z.of_nat n));
     time_sleep := fun _ => Ok tt |}.

(** A world in which [Request] refuses every URL, as a URL without scheme is
    refused. *)
Definition unbuildable : world :=
  {| Request := fun url => Raise (ValueError ("unknown url type: '" +:+ url +:+ "'"));
     urlopen := fun _ => HttpResponse 200 EmptyString;
     float_pow := fun x n => Ok (Qpower x (Z.of_nat n));
     time_sleep := fun _ => Ok tt |}.

End HttpSample.

(** ** Vocabulary of the statements about the exporter *)

Module ExporterSpec.
Import Http Exporter.

Section Rows.

Variable json_loads : string -> result value.
Variable a : export_args.

(** The rows of a page: the lines of its body that are not blank. *)
Definition nonblank (raw_line : string) : bool := negb (blank raw_line).

Definition rows_of_page (body : string) : list string :=
  List.filter nonblank (readlines body).

(** What the loop reads in the id field of a row, or the exception of
    [json.loads] or [obj.get]. *)
Definition row_value (raw_line : string) : result value :=
  obj <- json_loads (terminated raw_line) ;;
  obj_get obj (id_field a).

Definition parses (raw_line : string) : Prop := exists v, row_value raw_line = Ok v.

(** The id a row carries, when the field is there and is an [int]. *)
Definition row_id (raw_line : string) : option pyint :=
  match row_value raw_line with
  | Ok v => isinstance_int v
  | Raise _ => None
  end.

Definition usable_ids (rws : list string) : list pyint := omap row_id rws.

Definition first_or {A} (o : option A) (l : list A) : option A :=
  match o with
  | Some x => Some x
  | None => head l
  end.

Definition last_or {A} (l : list A) (o : option A) : option A :=
  match last l with
  | Some x => Some x
  | None => o
  end.

(** The state once the rows [rws] went through the body of the [for] loop. *)
Definition absorb (rws : list string) (st : state) : state :=
  {| after_id := after_id st;
     rows := rows st + Z.of_nat (length rws);
     min_id := first_or (min_id st) (usable_ids rws);
     max_id := last_or (usable_ids rws) (max_id st);
     requests_made := requests_made st;
     gz := gz st +:+ join (map terminated rws) |}.

(** The pages advance the cursor: each has a row with a usable id, and the
    last such id of a page is above the cursor the page was asked with. *)
Fixpoint advancing (after : option pyint) (pages : list string) : Prop :=
  match pages with
  | [] => True
  | body :: rest =>
      exists last_id,
        last (usable_ids (rows_of_page body)) = Some last_id
        /\ (forall aft, after = Some aft -> int_val aft < int_val last_id)
        /\ advancing (Some last_id) rest
  end.

(** The state after a page without rows, and after a page with rows whose
    last usable id is [last_id]. *)
Definition count (st : state) : state :=
  {| after_id := after_id st; rows := rows st; min_id := min_id st; max_id := max_id st;
     requests_made := requests_made st + 1; gz := gz st |}.

Definition advance (st : state) (last_id : pyint) : state :=
  {| after_id := Some last_id; rows := rows st; min_id := min_id st; max_id := max_id st;
     requests_made := requests_made st + 1; gz := gz st |}.

(** The world of a page request delivers [body]: for every URL of the export
    the stream opens, at once or after retries, on a response with that
    body. *)
Definition delivers (net : world) (body : string) : Prop :=
  forall after, fst (_http_ndjson_stream (page_url a after) default_retries net) = Ok body.

(** The server delivers the pages [bodies], one for each request in turn. *)
Definition serves (server : list world) (bodies : list string) : Prop :=
  Forall2 delivers server bodies.

(** The pages a run fetched: one per URL requested. *)
Definition fetched (bodies : list string) (urls : list string) : list string :=
  take (length urls) bodies.

(** The claim on row and id accounting as the specification words it, for
    the run over the pages [bodies]: whenever the run returns and the rows
    fetched carry the integers [zs], the dict has [rows = n], [minId = min zs]
    and [maxId = max zs]. *)
Definition zmin (zs : list Z) : option Z :=
  match zs with
  | [] => None
  | z :: r => Some (fold_left Z.min r z)
  end.

Definition zmax (zs : list Z) : option Z :=
  match zs with
  | [] => None
  | z :: r => Some (fold_left Z.max r z)
  end.

Definition carries (rws : list string) (zs : list Z) : Prop :=
  Forall2 (fun raw_line z => row_value raw_line = Ok (VInt z)) rws zs.

Definition accounting_claim (bodies : list string) : Prop :=
  forall server meta written urls zs,
    serves server bodies ->
    export_loop json_loads a server initial = (Returned (meta, written), urls) ->
    carries (flat_map rows_of_page (fetched bodies urls)) zs ->
    m_rows meta = Z.of_nat (length zs)
    /\ m_minId meta = Int <$> zmin zs
    /\ m_maxId meta = Int <$> zmax zs.

(** The claim on the bytes written as the specification words it: the file
    holds the lines the endpoint emitted, in order, each ended by a line
    feed. *)
Definition passthrough_claim (bodies : list string) : Prop :=
  forall server meta written urls,
    serves server bodies ->
    export_loop json_loads a server initial = (Returned (meta, written), urls) ->
    written = join (map terminated (flat_map readlines (fetched bodies urls))).

(** The same claim read to the letter: the file is, byte for byte, what the
    endpoint sent. *)
Definition verbatim_claim (bodies : list string) : Prop :=
  forall server meta written urls,
    serves server bodies ->
    export_loop json_loads a server initial = (Returned (meta, written), urls) ->
    written = join (fetched bodies urls).

(** The claim on termination as the specification words it, for the pages
    [bodies]: whenever one of them has no rows, the run returns at the first
    such page, and [requestsMade] is the number of pages fetched, that page
    included. *)
Definition termination_claim (bodies : list string) : Prop :=
  forall server pre p post,
    bodies = pre ++ p :: post ->
    Forall (fun b => rows_of_page b <> []) pre ->
    rows_of_page p = [] ->
    serves server bodies ->
    exists meta written urls,
      export_loop json_loads a server initial = (Returned (meta, written), urls)
      /\ length urls = S (length pre)
      /\ m_requestsMade meta = Z.of_nat (S (length pre)).

(** An id as the specification words it: the field holds a JSON integer. *)
Definition json_integer (v : value) : option Z :=
  match v with
  | VInt z => Some z
  | _ => None
  end.

(** An id as [isinstance(value, int)] takes it: a JSON integer, or a JSON
    [true] or [false], which are the [int]s 1 and 0. *)
Definition python_int (v : value) : option Z :=
  match v with
  | VInt z => Some z
  | VBool b => Some (Z.b2z b)
  | _ => None
  end.

(** The id of a row under a reading [typed] of "integer-typed", and the ids
    of the rows that have one. *)
Definition id_by (typed : value -> option Z) (raw_line : string) : option Z :=
  match row_value raw_line with
  | Ok v => typed v
  | Raise _ => None
  end.

Definition ids_by (typed : value -> option Z) (rws : list string) : list Z :=
  omap (id_by typed) rws.

(** The claim on the cursor, under a reading [typed] of "integer-typed":
    after a page with rows, all of which parse, the run raises there exactly
    when no row has an id, or a cursor was set and the last id of the page is
    not above it. *)
Definition cursor_claim (typed : value -> option Z) : Prop :=
  forall (st : state) (net : world) (body : string) (rest : list world),
    delivers net body ->
    rows_of_page body <> [] ->
    Forall parses (rows_of_page body) ->
    ((exists e, export_loop json_loads a (net :: rest) st
                = (Raised e, [page_url a (after_id st)]))
     <-> (ids_by typed (rows_of_page body) = []
          \/ exists aft l,
               after_id st = Some aft
               /\ last (ids_by typed (rows_of_page body)) = Some l
               /\ l <= int_val aft)).

End Rows.

End ExporterSpec.

(** ** A small environment to run the definitions on *)

Module Sample.
Import Http Exporter.

Fixpoint digits (s : string) (acc : Z) : option Z :=
  match s with
  | EmptyString => Some acc
  | String c r =>
      let n := nat_of_ascii c in
      if ((48 <=? n) && (n <=? 57))%nat
      then digits r (10 * acc + Z.of_nat (n - 48))
      else None
  end.

(** [cut stop s]: what precedes the first [stop] in [s], and what follows. *)
Fixpoint cut (stop : ascii) (s : string) : option (string * string) :=
  match s with
  | EmptyString => None
  | String c r =>
      if Ascii.eqb c stop then Some (EmptyString, r)
      else match cut stop r with
           | Some (before, rest) => Some (String c before, rest)
           | None => None
           end
  end.

Definition quote : ascii := "034"%char.

(** [json.loads] on the objects with at most one member, whose value is a
    natural number in decimal: [{}] and [{"key": 123}]; anything else is
    refused. *)
Definition json_loads (text : string) : result value :=
  let refused := Raise (OtherError "JSONDecodeError" "Expecting value") in
  match strip bytes_isspace text with
  | String "{" (String "}" EmptyString) => Ok (VDict ∅)
  | String "{" (String q r) =>
      if Ascii.eqb q quote then
        match cut quote r with
        | Some (key, String ":" (String " " r')) =>
            match cut "}" r' with
            | Some (String d ds, EmptyString) =>
                match digits (String d ds) 0 with
                | Some z => Ok (VDict {[ key := VInt z ]})
                | None => refused
                end
            | _ => refused
            end
        | _ => refused
        end
      else refused
  | _ => refused
  end.

(** The line of a row with the given id. *)
Definition row (key : string) (z : Z) : string :=
  "{" +:+ String quote key +:+ String quote ": " +:+ str_Z z +:+ "}" +:+ NL.

Definition snapshots_args : export_args :=
  {| api_base := "https://api.healtharchive.ca"; path := "/api/exports/snapshots";
     id_field := "snapshot_id"; out_dir := "dist";
     out_name := "healtharchive-snapshots.jsonl.gz"; limit := 10000;
     timeout := 60; user_agent := "healtharchive-datasets/1.0 (+https://api.healtharchive.ca)" |}.

Definition snapshot (z : Z) : string := row "snapshot_id" z.

(** A page whose ids are not in increasing order. *)
Definition unordered_page : string := snapshot 3 +:+ snapshot 1 +:+ snapshot 2.

(** A page that opens with an empty line. *)
Definition page_with_blank_line : string := NL +:+ snapshot 7.

(** The three rows of the end-to-end scenario, in one page. *)
Definition ordered_page : string := snapshot 101 +:+ snapshot 102 +:+ snapshot 103.

Definition first_url : string := page_url snapshots_args None.

Definition snapshots_meta (n : Z) (lo hi : option pyint) (requests : Z) : export_meta :=
  {| m_path := "/api/exports/snapshots"; m_idField := "snapshot_id"; m_rows := n;
     m_minId := lo; m_maxId := hi; m_limitPerRequest := 10000;
     m_requestsMade := requests; m_filename := "healtharchive-snapshots.jsonl.gz" |}.

(** A state in which the cursor stands at 5. *)
Definition state_at_5 : state :=
  {| after_id := Some (Int 5); rows := 1; min_id := Some (Int 5); max_id := Some (Int 5);
     requests_made := 1; gz := snapshot 5 |}.

(** A row whose id is the JSON [true], and a decoder that knows it. *)
Definition true_row : string :=
  "{" +:+ String quote "snapshot_id" +:+ String quote ": true}" +:+ NL.

Definition json_loads_with_true (text : string) : result value :=
  if String.eqb text true_row then Ok (VDict {[ "snapshot_id" := VBool true ]})
  else json_loads text.

(** Three pages: the second does not advance the cursor, the third has no
    rows. *)
Definition stalled_pages : list string := [snapshot 5; snapshot 3; EmptyString].

End Sample.

(** ** Vocabulary of the statements about the builder *)

Module BuildSpec.
Import Exporter Build.

(** The claim on the page size as the specification words it, for a
    capability document whose [maxLimit] is the integer [max_limit]: the two
    exports are called with [min(requested, max_limit)]. *)
Definition page_size_claim (int_of_str : string -> result Z) (args : cli)
    (doc : gmap string value) (max_limit : Z) : Prop :=
  doc !! "maxLimit" = Some (VInt max_limit) ->
  forall snap chg,
    plan int_of_str args (VDict doc) = Ok (snap, chg) ->
    limit snap = Z.min (arg_limit args) max_limit
    /\ limit chg = Z.min (arg_limit args) max_limit.

End BuildSpec.

Module BuildSample.
Import Build.

Definition args : cli :=
  {| arg_api_base := "https://api.healtharchive.ca/"; arg_out_dir := "dist";
     arg_tag := "healtharchive-dataset-2026-01-01"; arg_timeout_seconds := 60;
     arg_limit := 10000 |}.

(** [int(s)] on plain decimal digits *)
Definition int_of_str (s : string) : result Z :=
  match s with
  | EmptyString => Raise (ValueError "invalid literal for int() with base 10")
  | _ =>
      match Sample.digits s 0 with
      | Some z => Ok z
      | None => Raise (ValueError "invalid literal for int() with base 10")
      end
  end.

(** A capability document that enables exports and sets [maxLimit]. *)
Definition capability (max_limit : Z) : gmap string value :=
  {[ "enabled" := VBool true; "maxLimit" := VInt max_limit ]}.

End BuildSample.

(** ** Vocabulary of the statements about the validator *)

Module ValidateSpec.
Import Validate.

Section Artifact.

Variable meta : gmap string value.
Variable name_ : string.

(** Presence and typing of the fields of an artifact object, and the values
    they give.  Typing is Python's: an [int] field also takes a [bool], and
    [minId] and [maxId] may be absent or [null]. *)
Definition text_field (k s : string) : Prop :=
  exists raw, meta !! k = Some (VStr raw) /\ strip str_isspace raw = s /\ s <> EmptyString.

Definition int_field (k : string) (i : pyint) : Prop :=
  (exists z, meta !! k = Some (VInt z) /\ i = Int z)
  \/ (exists b, meta !! k = Some (VBool b) /\ i = Bool b).

Definition opt_int_field (k : string) (o : option pyint) : Prop :=
  match o with
  | None => meta !! k = None \/ meta !! k = Some VNone
  | Some i => int_field k i
  end.

Definition bool_field (k : string) (b : bool) : Prop := meta !! k = Some (VBool b).

Definition well_typed (art : Artifact) : Prop :=
  name art = name_
  /\ text_field "filename" (filename art)
  /\ text_field "sha256" (sha256 art)
  /\ int_field "rows" (rows art)
  /\ opt_int_field "minId" (min_id art)
  /\ opt_int_field "maxId" (max_id art)
  /\ int_field "requestsMade" (requests_made art)
  /\ int_field "limitPerRequest" (limit_per_request art)
  /\ bool_field "truncated" (truncated art).

(** What a member of the artifact object must hold. *)
Inductive kind := Text | Integer | OptionalInteger | Boolean.

(** The member [fst f] is there and holds what the kind [snd f] asks for. *)
Definition field_ok (f : string * kind) : Prop :=
  match snd f with
  | Text => exists s, text_field (fst f) s
  | Integer => exists i, int_field (fst f) i
  | OptionalInteger => exists o, opt_int_field (fst f) o
  | Boolean => exists b, bool_field (fst f) b
  end.

(** The message on a member that is not as asked: a member that must be
    there and is not is reported by its key, a member of the wrong type by
    its path [artifacts.<name>.<key>]. *)
Definition fault_message (f : string * kind) : string :=
  match snd f, meta !! fst f with
  | OptionalInteger, _ =>
      "artifacts." +:+ name_ +:+ "." +:+ fst f +:+ " must be an integer or null"
  | _, None => "manifest missing required field: " +:+ fst f
  | Text, Some _ => "artifacts." +:+ name_ +:+ "." +:+ fst f +:+ " must be a non-empty string"
  | Integer, Some _ => "artifacts." +:+ name_ +:+ "." +:+ fst f +:+ " must be an integer"
  | Boolean, Some _ => "artifacts." +:+ name_ +:+ "." +:+ fst f +:+ " must be a boolean"
  end.

(** The reader of its kind returns on the member, or raises [e]. *)
Definition read_ok (f : string * kind) : Prop :=
  match snd f with
  | Text => exists s, req_str meta name_ (fst f) = Ok s
  | Integer => exists i, req_int meta name_ (fst f) = Ok i
  | OptionalInteger => exists o, opt_int meta name_ (fst f) = Ok o
  | Boolean => exists b, req_bool meta name_ (fst f) = Ok b
  end.

Definition read_fault (f : string * kind) (e : exn) : Prop :=
  match snd f with
  | Text => req_str meta name_ (fst f) = Raise e
  | Integer => req_int meta name_ (fst f) = Raise e
  | OptionalInteger => opt_int meta name_ (fst f) = Raise e
  | Boolean => req_bool meta name_ (fst f) = Raise e
  end.

End Artifact.

(** The members of an artifact object, in the order in which they are
    read. *)
Definition schema : list (string * kind) :=
  [("filename", Text); ("sha256", Text); ("rows", Integer); ("minId", OptionalInteger);
   ("maxId", OptionalInteger); ("requestsMade", Integer); ("limitPerRequest", Integer);
   ("truncated", Boolean)].

(** The invariants of an artifact. *)
Definition invariants (art : Artifact) : Prop :=
  0 <= int_val (rows art)
  /\ (int_val (rows art) = 0 -> min_id art = None /\ max_id art = None)
  /\ (0 < int_val (rows art) ->
      exists lo hi,
        min_id art = Some lo /\ max_id art = Some hi
        /\ int_val lo <= int_val hi
        /\ 1 <= int_val (requests_made art))
  /\ 0 < int_val (limit_per_request art)
  /\ 0 < int_val (requests_made art).

(** The artifact object violates none of the requirements. *)
Definition valid_artifact (meta : gmap string value) (name_ : string) : Prop :=
  exists art, well_typed meta name_ art /\ invariants art.

(** The ids agree with the number of rows: none for no row, and for rows a
    first id not above the last one and a request made. *)
Definition ids_in_order (art : Artifact) : Prop :=
  (int_val (rows art) = 0 /\ min_id art = None /\ max_id art = None)
  \/ (0 < int_val (rows art)
      /\ exists lo hi,
           min_id art = Some lo /\ max_id art = Some hi
           /\ int_val lo <= int_val hi
           /\ 1 <= int_val (requests_made art)).

(** The invariant that the values of an artifact break first, in the order
    of the checks, with the message on it. *)
Inductive broken (name_ : string) (art : Artifact) : string -> Prop :=
| rows_negative :
    int_val (rows art) < 0 ->
    broken name_ art ("artifacts." +:+ name_ +:+ ".rows must be >= 0")
| ids_on_empty :
    int_val (rows art) = 0 ->
    min_id art <> None \/ max_id art <> None ->
    broken name_ art
      ("artifacts." +:+ name_ +:+ " has rows=0 but minId/maxId are not null (minId="
       +:+ str_opt_int (min_id art) +:+ ", maxId=" +:+ str_opt_int (max_id art) +:+ ")")
| ids_missing :
    0 < int_val (rows art) ->
    min_id art = None \/ max_id art = None ->
    broken name_ art ("artifacts." +:+ name_ +:+ " has rows>0 but minId/maxId are null")
| ids_reversed lo hi :
    0 < int_val (rows art) ->
    min_id art = Some lo -> max_id art = Some hi ->
    int_val hi < int_val lo ->
    broken name_ art ("artifacts." +:+ name_ +:+ ".minId must be <= maxId")
| rows_without_request lo hi :
    0 < int_val (rows art) ->
    min_id art = Some lo -> max_id art = Some hi ->
    int_val lo <= int_val hi ->
    int_val (requests_made art) < 1 ->
    broken name_ art ("artifacts." +:+ name_ +:+ ".requestsMade must be >= 1 when rows>0")
| limit_not_positive :
    ids_in_order art ->
    int_val (limit_per_request art) <= 0 ->
    broken name_ art ("artifacts." +:+ name_ +:+ ".limitPerRequest must be > 0")
| requests_not_positive :
    ids_in_order art ->
    0 < int_val (limit_per_request art) ->
    int_val (requests_made art) <= 0 ->
    broken name_ art ("artifacts." +:+ name_ +:+ ".requestsMade must be > 0").

(** The claim on the parser as the specification words it, typing being that
    of JSON: an integer member holds a JSON integer.  The parser raises
    exactly when the object violates a requirement. *)
Definition plain (art : Artifact) : Prop :=
  (exists z, rows art = Int z)
  /\ (forall i, min_id art = Some i -> exists z, i = Int z)
  /\ (forall i, max_id art = Some i -> exists z, i = Int z)
  /\ (exists z, requests_made art = Int z)
  /\ (exists z, limit_per_request art = Int z).

Definition strictly_valid (meta : gmap string value) (name_ : string) : Prop :=
  exists art, well_typed meta name_ art /\ invariants art /\ plain art.

Definition schema_claim (meta : gmap string value) (name_ : string) : Prop :=
  (exists e, _parse_artifact meta name_ = Raise e) <-> ~ strictly_valid meta name_.

(** [s] starts with [p]. *)
Definition starts_with (p s : string) : Prop := exists after, s = p +:+ after.

(** Two dicts that are the same except for the value of the key [f], at its
    first entry. *)
Inductive agree_except (f : string) : list (string * string) -> list (string * string) -> Prop :=
| agree_same d : agree_except f d d
| agree_here v v' d : agree_except f ((f, v) :: d) ((f, v') :: d)
| agree_later k v d d' :
    k <> f -> agree_except f d d' -> agree_except f ((k, v) :: d) ((k, v) :: d').

(** No entry of the line is for the file [f]. *)
Definition silent_on (repr : string -> string) (f raw : string) : Prop :=
  forall d, parse_line repr raw <> Ok (Some (f, d)).

End ValidateSpec.

Module ValidateSample.
Import Validate.

(** A stand-in for the digest: the length of the content, in decimal. *)
Definition digest (content : string) : string :=
  "len" +:+ str_Z (Z.of_nat (String.length content)).

Definition repr (s : string) : string := "'" +:+ s +:+ "'".

Definition gunzip (content : string) : result string := Ok content.

Definition path_str (dir name_ : string) : string := dir +:+ "/" +:+ name_.

Definition artifact_doc (file : string) (content : string) (n lo hi : Z) (cut : bool)
    : gmap string value :=
  {[ "filename" := VStr file; "sha256" := VStr (digest content); "rows" := VInt n;
     "minId" := VInt lo; "maxId" := VInt hi; "requestsMade" := VInt 2;
     "limitPerRequest" := VInt 10000; "truncated" := VBool cut ]}.

(** The same object with the JSON [true] as [requestsMade]. *)
Definition boolean_doc : gmap string value :=
  {[ "filename" := VStr "healtharchive-snapshots.jsonl.gz"; "sha256" := VStr "len9";
     "rows" := VInt 3; "minId" := VInt 101; "maxId" := VInt 103;
     "requestsMade" := VBool true; "limitPerRequest" := VInt 10000;
     "truncated" := VBool false ]}.

Definition snapshots_content : string := "snapshots".
Definition changes_content : string := "changes!".

(** A manifest whose snapshots artifact is marked truncated. *)
Definition manifest_doc : gmap string value :=
  {[ "version" := VInt 1;
     "tag" := VStr "healtharchive-dataset-2026-01-01";
     "releasedAtUtc" := VStr "2026-01-01T00:00:00+00:00";
     "apiBase" := VStr "https://api.healtharchive.ca";
     "exportsManifest" := VDict {[ "enabled" := VBool true ]};
     "artifacts" :=
       VDict {[ "snapshots" :=
                  VDict (artifact_doc "healtharchive-snapshots.jsonl.gz"
                           snapshots_content 3 101 103 true);
                "changes" :=
                  VDict (artifact_doc "healtharchive-changes.jsonl.gz"
                           changes_content 2 55 56 false) ]} ]}.

Definition manifest_text : string := "manifest".

Definition json_loads (text : string) : result value :=
  if String.eqb text manifest_text then Ok (VDict manifest_doc)
  else Raise (OtherError "JSONDecodeError" "Expecting value").

Definition sums_line (sha file : string) : string := sha +:+ "  " +:+ file +:+ NL.

(** A listing whose first line gives a digest that is not that of the
    snapshots file, and whose last line gives the right one. *)
Definition sums_text : string :=
  sums_line "len0" "healtharchive-snapshots.jsonl.gz"
  +:+ sums_line (digest changes_content) "healtharchive-changes.jsonl.gz"
  +:+ sums_line (digest manifest_text) "manifest.json"
  +:+ sums_line (digest snapshots_content) "healtharchive-snapshots.jsonl.gz".

(** The same listing with the right digest on the first line too. *)
Definition sums_text' : string :=
  sums_line (digest snapshots_content) "healtharchive-snapshots.jsonl.gz"
  +:+ sums_line (digest changes_content) "healtharchive-changes.jsonl.gz"
  +:+ sums_line (digest manifest_text) "manifest.json"
  +:+ sums_line (digest snapshots_content) "healtharchive-snapshots.jsonl.gz".

Definition bundle_files : gmap string string :=
  {[ "manifest.json" := manifest_text;
     "SHA256SUMS" := sums_text;
     "healtharchive-snapshots.jsonl.gz" := snapshots_content;
     "healtharchive-changes.jsonl.gz" := changes_content ]}.

(** The two artifacts of [manifest_doc]. *)
Definition snapshots_artifact : Artifact :=
  {| name := "snapshots"; filename := "healtharchive-snapshots.jsonl.gz";
     sha256 := digest snapshots_content; rows := Int 3; min_id := Some (Int 101);
     max_id := Some (Int 103); requests_made := Int 2; limit_per_request := Int 10000;
     truncated := true |}.

Definition changes_artifact : Artifact :=
  {| name := "changes"; filename := "healtharchive-changes.jsonl.gz";
     sha256 := digest changes_content; rows := Int 2; min_id := Some (Int 55);
     max_id := Some (Int 56); requests_made := Int 2; limit_per_request := Int 10000;
     truncated := false |}.

Definition smoke_test : cli :=
  {| bundle_dir := "dist"; allow_empty := false; allow_truncated := true |}.

End ValidateSample.

(** ** What the builder writes, as the validator reads it *)

Module Manifest.
Import Exporter Build.

(** An [int | None] as [json.loads] gives it back. *)
Definition opt_int_value (o : option pyint) : value :=
  match o with
  | None => VNone
  | Some (Int z) => VInt z
  | Some (Bool b) => VBool b
  end.

(** The dict the exporter returns, lines 141-150 of [build_release.py]. *)
Definition meta_dict (m : export_meta) : gmap string value :=
  {[ "path" := VStr (m_path m);
     "idField" := VStr (m_idField m);
     "rows" := VInt (m_rows m);
     "minId" := opt_int_value (m_minId m);
     "maxId" := opt_int_value (m_maxId m);
     "limitPerRequest" := VInt (m_limitPerRequest m);
     "requestsMade" := VInt (m_requestsMade m);
     "filename" := VStr (m_filename m) ]}.

(** [{**meta, "sha256": sha}], lines 212-213. *)
Definition artifact_dict (e : artifact_entry) : gmap string value :=
  <["sha256" := VStr (e_sha256 e)]> (meta_dict (e_meta e)).

Definition notes_dict : gmap string value :=
  {[ "metadataOnly" := VBool true;
     "noRawHtml" := VBool true;
     "noDiffBodies" := VBool true;
     "notMedicalAdvice" := VBool true;
     "notCurrentGuidance" := VBool true ]}.

(** The manifest dict, lines 204-222. *)
Definition manifest_dict (mf : manifest) : gmap string value :=
  {[ "version" := VInt (mf_version mf);
     "tag" := VStr (mf_tag mf);
     "releasedAtUtc" := VStr (mf_releasedAtUtc mf);
     "apiBase" := VStr (mf_apiBase mf);
     "sourceProjectUrl" := VStr "https://healtharchive.ca";
     "exportsManifest" := mf_exportsManifest mf;
     "artifacts" :=
       VDict {[ "snapshots" := VDict (artifact_dict (mf_snapshots mf));
                "changes" := VDict (artifact_dict (mf_changes mf)) ]};
     "notes" := VDict notes_dict ]}.

(** The text of [SHA256SUMS], lines 229-239: the join of the three lines and
    of the empty string with line feeds. *)
Definition sums_listing (snapshots_sha changes_sha manifest_sha : string) : string :=
  snapshots_sha +:+ "  " +:+ snapshots_name +:+ NL
  +:+ changes_sha +:+ "  " +:+ changes_name +:+ NL
  +:+ manifest_sha +:+ "  manifest.json" +:+ NL.

End Manifest.

Module ManifestSample.
Import Exporter Build Manifest.

(** The manifest of a build that exported three snapshots and no change. *)
Definition built : manifest :=
  {| mf_version := 1;
     mf_tag := "healtharchive-dataset-2026-01-01";
     mf_releasedAtUtc := "2026-01-01T00:00:00+00:00";
     mf_apiBase := "https://api.healtharchive.ca";
     mf_exportsManifest := VDict {[ "enabled" := VBool true; "maxLimit" := VInt 10000 ]};
     mf_snapshots :=
       {| e_meta := Sample.snapshots_meta 3 (Some (Int 101)) (Some (Int 103)) 2;
          e_sha256 := "len9" |};
     mf_changes :=
       {| e_meta :=
            {| m_path := "/api/exports/changes"; m_idField := "change_id"; m_rows := 0;
               m_minId := None; m_maxId := None; m_limitPerRequest := 10000;
               m_requestsMade := 1; m_filename := changes_name |};
          e_sha256 := "len0" |} |}.

(** [json.loads] on the text of that manifest, taken as one word. *)
Definition json_loads (text : string) : result value :=
  if String.eqb text "built" then Ok (VDict (manifest_dict built))
  else Raise (OtherError "JSONDecodeError" "Expecting value").

Definition files : gmap string string :=
  {[ "manifest.json" := "built";
     "SHA256SUMS" := sums_listing "len9" "len0" "len5";
     snapshots_name := "snapshots";
     changes_name := EmptyString ]}.

End ManifestSample.

(** ** [_sha256_file], read by chunks *)

Module HashFile.

(** [f.read(n)] on what is left of the file: the bytes read and what is left
    after them. *)
Fixpoint read (n : N) (s : string) : string * string :=
  match s with
  | EmptyString => (EmptyString, EmptyString)
  | String c r =>
      if (n =? 0)%N then (EmptyString, s)
      else let '(chunk, rest) := read (N.pred n) r in (String c chunk, rest)
  end.

(** [iter(lambda: f.read(n), sentinel)] with the empty bytes as sentinel: the chunks read up to the first empty one.
    [fuel] bounds the number of reads. *)
Fixpoint chunks (fuel : nat) (n : N) (s : string) : list string :=
  match fuel with
  | O => []
  | S fuel' =>
      let '(chunk, rest) := read n s in
      if is_empty chunk then [] else chunk :: chunks fuel' n rest
  end.

Definition chunk_size : N := 1024 * 1024.

Section Hash.

(** [hashlib.sha256()]: the state, [h.update(chunk)] and [h.hexdigest()]. *)
Variable H : Type.
Variable new : H.
Variable update : H -> string -> H.
Variable hexdigest : H -> string.

(** [_sha256_file] on the content of the file: one read more than the file
    has bytes is enough to meet the empty chunk. *)
Definition _sha256_file (content : string) : string :=
  hexdigest (fold_left update (chunks (S (String.length content)) chunk_size content) new).

End Hash.

End HashFile.

(** ** Vocabulary of the further statements *)

Module ExtraSpec.
Import Http Exporter Validate.

(** The seconds slept in a trace. *)
Fixpoint total_sleep (evs : list event) : Q :=
  match evs with
  | [] => 0
  | Urlopen _ :: evs' => total_sleep evs'
  | Sleep q :: evs' => q + total_sleep evs'
  end.

(** Cursors that climb: each is above the one before it. *)
Fixpoint climbing (prev : option pyint) (cursors : list pyint) : Prop :=
  match cursors with
  | [] => True
  | c :: cursors' =>
      (forall p, prev = Some p -> int_val p < int_val c) /\ climbing (Some c) cursors'
  end.

(** Every character of the string passes the test. *)
Fixpoint all_chars (p : ascii -> bool) (s : string) : bool :=
  match s with
  | EmptyString => true
  | String c r => p c && all_chars p r
  end.

(** A token: not empty, and without white space (as a hex digest or a file
    name without spaces is). *)
Definition token (t : string) : Prop :=
  t <> EmptyString /\ all_chars (fun c => negb (str_isspace c)) t = true.

(** The string is empty or starts with white space: a word that stands
    before it ends there. *)
Definition boundary (s : string) : Prop :=
  match s with
  | EmptyString => True
  | String c _ => str_isspace c = true
  end.

(** The words of a line, in order: its maximal runs of characters that are
    not white space. *)
Inductive words : string -> list string -> Prop :=
| words_end : words EmptyString []
| words_space c s ws :
    str_isspace c = true -> words s ws -> words (String c s) ws
| words_word t s ws :
    token t -> boundary s -> words s ws -> words (t +:+ s) (t :: ws).

(** What the lines of a listing say, in order, when none of them has one word
    only: a line without any word says nothing, and a line of two words or
    more gives its first word as the digest of the file named by its last
    word. *)
Inductive lists : list string -> list (string * string) -> Prop :=
| lists_end : lists [] []
| lists_blank raw lines entries :
    words raw [] -> lists lines entries -> lists (raw :: lines) entries
| lists_entry raw lines sha between file entries :
    words raw (sha :: between ++ [file]) ->
    lists lines entries ->
    lists (raw :: lines) ((file, sha) :: entries).

(** The digest on the last entry for the file [f]. *)
Definition final_digest (f : string) (entries : list (string * string)) : option string :=
  dict_get f (rev entries).

(** The file exists and has the digest [sha]. *)
Definition has_digest (sha256_hex : string -> string) (fs : gmap string string)
    (f sha : string) : Prop :=
  exists content, fs !! f = Some content /\ sha256_hex content = sha.

(** The dict after the entries were written to it in order. *)
Definition recorded (entries : list (string * string)) (acc : list (string * string))
    : list (string * string) :=
  fold_left (fun d e => dict_set (fst e) (snd e) d) entries acc.

(** The file of an artifact is there, has the digest of the manifest and,
    when its name ends with [.gz], decompresses to its end. *)
Definition intact (sha256_hex : string -> string) (gunzip : string -> result string)
    (fs : gmap string string) (art : Artifact) : Prop :=
  exists content,
    fs !! filename art = Some content
    /\ sha256_hex content = sha256 art
    /\ (Text.endswith ".gz" (filename art) = true -> exists bytes, gunzip content = Ok bytes).

(** The two artifacts may be published under the flags given. *)
Definition publishable (args : Validate.cli) (s c : Artifact) : Prop :=
  (truncated s = true \/ truncated c = true -> allow_truncated args = true)
  /\ (int_val (Validate.rows s) = 0 \/ int_val (Validate.rows c) = 0 -> allow_empty args = true).

(** The command line with another [--api-base]. *)
Definition with_api_base (args : Build.cli) (base : string) : Build.cli :=
  {| Build.arg_api_base := base;
     Build.arg_out_dir := Build.arg_out_dir args;
     Build.arg_tag := Build.arg_tag args;
     Build.arg_timeout_seconds := Build.arg_timeout_seconds args;
     Build.arg_limit := Build.arg_limit args |}.

(** The page cursor a page leaves: the last usable id of its rows. *)
Definition page_cursor (json_loads : string -> result value) (a : export_args)
    (body : string) : option pyint :=
  last (ExporterSpec.usable_ids json_loads a (ExporterSpec.rows_of_page body)).

(** The member [k] of the manifest is a string that is not blank. *)
Definition text_member (manifest : gmap string value) (k : string) : Prop :=
  exists s, manifest !! k = Some (VStr s) /\ strip str_isspace s <> EmptyString.

(** The manifest the validator accepts, with the two artifacts it reads in
    it: both files of the bundle are there, [manifest.json] decodes to the
    object [manifest], whose [version] is a positive [int], whose [tag],
    [releasedAtUtc] and [apiBase] are strings that are not blank, whose
    [exportsManifest] is an object with a member [enabled], and whose
    [artifacts] is an object with the objects [snapshots] and [changes], each
    of which parses as an artifact. *)
Definition accepted_manifest (json_loads : string -> result value) (fs : gmap string string)
    (manifest : gmap string value) (s c : Artifact) : Prop :=
  exists text sums raw_version version em enabled artifacts sd cd,
    fs !! "manifest.json" = Some text
    /\ fs !! "SHA256SUMS" = Some sums
    /\ json_loads text = Ok (VDict manifest)
    /\ manifest !! "version" = Some raw_version
    /\ isinstance_int raw_version = Some version
    /\ 0 < int_val version
    /\ text_member manifest "tag"
    /\ text_member manifest "releasedAtUtc"
    /\ text_member manifest "apiBase"
    /\ manifest !! "exportsManifest" = Some (VDict em)
    /\ em !! "enabled" = Some enabled
    /\ manifest !! "artifacts" = Some (VDict artifacts)
    /\ artifacts !! "snapshots" = Some (VDict sd)
    /\ artifacts !! "changes" = Some (VDict cd)
    /\ _parse_artifact sd "snapshots" = Ok s
    /\ _parse_artifact cd "changes" = Ok c.

End ExtraSpec.

(** * Theorems *)

(** ** Strings *)

Module StringFacts.

Lemma append_cons (c : ascii) (s1 s2 : string) : String c s1 +:+ s2 = String c (s1 +:+ s2).
Proof. reflexivity. Qed.

Lemma append_assoc (s1 s2 s3 : string) : (s1 +:+ s2) +:+ s3 = s1 +:+ (s2 +:+ s3).
Proof.
  induction s1 as [|c s1 IH]; [reflexivity|].
  now rewrite !append_cons, IH.
Qed.

Lemma append_empty_r (s : string) : s +:+ EmptyString = s.
Proof.
  induction s as [|c s IH]; [reflexivity|].
  now rewrite append_cons, IH.
Qed.

Lemma is_empty_false (s : string) : is_empty s = false <-> s <> EmptyString.
Proof. destruct s; cbn; split; congruence. Qed.

End StringFacts.

(** ** The library functions on a few inputs *)

Module Checks.
Import Http Exporter.

Example str_of_negative : str_Z (-15) = "-15" /\ str_Z 0 = "0".
Proof. split; reflexivity. Qed.

Example split_on_runs : split "  ab  cd e " = ["ab"; "cd"; "e"].
Proof. reflexivity. Qed.

Example strip_separators :
  strip str_isspace (" " +:+ String "028"%char "ab" +:+ String "009"%char EmptyString) = "ab"
  /\ strip bytes_isspace (" " +:+ String "028"%char "ab" +:+ String "009"%char EmptyString)
     = String "028"%char "ab".
Proof. split; reflexivity. Qed.

Example splitlines_crlf :
  splitlines ("a" +:+ String "013"%char NL +:+ "b" +:+ NL +:+ NL +:+ "c" +:+ NL)
  = ["a"; "b"; ""; "c"].
Proof. reflexivity. Qed.

Example readlines_keeps_ends :
  readlines ("ab" +:+ NL +:+ NL +:+ "c") = ["ab" +:+ NL; NL; "c"].
Proof. reflexivity. Qed.

Example endswith_suffix : endswith ".gz" "x.gz" = true /\ endswith ".gz" "gz" = false.
Proof. split; reflexivity. Qed.

Example page_url_with_cursor :
  page_url Sample.snapshots_args (Some (Int (-4)))
  = "https://api.healtharchive.ca/api/exports/snapshots?format=jsonl&compressed=false&limit=10000&afterId=-4".
Proof. reflexivity. Qed.

(** Two refused connections, then a response: three attempts, sleeps of 1 and
    1.5 seconds between them. *)
Example retry_after_two_failures :
  _http_ndjson_stream "u" default_retries
    (ideal (fun k => if (k <? 2)%nat then UrlopenRaises (OtherError "URLError" "refused")
                     else HttpResponse 200 "body"))
  = (Ok "body", [Urlopen 0; Sleep 1; Urlopen 1; Sleep (3 # 2); Urlopen 2]).
Proof. reflexivity. Qed.

(** Five failures with the default of four retries: five attempts, four
    sleeps, and the error holds the URL and the last exception. *)
Example retry_exhausted :
  _http_json Sample.json_loads "u" default_retries
    (ideal (fun k => HttpResponse (500 + Z.of_nat k) EmptyString))
  = (Raise (RuntimeError "Failed to fetch JSON from u: GET u failed with HTTP 504"),
     [Urlopen 0; Sleep 1; Urlopen 1; Sleep (3 # 2); Urlopen 2;
      Sleep (9 # 4); Urlopen 3; Sleep (27 # 8); Urlopen 4]).
Proof. reflexivity. Qed.

(** A URL that [Request] refuses: its error leaves the function, and no
    attempt is made. *)
Example request_refused :
  _http_json Sample.json_loads "api.healtharchive.ca" default_retries HttpSample.unbuildable
  = (Raise (ValueError "unknown url type: 'api.healtharchive.ca'"), []).
Proof. reflexivity. Qed.

End Checks.

(** ** The retry client *)

Module HttpFacts.
Import Http HttpSpec.

Lemma sleep_backoff_ok (w : world) (k : nat) (q : Q) :
  sleep_backoff w k = Ok q <-> float_pow w (3 # 2) k = Ok q /\ time_sleep w q = Ok tt.
Proof.
  unfold sleep_backoff. destruct (float_pow w (3 # 2) k) as [s|e]; cbn [bind].
  - destruct (time_sleep w s) as [[]|e] eqn:E; cbn [bind].
    + split; [intros [= <-]; now split | intros [[= <-] _]; reflexivity].
    + split; [discriminate | intros [[= <-] H]; congruence].
  - split; [discriminate | intros [H _]; discriminate].
Qed.

Lemma slept_count (w : world) (m : nat) :
  forall k evs, slept w k m evs -> count_urlopen evs = m.
Proof.
  induction m as [|m IH]; intros k evs H.
  - cbn in H. now subst.
  - destruct m as [|m'].
    + cbn in H. now subst.
    + cbn [slept] in H. destruct H as (q & rest & -> & _ & H).
      apply IH in H. unfold count_urlopen in *. cbn [List.filter length]. now rewrite H.
Qed.

Lemma slept_sleeps (w : world) (m : nat) :
  forall k evs, slept w k m evs ->
    forall j, (k <= j)%nat -> (j + 1 < k + m)%nat -> exists q, sleep_backoff w j = Ok q.
Proof.
  induction m as [|m IH]; intros k evs H j Hk Hj; [lia|].
  destruct m as [|m']; [lia|].
  cbn [slept] in H. destruct H as (q & rest & _ & Hq & H).
  destruct (Nat.eq_dec j k) as [->|Hne]; [now exists q|].
  apply (IH (S k) rest H); lia.
Qed.

(** The sleeps of a run are those of the policy as far as the clock is
    exact. *)
Lemma slept_policy (w : world) (n m : nat) :
  exact_clock w n ->
  forall k evs, (k + m <= S n)%nat -> slept w k m evs -> follows_policy k m evs.
Proof.
  intros Hclock. induction m as [|m IH]; intros k evs Hn H; [exact H|].
  destruct m as [|m']; [exact H|].
  cbn [slept] in H. destruct H as (q & rest & -> & Hq & H).
  cbn [follows_policy]. exists q, rest. split; [reflexivity|]. split.
  - apply sleep_backoff_ok in Hq as [Hq _].
    destruct (Hclock k ltac:(lia)) as (q' & Hq' & Heq & _). congruence.
  - apply IH; [lia | exact H].
Qed.

Lemma follows_policy_count (m : nat) :
  forall k evs, follows_policy k m evs -> count_urlopen evs = m.
Proof.
  induction m as [|m IH]; intros k evs H.
  - cbn in H. now subst.
  - destruct m as [|m'].
    + cbn in H. now subst.
    + cbn [follows_policy] in H. destruct H as (q & rest & -> & _ & H).
      apply IH in H. unfold count_urlopen in *. cbn [List.filter length]. now rewrite H.
Qed.

(** The sleep after attempt [k + i] stands at place [2 i + 1] of the events. *)
Lemma follows_policy_nth (m : nat) :
  forall k evs i q,
    follows_policy k m evs ->
    nth_error evs (2 * i + 1) = Some (Sleep q) ->
    Qeq q (pause (k + i)).
Proof.
  induction m as [|m IH]; intros k evs i q H Hn.
  - cbn in H. subst. now destruct i.
  - destruct m as [|m'].
    + cbn in H. subst. destruct i as [|i]; [discriminate|]. now destruct i.
    + cbn [follows_policy] in H. destruct H as (q' & rest & -> & Hq & H).
      destruct i as [|i].
      * cbn in Hn. injection Hn as <-. now rewrite Nat.add_0_r.
      * replace (2 * S i + 1)%nat with (S (S (2 * i + 1))) in Hn by lia.
        cbn [nth_error] in Hn.
        replace (k + S i)%nat with (S k + i)%nat by lia.
        now apply (IH (S k) rest i q).
Qed.

(** The loop, started at [attempt] with [todo] iterations of the [range] left:
    [todo] is 0 (the range is empty) or the range ends at [retries]. *)
Lemma retry_loop_run {A} (w : world) (body : nat -> result A) (R : Z) :
  forall todo attempt last_exc,
    (todo = O \/ Z.of_nat attempt + Z.of_nat todo = R + 1) ->
    exists m : nat,
      slept w attempt m (snd (retry_loop w body R todo attempt last_exc))
      /\ (m <= todo)%nat
      /\ (forall k, (attempt <= k)%nat -> (k + 1 < attempt + m)%nat -> fails body k)
      /\ match fst (retry_loop w body R todo attempt last_exc) with
         | Return v => exists j, m = S j /\ body (attempt + j)%nat = Ok v
         | Exhausted le =>
             m = todo
             /\ match m with
                | O => le = last_exc
                | S j => exists e, body (attempt + j)%nat = Raise e /\ le = Some e
                end
         | Escaped e =>
             exists j,
               m = S j
               /\ fails body (attempt + j)%nat
               /\ Z.of_nat (attempt + j) < R
               /\ sleep_backoff w (attempt + j)%nat = Raise e
         end.
Proof.
  induction todo as [|todo IH]; intros attempt last_exc Hinv.
  - exists O. cbn. repeat split; auto. intros; lia.
  - cbn [retry_loop]. destruct (body attempt) as [v|exc] eqn:Hb.
    + exists 1%nat. cbn. repeat split; [lia | intros; lia |].
      exists O. split; [reflexivity|]. now rewrite Nat.add_0_r.
    + destruct (Z.of_nat attempt >=? R) eqn:Hge.
      * assert (todo = O) as -> by (destruct Hinv as [?|?]; [discriminate|lia]).
        exists 1%nat. cbn. repeat split; [lia | intros; lia |].
        exists exc. now rewrite Nat.add_0_r.
      * assert (todo <> O) as Hpos by (destruct Hinv as [?|?]; [discriminate|lia]).
        destruct (sleep_backoff w attempt) as [secs|e] eqn:Hsl.
        2:{ exists 1%nat. cbn. repeat split; [lia | intros; lia |].
            exists O. split; [reflexivity|]. rewrite Nat.add_0_r.
            split; [now exists exc|]. split; [lia | exact Hsl]. }
        destruct (IH (S attempt) (Some exc)) as (m & Hs & Hm & Hf & Hr).
        { right. destruct Hinv as [?|?]; [discriminate|lia]. }
        destruct (retry_loop w body R todo (S attempt) (Some exc)) as [r evs] eqn:Hl.
        cbn [fst snd] in *.
        destruct m as [|m'].
        { exfalso. destruct r as [v|le|e].
          - destruct Hr as (j & Hj & _). discriminate.
          - destruct Hr as [Hr _]. congruence.
          - destruct Hr as (j & Hj & _). discriminate. }
        exists (S (S m')). cbn [fst snd]. split.
        { cbn [slept]. exists secs, evs. split; [reflexivity|]. split; [exact Hsl | exact Hs]. }
        split; [lia|]. split.
        { intros k Hk1 Hk2. destruct (Nat.eq_dec k attempt) as [->|Hne].
          - now exists exc.
          - apply Hf; lia. }
        destruct r as [v|le|e].
        { destruct Hr as (j & Hj & Hbj). exists (S j). split; [congruence|].
          now replace (attempt + S j)%nat with (S attempt + j)%nat by lia. }
        { destruct Hr as [Hr1 (e & He & Hle)]. split; [congruence|].
          exists e. split; [|assumption].
          now replace (attempt + S m')%nat with (S attempt + m')%nat by lia. }
        { destruct Hr as (j & Hj & Hfj & Hlt & Hsj). exists (S j). split; [congruence|].
          replace (attempt + S j)%nat with (S attempt + j)%nat by lia.
          split; [exact Hfj|]. split; [exact Hlt | exact Hsj]. }
Qed.

Lemma json_body_raise (json_loads : string -> result value) (url : string)
    (r : response) (e : exn) :
  json_body json_loads url r = Raise e <-> json_failure json_loads url r e.
Proof.
  unfold json_body. split.
  - destruct r as [e'|status payload].
    + intros [= ->]. constructor.
    + destruct (status =? 200) eqn:Hs.
      * apply Z.eqb_eq in Hs. subst. intros H. now constructor.
      * apply Z.eqb_neq in Hs. intros [= <-]. now constructor.
  - intros H. destruct H as [e|status payload Hs|payload e He].
    + reflexivity.
    + apply Z.eqb_neq in Hs. now rewrite Hs.
    + exact He.
Qed.

Lemma json_body_ok (json_loads : string -> result value) (url : string)
    (r : response) (v : value) :
  json_body json_loads url r = Ok v <-> json_success json_loads r v.
Proof.
  unfold json_body, json_success. split.
  - destruct r as [e'|status payload]; [discriminate|].
    destruct (status =? 200) eqn:Hs; [|discriminate].
    apply Z.eqb_eq in Hs. subst. intros H. now exists payload.
  - intros (payload & -> & H). exact H.
Qed.

Lemma stream_body_raise (url : string) (r : response) (e : exn) :
  stream_body url r = Raise e <-> stream_failure url r e.
Proof.
  unfold stream_body. split.
  - destruct r as [e'|status body].
    + intros [= ->]. constructor.
    + destruct (status =? 200) eqn:Hs; [discriminate|].
      apply Z.eqb_neq in Hs. intros [= <-]. now constructor.
  - intros H. destruct H as [e|status body Hs].
    + reflexivity.
    + apply Z.eqb_neq in Hs. now rewrite Hs.
Qed.

Lemma stream_body_ok (url : string) (r : response) (body : string) :
  stream_body url r = Ok body <-> stream_success r body.
Proof.
  unfold stream_body, stream_success. split.
  - destruct r as [e'|status b]; [discriminate|].
    destruct (status =? 200) eqn:Hs; [|discriminate].
    apply Z.eqb_eq in Hs. subst. now intros [= ->].
  - intros ->. reflexivity.
Qed.

(** The loop of a client under an exact clock, with the final [raise]. *)
Lemma retry_loop_policy {A} (w : world) (body : nat -> result A) (R : Z)
    (failure : nat -> exn -> Prop) (success : nat -> A -> Prop) (prefix url : string) :
  exact_clock w (Z.to_nat R) ->
  (forall k e, body k = Raise e -> failure k e) ->
  (forall k v, body k = Ok v -> success k v) ->
  retry_policy failure success R prefix url
    (match fst (retry_loop w body R (Z.to_nat (R + 1)) 0 None) with
     | Return v => Ok v
     | Exhausted last_exc =>
         Raise (RuntimeError (prefix +:+ url +:+ ": " +:+ str_last_exc last_exc))
     | Escaped e => Raise e
     end,
     snd (retry_loop w body R (Z.to_nat (R + 1)) 0 None)).
Proof.
  intros Hclock Hfail Hok.
  destruct (retry_loop_run w body R (Z.to_nat (R + 1)) 0 None) as (m & Hs & Hm & Hf & Hr).
  { destruct (Z_le_gt_dec 0 (R + 1)); [right|left]; lia. }
  exists m. cbn [fst snd]. split.
  { apply (slept_policy w (Z.to_nat R)); [exact Hclock | lia | exact Hs]. }
  split; [now apply (slept_count w m 0%nat)|].
  split; [lia|]. split.
  { intros k Hk. destruct (Hf k) as [e He]; [lia | lia |]. exists e. now apply Hfail. }
  destruct (fst (retry_loop w body R (Z.to_nat (R + 1)) 0 None)) as [v|le|e].
  - destruct Hr as (j & -> & Hj). exists j. split; [reflexivity | now apply Hok].
  - destruct Hr as [-> Hr]. split; [lia|].
    destruct (Z.to_nat (R + 1)) as [|j]; [now subst|].
    destruct Hr as (e & He & ->). exists e. split; [now apply Hfail | reflexivity].
  - exfalso. destruct Hr as (j & -> & _ & Hlt & Hsl). cbn [Nat.add] in *.
    destruct (Hclock j ltac:(lia)) as (q & Hq & _ & Ht).
    assert (sleep_backoff w j = Ok q) by (apply sleep_backoff_ok; now split).
    congruence.
Qed.




End HttpFacts.

(** ** The exporter *)

Module ExporterFacts.
Import Http Exporter ExporterSpec StringFacts.

Lemma join_cons (x : string) (l : list string) : join (x :: l) = x +:+ join l.
Proof. reflexivity. Qed.

Lemma join_app (l1 l2 : list string) : join (l1 ++ l2) = join l1 +:+ join l2.
Proof.
  induction l1 as [|x l1 IH]; [reflexivity|].
  change ((x :: l1) ++ l2) with (x :: (l1 ++ l2)).
  now rewrite !join_cons, IH, append_assoc.
Qed.

Lemma join_readlines (s : string) : join (readlines s) = s.
Proof.
  induction s as [|c s IH]; [reflexivity|].
  cbn [readlines]. destruct (Ascii.eqb c "010") eqn:Hc.
  - rewrite join_cons, IH. reflexivity.
  - destruct (readlines s) as [|l ls].
    + rewrite <- IH. reflexivity.
    + rewrite join_cons in *. rewrite <- IH. reflexivity.
Qed.

Lemma last_or_app {A} (l1 l2 : list A) (o : option A) :
  last_or (l1 ++ l2) o = last_or l2 (last_or l1 o).
Proof.
  unfold last_or. destruct l2 as [|x l2 _] using rev_ind.
  - rewrite app_nil_r. cbn. now destruct (last l1).
  - rewrite app_assoc, !last_snoc. reflexivity.
Qed.

Lemma first_or_app {A} (l1 l2 : list A) (o : option A) :
  first_or o (l1 ++ l2) = first_or (first_or o l1) l2.
Proof.
  unfold first_or. destruct o; [reflexivity|].
  destruct l1; cbn; [reflexivity|]. reflexivity.
Qed.

Section Run.

Variable json_loads : string -> result value.
Variable a : export_args.

Local Abbreviation row_value := (ExporterSpec.row_value json_loads a).
Local Abbreviation row_id := (ExporterSpec.row_id json_loads a).
Local Abbreviation parses := (ExporterSpec.parses json_loads a).
Local Abbreviation usable_ids := (ExporterSpec.usable_ids json_loads a).
Local Abbreviation absorb := (ExporterSpec.absorb json_loads a).
Local Abbreviation page_loop := (Exporter.page_loop json_loads a).
Local Abbreviation export_loop := (Exporter.export_loop json_loads a).
Local Abbreviation delivers := (ExporterSpec.delivers a).
Local Abbreviation serves := (ExporterSpec.serves a).

Lemma usable_ids_app l1 l2 : usable_ids (l1 ++ l2) = usable_ids l1 ++ usable_ids l2.
Proof. unfold ExporterSpec.usable_ids. apply omap_app. Qed.

Lemma absorb_nil st : absorb [] st = st.
Proof.
  destruct st as [af rw mn mx rq g]. unfold ExporterSpec.absorb.
  cbn [rows min_id max_id after_id requests_made gz length map ExporterSpec.usable_ids omap].
  f_equal; [lia | now destruct mn | apply append_empty_r].
Qed.

Lemma usable_ids_cons raw rws :
  usable_ids (raw :: rws)
  = match row_id raw with
    | Some i => i :: usable_ids rws
    | None => usable_ids rws
    end.
Proof. reflexivity. Qed.

(** One row through the body of the loop, then the others. *)
Lemma absorb_cons raw rws st :
  absorb (raw :: rws) st
  = absorb rws
      {| after_id := after_id st; rows := rows st + 1;
         min_id := match row_id raw with
                   | Some v => match min_id st with None => Some v | Some m => Some m end
                   | None => min_id st
                   end;
         max_id := match row_id raw with Some v => Some v | None => max_id st end;
         requests_made := requests_made st;
         gz := gz st +:+ terminated raw |}.
Proof.
  unfold ExporterSpec.absorb.
  cbn [rows min_id max_id after_id requests_made gz length map].
  rewrite usable_ids_cons, join_cons, append_assoc.
  f_equal; [lia | |].
  - destruct (row_id raw) as [i|]; [|reflexivity].
    unfold first_or. now destruct (min_id st).
  - destruct (row_id raw) as [i|]; [|reflexivity].
    change (i :: usable_ids rws) with ([i] ++ usable_ids rws).
    now rewrite last_or_app.
Qed.

Lemma page_loop_parses (lines : list string) :
  forall st page_rows last_id,
    Forall parses (List.filter nonblank lines) ->
    page_loop lines st page_rows last_id
    = Ok (absorb (List.filter nonblank lines) st,
          page_rows + Z.of_nat (length (List.filter nonblank lines)),
          last_or (usable_ids (List.filter nonblank lines)) last_id).
Proof.
  induction lines as [|raw lines IH]; intros st pr li Hp.
  - cbn [Exporter.page_loop List.filter length]. rewrite absorb_nil.
    now replace (pr + Z.of_nat 0) with pr by lia.
  - cbn [Exporter.page_loop List.filter] in *.
    destruct (blank raw) eqn:Hb.
    + assert (Hn : nonblank raw = false) by (unfold nonblank; now rewrite Hb).
      rewrite Hn in *. now apply IH.
    + assert (Hn : nonblank raw = true) by (unfold nonblank; now rewrite Hb).
      rewrite Hn in *. inversion Hp as [|x l [v Hv] Hrest]; subst.
      assert (Hid : row_id raw = isinstance_int v).
      { unfold ExporterSpec.row_id. now rewrite Hv. }
      unfold ExporterSpec.row_value in Hv.
      destruct (json_loads (terminated raw)) as [obj|e] eqn:Hj; cbn [bind] in Hv |- *;
        [|discriminate].
      rewrite Hv. cbn [bind].
      rewrite absorb_cons, usable_ids_cons, Hid. cbn [length].
      destruct (isinstance_int v) as [i|] eqn:Hi.
      * rewrite IH by assumption. f_equal.
        change (i :: usable_ids (List.filter nonblank lines))
          with ([i] ++ usable_ids (List.filter nonblank lines)).
        rewrite last_or_app.
        replace (pr + 1 + Z.of_nat (length (List.filter nonblank lines)))
          with (pr + Z.of_nat (S (length (List.filter nonblank lines)))) by lia.
        reflexivity.
      * rewrite IH by assumption. f_equal.
        replace (pr + 1 + Z.of_nat (length (List.filter nonblank lines)))
          with (pr + Z.of_nat (S (length (List.filter nonblank lines)))) by lia.
        reflexivity.
Qed.

Lemma page_loop_ok_parses (lines : list string) :
  forall st page_rows last_id out,
    page_loop lines st page_rows last_id = Ok out ->
    Forall parses (List.filter nonblank lines).
Proof.
  induction lines as [|raw lines IH]; intros st pr li out H.
  - constructor.
  - cbn [Exporter.page_loop List.filter] in *. destruct (blank raw) eqn:Hb.
    + assert (Hn : nonblank raw = false) by (unfold nonblank; now rewrite Hb).
      rewrite Hn. eapply IH, H.
    + assert (Hn : nonblank raw = true) by (unfold nonblank; now rewrite Hb).
      rewrite Hn.
      destruct (json_loads (terminated raw)) as [obj|e] eqn:Hj; cbn [bind] in H; [|discriminate].
      destruct (obj_get obj (id_field a)) as [v|e] eqn:Hg; cbn [bind] in H; [|discriminate].
      constructor.
      * exists v. unfold ExporterSpec.row_value. rewrite Hj. exact Hg.
      * destruct (isinstance_int v); eapply IH, H.
Qed.


Lemma serve_delivers body : delivers (serve body) body.
Proof. intros after. reflexivity. Qed.

Lemma serve_serves bodies : serves (map serve bodies) bodies.
Proof.
  induction bodies as [|b bodies IH]; [constructor|].
  constructor; [apply serve_delivers | exact IH].
Qed.

Lemma after_page_cases st n li :
  match after_page a st n li with
  | Break st' => n = 0 /\ st' = count st
  | Continue st' =>
      n <> 0 /\ exists l, li = Some l /\ st' = advance st l
                          /\ (forall aft, after_id st = Some aft -> int_val aft < int_val l)
  | Abort e =>
      n <> 0
      /\ ((li = None /\ e = no_id_error a)
          \/ exists aft l, after_id st = Some aft /\ li = Some l
                           /\ int_val l <= int_val aft /\ e = no_advance_error a aft l)
  end.
Proof.
  unfold after_page. cbn [after_id rows min_id max_id requests_made gz].
  destruct (n =? 0) eqn:Hn.
  - split; [lia | reflexivity].
  - assert (n <> 0) by lia.
    destruct li as [l|]; [|split; [assumption | left; split; reflexivity]].
    destruct (after_id st) as [aft|] eqn:Ha.
    + unfold int_le. destruct (int_val l <=? int_val aft) eqn:Hle.
      * split; [assumption|]. right. exists aft, l.
        split; [reflexivity|]. split; [reflexivity|]. split; [lia | reflexivity].
      * split; [assumption|]. exists l.
        split; [reflexivity|]. split; [reflexivity|].
        intros aft' Heq. injection Heq as <-. lia.
    + split; [assumption|]. exists l.
      split; [reflexivity|]. split; [reflexivity|].
      intros aft' Heq. discriminate.
Qed.

Lemma export_loop_cons net body rest st :
  delivers net body ->
  export_loop (net :: rest) st
  = match page_loop (readlines body) st 0 None with
    | Raise e => (Raised e, [page_url a (after_id st)])
    | Ok (st1, page_rows, last_id) =>
        match after_page a st1 page_rows last_id with
        | Break st2 => (Returned (meta_of a st2, gz st2), [page_url a (after_id st)])
        | Abort e => (Raised e, [page_url a (after_id st)])
        | Continue st2 =>
            (fst (export_loop rest st2),
             page_url a (after_id st) :: snd (export_loop rest st2))
        end
    end.
Proof.
  intros Hd. cbn [Exporter.export_loop]. rewrite (Hd (after_id st)).
  destruct (page_loop (readlines body) st 0 None) as [[[st1 n] li]|e]; [|reflexivity].
  destruct (after_page a st1 n li); try reflexivity.
  now destruct (Exporter.export_loop json_loads a rest st0).
Qed.

(** A page on the loop: either a row does not parse and the loop raises, or
    the page is absorbed and [after_page] decides. *)
Lemma page_loop_page body st :
  (exists e, page_loop (readlines body) st 0 None = Raise e
             /\ ~ Forall parses (rows_of_page body))
  \/ (Forall parses (rows_of_page body)
      /\ page_loop (readlines body) st 0 None
         = Ok (absorb (rows_of_page body) st,
               Z.of_nat (length (rows_of_page body)),
               last (usable_ids (rows_of_page body)))).
Proof.
  destruct (page_loop (readlines body) st 0 None) as [out|e] eqn:H.
  - right. pose proof (page_loop_ok_parses _ _ _ _ _ H) as Hp. split; [exact Hp|].
    rewrite <- H. rewrite (page_loop_parses _ st 0 None Hp).
    unfold rows_of_page, last_or. rewrite Z.add_0_l.
    now destruct (last _).
  - left. exists e. split; [reflexivity|]. intros Hp.
    rewrite (page_loop_parses _ st 0 None Hp) in H. discriminate.
Qed.


Lemma length_zero_nil {A} (l : list A) : Z.of_nat (length l) = 0 -> l = [].
Proof. destruct l; [reflexivity | cbn; lia]. Qed.

(** A run that returns: the pages up to the first one without rows were
    fetched, every row of them parsed, and the dict and the file are those of
    all these rows absorbed in order. *)
Lemma export_loop_returned (server : list world) (bodies : list string) :
  serves server bodies ->
  forall st meta written urls,
    export_loop server st = (Returned (meta, written), urls) ->
    exists pre p post,
      bodies = pre ++ p :: post
      /\ length urls = S (length pre)
      /\ Forall (fun b => rows_of_page b <> []) pre
      /\ rows_of_page p = []
      /\ Forall parses (flat_map rows_of_page pre)
      /\ m_rows meta = rows st + Z.of_nat (length (flat_map rows_of_page pre))
      /\ m_minId meta = first_or (min_id st) (usable_ids (flat_map rows_of_page pre))
      /\ m_maxId meta = last_or (usable_ids (flat_map rows_of_page pre)) (max_id st)
      /\ m_requestsMade meta = requests_made st + Z.of_nat (S (length pre))
      /\ written = gz st +:+ join (map terminated (flat_map rows_of_page pre)).
Proof.
  induction 1 as [|net body server rest Hd _ IH]; intros st meta w urls H.
  - discriminate.
  - rewrite (export_loop_cons net body) in H by exact Hd.
    destruct (page_loop_page body st) as [(e & He & _)|(Hp & Hpl)].
    { rewrite He in H. discriminate. }
    rewrite Hpl in H.
    pose proof (after_page_cases (absorb (rows_of_page body) st)
                  (Z.of_nat (length (rows_of_page body)))
                  (last (usable_ids (rows_of_page body)))) as Hc.
    destruct (after_page a _ _ _) as [st2|st2|e].
    + destruct Hc as [Hn ->]. apply length_zero_nil in Hn.
      injection H as <- <- <-.
      exists [], body, rest. rewrite Hn, absorb_nil.
      cbn [app length flat_map map join fold_right ExporterSpec.usable_ids omap
           meta_of m_rows m_minId m_maxId m_requestsMade count rows min_id max_id
           requests_made gz].
      split; [reflexivity|]. split; [reflexivity|]. split; [constructor|].
      split; [reflexivity|]. split; [constructor|]. split; [lia|].
      split; [unfold first_or; now destruct (min_id st)|].
      split; [reflexivity|]. split; [lia|]. now rewrite append_empty_r.
    + destruct Hc as (Hn & l & Hl & -> & Hadv).
      injection H as Hres <-.
      destruct (IH (advance (absorb (rows_of_page body) st) l) meta w
                  (snd (export_loop server (advance (absorb (rows_of_page body) st) l))))
        as (pre & p & post & -> & Hlen & Hne & Hp0 & Hpp & Hr & Hmin & Hmax & Hrq & Hw).
      { rewrite <- Hres. apply surjective_pairing. }
      exists (body :: pre), p, post.
      cbn [advance absorb rows min_id max_id requests_made gz after_id] in Hr, Hmin, Hmax, Hrq, Hw.
      unfold ExporterSpec.absorb in Hr, Hmin, Hmax, Hrq, Hw.
      cbn [rows min_id max_id requests_made gz after_id] in Hr, Hmin, Hmax, Hrq, Hw.
      cbn [flat_map length].
      rewrite usable_ids_app, first_or_app, last_or_app, (List.map_app terminated),
        join_app, length_app.
      split; [reflexivity|]. split; [now rewrite Hlen|].
      split. { constructor; [|assumption]. intros E. rewrite E in Hn. now apply Hn. }
      split; [assumption|].
      split. { apply Forall_app. split; assumption. }
      split; [lia|]. split; [assumption|]. split; [assumption|].
      split; [lia|]. now rewrite <- append_assoc.
    + discriminate.
Qed.


Lemma export_loop_urls net rest st :
  exists tail, snd (export_loop (net :: rest) st) = page_url a (after_id st) :: tail.
Proof.
  cbn [Exporter.export_loop].
  destruct (fst (_http_ndjson_stream _ default_retries net)) as [resp|e]; [|now exists []].
  destruct (page_loop (readlines resp) st 0 None) as [[[st1 n] li]|e]; [|now exists []].
  destruct (after_page a st1 n li); try (eexists; reflexivity).
  destruct (Exporter.export_loop json_loads a rest st0). eexists; reflexivity.
Qed.

Lemma after_id_absorb rws st : after_id (absorb rws st) = after_id st.
Proof. reflexivity. Qed.

Lemma requests_made_absorb rws st : requests_made (absorb rws st) = requests_made st.
Proof. reflexivity. Qed.

(** The loop on pages of which [p] is the first one without rows. *)
Lemma export_loop_stops (p : string) (post : list string) (pre : list string) :
  forall server st,
    serves server (pre ++ p :: post) ->
    Forall (fun b => rows_of_page b <> []) pre ->
    rows_of_page p = [] ->
    (length (snd (export_loop server st)) <= S (length pre))%nat
    /\ fst (export_loop server st) <> Starved
    /\ (forall meta written,
          fst (export_loop server st) = Returned (meta, written) ->
          length (snd (export_loop server st)) = S (length pre)
          /\ m_requestsMade meta = requests_made st + Z.of_nat (S (length pre)))
    /\ (forall e,
          fst (export_loop server st) = Raised e ->
          (length (snd (export_loop server st)) <= length pre)%nat)
    /\ (Forall parses (flat_map rows_of_page pre) ->
        advancing json_loads a (after_id st) pre ->
        exists meta written, fst (export_loop server st) = Returned (meta, written)).
Proof.
  induction pre as [|b pre IH]; intros server st Hs Hne Hp.
  - cbn [app] in Hs. inversion Hs as [|net ? rest ? Hd _]; subst.
    rewrite (export_loop_cons net p) by exact Hd.
    destruct (page_loop_page p st) as [(e & He & Hnp)|(Hpp & Hpl)].
    { exfalso. apply Hnp. rewrite Hp. constructor. }
    rewrite Hpl.
    pose proof (after_page_cases (absorb (rows_of_page p) st)
                  (Z.of_nat (length (rows_of_page p)))
                  (last (usable_ids (rows_of_page p)))) as Hc.
    destruct (after_page a _ _ _) as [st2|st2|e].
    + destruct Hc as [_ ->]. cbn [fst snd length].
      split; [lia|]. split; [discriminate|]. split.
      { intros meta w [= <- _]. split; [reflexivity|].
        cbn [meta_of m_requestsMade count requests_made]. rewrite requests_made_absorb. lia. }
      split; [discriminate|]. intros _ _. eexists _, _. reflexivity.
    + exfalso. destruct Hc as [Hn _]. apply Hn. now rewrite Hp.
    + exfalso. destruct Hc as [Hn _]. apply Hn. now rewrite Hp.
  - inversion Hne as [|x l Hb Hne']; subst.
    change ((b :: pre) ++ p :: post) with (b :: (pre ++ p :: post)) in Hs.
    inversion Hs as [|net ? rest ? Hd Hs']; subst.
    rewrite (export_loop_cons net b) by exact Hd.
    destruct (page_loop_page b st) as [(e & He & Hnp)|(Hpp & Hpl)].
    { rewrite He. cbn [fst snd length].
      split; [lia|]. split; [discriminate|]. split; [discriminate|].
      split; [intros; lia|].
      intros Hall _. exfalso. apply Hnp. cbn [flat_map] in Hall.
      now apply Forall_app in Hall as [Hall _]. }
    rewrite Hpl.
    pose proof (after_page_cases (absorb (rows_of_page b) st)
                  (Z.of_nat (length (rows_of_page b)))
                  (last (usable_ids (rows_of_page b)))) as Hc.
    destruct (after_page a _ _ _) as [st2|st2|e].
    + exfalso. destruct Hc as [Hn _]. apply length_zero_nil in Hn. contradiction.
    + destruct Hc as (_ & l & Hl & -> & Hadv).
      destruct (IH rest (advance (absorb (rows_of_page b) st) l) Hs' Hne' Hp)
        as (Hlen & Hns & Hret & Hrai & Hgo).
      cbn [fst snd length].
      split; [lia|]. split; [assumption|]. split.
      { intros meta w Hm. destruct (Hret meta w Hm) as [E1 E2]. split; [lia|].
        rewrite E2. cbn [advance requests_made]. rewrite requests_made_absorb. lia. }
      split.
      { intros e He. specialize (Hrai e He). lia. }
      intros Hall (l' & Hl' & _ & Hadv'). apply Hgo.
      * cbn [flat_map] in Hall. now apply Forall_app in Hall as [_ Hall].
      * cbn [advance after_id]. rewrite Hl in Hl'. now injection Hl' as ->.
    + destruct Hc as (_ & Hwhy). cbn [fst snd length].
      split; [lia|]. split; [discriminate|]. split; [discriminate|].
      split; [intros; lia|].
      intros _ (l' & Hl' & Habove & _). exfalso.
      destruct Hwhy as [[Hnone _]|(aft & l & Haft & Hl & Hle & _)].
      * rewrite Hnone in Hl'. discriminate.
      * rewrite after_id_absorb in Haft. rewrite Hl in Hl'. injection Hl' as ->.
        specialize (Habove aft Haft). lia.
Qed.


Lemma fetched_first_empty (pre : list string) (p : string) (post urls : list string) :
  length urls = S (length pre) ->
  rows_of_page p = [] ->
  fetched (pre ++ p :: post) urls = pre ++ [p]
  /\ flat_map rows_of_page (fetched (pre ++ p :: post) urls) = flat_map rows_of_page pre.
Proof.
  intros Hlen Hp. unfold fetched. rewrite Hlen.
  assert (E : take (S (length pre)) (pre ++ p :: post) = pre ++ [p]).
  { rewrite take_app. rewrite take_ge by lia.
    replace (S (length pre) - length pre)%nat with 1%nat by lia. reflexivity. }
  rewrite E. split; [reflexivity|].
  rewrite flat_map_app. cbn [flat_map]. rewrite Hp. now rewrite !app_nil_r.
Qed.

Lemma carries_ids (rws : list string) (zs : list Z) :
  carries json_loads a rws zs ->
  usable_ids rws = map Int zs /\ length rws = length zs /\ Forall parses rws.
Proof.
  induction 1 as [|raw z rws zs Hv _ (IH1 & IH2 & IH3)].
  - repeat split. constructor.
  - rewrite usable_ids_cons. unfold ExporterSpec.row_id. rewrite Hv.
    cbn [isinstance_int map length]. rewrite IH1, IH2. repeat split.
    constructor; [now exists (VInt z) | assumption].
Qed.

End Run.

Lemma zmin_sorted (zs : list Z) : Sorted Z.le zs -> zmin zs = head zs.
Proof.
  intros Hs. apply Sorted_StronglySorted in Hs; [|intros x y z; lia].
  destruct zs as [|z r]; [reflexivity|]. cbn [zmin head]. f_equal.
  apply StronglySorted_inv in Hs as [_ Hall]. clear -Hall.
  induction r as [|x r IH]; [reflexivity|].
  inversion Hall as [|? ? Hx Hr]; subst. cbn [fold_left].
  rewrite Z.min_l by assumption. now apply IH.
Qed.

Lemma zmax_sorted (zs : list Z) : Sorted Z.le zs -> zmax zs = last zs.
Proof.
  destruct zs as [|z r]; [reflexivity|]. cbn [zmax]. revert z.
  induction r as [|x r IH]; intros z Hs; [reflexivity|].
  apply Sorted_inv in Hs as [Hs Hd]. apply HdRel_inv in Hd.
  cbn [fold_left]. rewrite Z.max_r by assumption. rewrite (IH x Hs). reflexivity.
Qed.

Lemma head_map_Int (zs : list Z) : head (map Int zs) = Int <$> head zs.
Proof. now destruct zs. Qed.

Lemma last_map_Int (zs : list Z) : last (map Int zs) = Int <$> last zs.
Proof.
  induction zs as [|z [|y r] IH]; [reflexivity|reflexivity|].
  exact IH.
Qed.

(** C1 (as amended).  For a run that returns, on a server that delivers the
    pages [bodies] (at once or after retries), over rows that carry the
    integers [zs] in arrival order, whatever the pages they came in: [rows] is
    their number, [minId] is the first of them and [maxId] the last; so
    [minId] and [maxId] are their minimum and maximum when the ids arrive in
    non-decreasing order. *)
Theorem id_accounting_in_arrival_order (json_loads : string -> result value)
    (a : export_args) (server : list world) (bodies : list string)
    (meta : export_meta) (written : string) (urls : list string) (zs : list Z) :
  serves a server bodies ->
  export_loop json_loads a server initial = (Returned (meta, written), urls) ->
  carries json_loads a (flat_map rows_of_page (fetched bodies urls)) zs ->
  m_rows meta = Z.of_nat (length zs)
  /\ m_minId meta = Int <$> head zs
  /\ m_maxId meta = Int <$> last zs
  /\ (Sorted Z.le zs ->
      m_minId meta = Int <$> zmin zs /\ m_maxId meta = Int <$> zmax zs).
Proof.
  intros Hs Hrun Hzs.
  destruct (export_loop_returned json_loads a server bodies Hs initial meta written urls Hrun)
    as (pre & p & post & -> & Hlen & Hne & Hp & Hpp & Hr & Hmin & Hmax & Hrq & Hw).
  destruct (fetched_first_empty pre p post urls Hlen Hp) as [_ Hrows].
  rewrite Hrows in Hzs.
  destruct (carries_ids json_loads a _ _ Hzs) as (Hids & Hl & _).
  rewrite Hids in Hmin, Hmax. rewrite Hl in Hr. cbn [initial rows min_id max_id] in *.
  unfold first_or in Hmin. unfold last_or in Hmax.
  rewrite head_map_Int in Hmin. rewrite last_map_Int in Hmax.
  assert (Hmax' : m_maxId meta = Int <$> last zs).
  { rewrite Hmax. now destruct (last zs). }
  split; [lia|]. split; [exact Hmin|]. split; [exact Hmax'|].
  intros Hsorted. now rewrite zmin_sorted, zmax_sorted.
Qed.

(** C2 (as amended).  On a server that delivers pages of which [p] is the first without
    rows, the loop never asks for a page after [p]; it returns at [p] and
    nowhere else, and then [requestsMade] is the number of pages fetched, [p]
    included; it leaves earlier only by raising on a page that has rows; and
    it does return when the rows before [p] parse and the pages advance the
    cursor. *)
Theorem pagination_stops_at_first_empty_page (json_loads : string -> result value)
    (a : export_args) (server : list world)
    (pre : list string) (p : string) (post : list string) :
  serves a server (pre ++ p :: post) ->
  Forall (fun b => rows_of_page b <> []) pre ->
  rows_of_page p = [] ->
  let out := export_loop json_loads a server initial in
  (length (snd out) <= S (length pre))%nat
  /\ fst out <> Starved
  /\ (forall meta written,
        fst out = Returned (meta, written) ->
        length (snd out) = S (length pre)
        /\ m_requestsMade meta = Z.of_nat (length (snd out)))
  /\ (forall e, fst out = Raised e -> (length (snd out) <= length pre)%nat)
  /\ (Forall (parses json_loads a) (flat_map rows_of_page pre) ->
      advancing json_loads a None pre ->
      exists meta written, fst out = Returned (meta, written)).
Proof.
  intros Hs Hne Hp out.
  destruct (export_loop_stops json_loads a p post pre server initial Hs Hne Hp)
    as (Hlen & Hns & Hret & Hrai & Hgo).
  split; [exact Hlen|]. split; [exact Hns|]. split.
  { intros meta w Hm. destruct (Hret meta w Hm) as [E1 E2]. split; [exact E1|].
    subst out. rewrite E1, E2. cbn [initial requests_made]. lia. }
  split; [exact Hrai|]. exact Hgo.
Qed.

Lemma usable_ids_none json_loads a (rws : list string) :
  Forall (fun r => row_id json_loads a r = None) rws <-> last (usable_ids json_loads a rws) = None.
Proof.
  rewrite last_None. induction rws as [|r rws IH].
  - split; [reflexivity | constructor].
  - rewrite usable_ids_cons. split.
    + intros H. inversion H as [|? ? Hr Hrest]; subst. rewrite Hr. now apply IH.
    + destruct (row_id json_loads a r) eqn:Hr; [discriminate|].
      intros H. constructor; [assumption | now apply IH].
Qed.

(** What follows a page with rows, all of which parse. *)
Lemma cursor_cases (json_loads : string -> result value) (a : export_args)
    (st : state) (net : world) (body : string) (rest : list world) :
  delivers a net body ->
  rows_of_page body <> [] ->
  Forall (parses json_loads a) (rows_of_page body) ->
  let ids := usable_ids json_loads a (rows_of_page body) in
  let url := page_url a (after_id st) in
  let out := export_loop json_loads a (net :: rest) st in
  let no_id := Forall (fun r => row_id json_loads a r = None) (rows_of_page body) in
  let stalled :=
    exists aft l, after_id st = Some aft /\ last ids = Some l /\ int_val l <= int_val aft in
  ((exists e, out = (Raised e, [url])) <-> (no_id \/ stalled))
  /\ (no_id -> out = (Raised (no_id_error a), [url]))
  /\ (forall aft l,
        after_id st = Some aft -> last ids = Some l -> int_val l <= int_val aft ->
        out = (Raised (no_advance_error a aft l), [url]))
  /\ (~ (no_id \/ stalled) ->
      exists l st2,
        last ids = Some l
        /\ after_id st2 = Some l
        /\ requests_made st2 = requests_made st + 1
        /\ out = (fst (export_loop json_loads a rest st2),
                  url :: snd (export_loop json_loads a rest st2))).
Proof.
  intros Hd Hrows Hp ids url out no_id stalled.
  assert (Hout : out = match after_page a (absorb json_loads a (rows_of_page body) st)
                               (Z.of_nat (length (rows_of_page body))) (last ids) with
                       | Break st2 => (Returned (meta_of a st2, gz st2), [url])
                       | Abort e => (Raised e, [url])
                       | Continue st2 =>
                           (fst (export_loop json_loads a rest st2),
                            url :: snd (export_loop json_loads a rest st2))
                       end).
  { subst out. rewrite (export_loop_cons json_loads a net body) by exact Hd.
    destruct (page_loop_page json_loads a body st) as [(e & _ & Hnp)|(_ & Hpl)];
      [contradiction|]. now rewrite Hpl. }
  pose proof (after_page_cases a (absorb json_loads a (rows_of_page body) st)
                (Z.of_nat (length (rows_of_page body))) (last ids)) as Hc.
  destruct (after_page a _ _ _) as [st2|st2|e].
  - exfalso. destruct Hc as [Hn _]. apply length_zero_nil in Hn. contradiction.
  - destruct Hc as (_ & l & Hl & -> & Hadv). rewrite after_id_absorb in Hadv.
    assert (Hfree : ~ (no_id \/ stalled)).
    { intros [H|(aft & l' & Haft & Hl' & Hle)].
      - apply usable_ids_none in H. fold ids in H. congruence.
      - rewrite Hl in Hl'. injection Hl' as <-. specialize (Hadv aft Haft). lia. }
    split.
    { split; [|intros H; contradiction].
      intros [e He]. exfalso. rewrite Hout in He. injection He as He1 He.
      destruct rest as [|net' rest]; [discriminate He1|].
      destruct (export_loop_urls json_loads a net' rest
                  (advance (absorb json_loads a (rows_of_page body) st) l)) as [tail Ht].
      rewrite Ht in He. discriminate. }
    split; [intros H; exfalso; apply Hfree; now left|].
    split.
    { intros aft l' Haft Hl' Hle. exfalso. apply Hfree. right. now exists aft, l'. }
    intros _. exists l, (advance (absorb json_loads a (rows_of_page body) st) l).
    split; [exact Hl|]. split; [reflexivity|]. split; [reflexivity|]. exact Hout.
  - destruct Hc as (_ & Hwhy). rewrite after_id_absorb in Hwhy.
    destruct Hwhy as [[Hnone ->]|(aft & l & Haft & Hl & Hle & ->)].
    + assert (Hno : no_id) by (apply usable_ids_none; exact Hnone).
      split; [split; [intros _; now left | intros _; exists (no_id_error a); exact Hout]|].
      split; [intros _; exact Hout|].
      split; [intros aft l _ Hl _; fold ids in Hnone; congruence|].
      intros Hfree. exfalso. apply Hfree. now left.
    + assert (Hst : stalled) by (now exists aft, l).
      split; [split; [intros _; now right | intros _; eexists; exact Hout]|].
      split.
      { intros Hno. apply usable_ids_none in Hno. fold ids in Hno. congruence. }
      split.
      { intros aft' l' Haft' Hl' _. rewrite Haft in Haft'. rewrite Hl in Hl'.
        injection Haft' as <-. injection Hl' as <-. exact Hout. }
      intros Hfree. exfalso. apply Hfree. now right.
Qed.

Lemma ids_by_python json_loads a (rws : list string) :
  ids_by json_loads a python_int rws = map int_val (usable_ids json_loads a rws).
Proof.
  unfold ids_by.
  induction rws as [|r rws IH]; [reflexivity|].
  rewrite usable_ids_cons.
  change (omap (id_by json_loads a python_int) (r :: rws))
    with (match id_by json_loads a python_int r with
          | Some z => z :: omap (id_by json_loads a python_int) rws
          | None => omap (id_by json_loads a python_int) rws
          end).
  rewrite IH. unfold id_by, ExporterSpec.row_id.
  destruct (ExporterSpec.row_value json_loads a r) as [v|e]; [|reflexivity].
  destruct v; reflexivity.
Qed.

Lemma last_of_map {A B} (f : A -> B) (l : list A) : last (map f l) = f <$> last l.
Proof.
  destruct l as [|x l _] using rev_ind; [reflexivity|].
  rewrite (List.map_app f). cbn [map]. now rewrite !last_snoc.
Qed.

(** C3 (as amended).  After a page with rows, all of which parse, whatever
    the state the loop is in and whatever follows, an id being a value of the
    id field with [isinstance(value, int)], that is a JSON integer or a JSON
    [true] or [false] (1 and 0): the loop raises there if and only if no row
    of the page has an id, or a cursor was set and the last id of the page is
    not above it; the error is then the [RuntimeError] "Export <path>
    returned rows without '<id field>'", respectively "Pagination did not
    advance for <path>: afterId=<cursor> lastId=<last id>".  Otherwise the
    cursor becomes the last id of the page, the page is counted and the loop
    goes on to the next request. *)
Theorem cursor_must_advance (json_loads : string -> result value) (a : export_args)
    (st : state) (net : world) (body : string) (rest : list world) :
  delivers a net body ->
  rows_of_page body <> [] ->
  Forall (parses json_loads a) (rows_of_page body) ->
  let ids := ids_by json_loads a python_int (rows_of_page body) in
  let url := page_url a (after_id st) in
  let out := export_loop json_loads a (net :: rest) st in
  let stalled :=
    exists aft l, after_id st = Some aft /\ last ids = Some l /\ l <= int_val aft in
  ((exists e, out = (Raised e, [url])) <-> (ids = [] \/ stalled))
  /\ (ids = [] ->
      out = (Raised (RuntimeError ("Export " +:+ path a +:+ " returned rows without '"
                                   +:+ id_field a +:+ "'")), [url]))
  /\ (forall aft l,
        after_id st = Some aft -> last ids = Some l -> l <= int_val aft ->
        exists last_id,
          int_val last_id = l
          /\ out = (Raised (RuntimeError ("Pagination did not advance for " +:+ path a
                                          +:+ ": afterId=" +:+ str_int aft
                                          +:+ " lastId=" +:+ str_int last_id)), [url]))
  /\ (~ (ids = [] \/ stalled) ->
      exists l st2 cursor,
        last ids = Some l
        /\ after_id st2 = Some cursor
        /\ int_val cursor = l
        /\ requests_made st2 = requests_made st + 1
        /\ out = (fst (export_loop json_loads a rest st2),
                  url :: snd (export_loop json_loads a rest st2))).
Proof.
  intros Hd Hrows Hp ids url out stalled.
  destruct (cursor_cases json_loads a st net body rest Hd Hrows Hp)
    as (Hiff & Hno & Hst & Hgo).
  fold url out in Hiff, Hno, Hst, Hgo.
  assert (Hids : ids = map int_val (usable_ids json_loads a (rows_of_page body)))
    by apply ids_by_python.
  assert (Hnil : ids = []
                 <-> Forall (fun r => row_id json_loads a r = None) (rows_of_page body)).
  { rewrite usable_ids_none, last_None, Hids. split.
    - intros H. now apply map_eq_nil in H.
    - now intros ->. }
  assert (Hlast : last ids = int_val <$> last (usable_ids json_loads a (rows_of_page body))).
  { rewrite Hids. apply last_of_map. }
  assert (Hstalled : stalled
                     <-> exists aft l,
                           after_id st = Some aft
                           /\ last (usable_ids json_loads a (rows_of_page body)) = Some l
                           /\ int_val l <= int_val aft).
  { unfold stalled. rewrite Hlast. split.
    - intros (aft & l & Haft & Hl & Hle).
      destruct (last (usable_ids json_loads a (rows_of_page body))) as [i|]; [|discriminate].
      injection Hl as <-. now exists aft, i.
    - intros (aft & i & Haft & Hl & Hle). exists aft, (int_val i).
      rewrite Hl. split; [exact Haft|]. split; [reflexivity | exact Hle]. }
  split.
  { rewrite Hiff, Hnil, Hstalled. reflexivity. }
  split.
  { intros H. apply Hnil in H. exact (Hno H). }
  split.
  { intros aft l Haft Hl Hle. rewrite Hlast in Hl.
    destruct (last (usable_ids json_loads a (rows_of_page body))) as [i|] eqn:Hi;
      [|discriminate].
    injection Hl as <-. exists i. split; [reflexivity|].
    exact (Hst aft i Haft eq_refl Hle). }
  intros Hfree. destruct Hgo as (i & st2 & Hi & Haft & Hreq & Hout).
  { intros [H|H]; apply Hfree; [left; now apply Hnil | right; now apply Hstalled]. }
  exists (int_val i), st2, i.
  split; [rewrite Hlast, Hi; reflexivity|].
  split; [exact Haft|]. split; [reflexivity|]. split; [exact Hreq | exact Hout].
Qed.


Lemma readlines_nonempty (s : string) : Forall (fun l => l <> EmptyString) (readlines s).
Proof.
  induction s as [|c s IH]; [constructor|].
  cbn [readlines]. destruct (Ascii.eqb c "010").
  - constructor; [discriminate | assumption].
  - destruct (readlines s) as [|l ls].
    + constructor; [discriminate | constructor].
    + inversion IH; subst. constructor; [discriminate | assumption].
Qed.

Lemma readlines_nil (s : string) : readlines s = [] -> s = EmptyString.
Proof.
  destruct s as [|c s]; [reflexivity|]. cbn [readlines].
  destruct (Ascii.eqb c "010"); [discriminate|].
  destruct (readlines s); discriminate.
Qed.

Lemma endswith_newline_cons (c : ascii) (s : string) :
  s <> EmptyString -> endswith_newline (String c s) = endswith_newline s.
Proof. destruct s; [congruence | reflexivity]. Qed.

(** The lines of a body that ends with a line feed all end with one. *)
Lemma readlines_terminated (s : string) :
  s = EmptyString \/ endswith_newline s = true ->
  Forall (fun l => endswith_newline l = true) (readlines s).
Proof.
  induction s as [|c s IH]; intros H; [constructor|].
  destruct H as [H|H]; [discriminate|].
  cbn [readlines]. destruct (Ascii.eqb c "010") eqn:Hc.
  - constructor.
    + cbn. exact Hc.
    + apply IH. destruct s as [|d s]; [now left | right; exact H].
  - pose proof (readlines_nonempty s) as Hne.
    destruct (readlines s) as [|l ls] eqn:Hl.
    + apply readlines_nil in Hl. subst s. cbn in H. congruence.
    + assert (Hs : s <> EmptyString) by (intros ->; discriminate).
      rewrite endswith_newline_cons in H by assumption.
      specialize (IH (or_intror H)). inversion IH; subst. inversion Hne; subst.
      constructor; [|assumption]. now rewrite endswith_newline_cons.
Qed.

Lemma filter_all {A} (f : A -> bool) (l : list A) :
  Forall (fun x => f x = true) l -> List.filter f l = l.
Proof.
  induction 1 as [|x l Hx _ IH]; [reflexivity|]. cbn. now rewrite Hx, IH.
Qed.

Lemma map_terminated_id (l : list string) :
  Forall (fun x => endswith_newline x = true) l -> map terminated l = l.
Proof.
  induction 1 as [|x l Hx _ IH]; [reflexivity|]. cbn [map]. unfold terminated at 1.
  now rewrite Hx, IH.
Qed.

Lemma join_flat_map_readlines (bodies : list string) :
  join (flat_map readlines bodies) = join bodies.
Proof.
  induction bodies as [|b bodies IH]; [reflexivity|].
  cbn [flat_map]. now rewrite join_app, join_cons, join_readlines, IH.
Qed.


(** ** The exporter on the sample pages *)

Example unordered_run :
  export_loop Sample.json_loads Sample.snapshots_args
    (map serve [Sample.unordered_page; EmptyString]) initial
  = (Returned (Sample.snapshots_meta 3 (Some (Int 3)) (Some (Int 2)) 2, Sample.unordered_page),
     [Sample.first_url; page_url Sample.snapshots_args (Some (Int 2))]).
Proof. vm_compute. reflexivity. Qed.

Example ordered_run :
  export_loop Sample.json_loads Sample.snapshots_args
    (map serve [Sample.ordered_page; EmptyString]) initial
  = (Returned (Sample.snapshots_meta 3 (Some (Int 101)) (Some (Int 103)) 2, Sample.ordered_page),
     [Sample.first_url; page_url Sample.snapshots_args (Some (Int 103))]).
Proof. vm_compute. reflexivity. Qed.

Example blank_line_run :
  export_loop Sample.json_loads Sample.snapshots_args
    (map serve [Sample.page_with_blank_line; EmptyString]) initial
  = (Returned (Sample.snapshots_meta 1 (Some (Int 7)) (Some (Int 7)) 2, Sample.snapshot 7),
     [Sample.first_url; page_url Sample.snapshots_args (Some (Int 7))]).
Proof. vm_compute. reflexivity. Qed.

(** A page that is delivered at the third attempt is the same page. *)
Example retried_page_delivered :
  delivers Sample.snapshots_args
    (ideal (fun k => if (k <? 2)%nat then UrlopenRaises (OtherError "URLError" "refused")
                     else HttpResponse 200 Sample.ordered_page))
    Sample.ordered_page.
Proof. intros after. reflexivity. Qed.

Ltac carry :=
  unfold carries;
  repeat (constructor; [vm_compute; reflexivity|]); constructor.

(** C1, counterexample.  One page with the ids 3, 1, 2, then an empty page:
    the run returns [minId = 3] and [maxId = 2], their minimum is 1 and their
    maximum 3. *)
Lemma accounting_claim_fails_on_unordered_ids :
  ~ accounting_claim Sample.json_loads Sample.snapshots_args
      [Sample.unordered_page; EmptyString].
Proof.
  intros H.
  assert (Hc : carries Sample.json_loads Sample.snapshots_args
                 (flat_map rows_of_page
                    (fetched [Sample.unordered_page; EmptyString]
                       [Sample.first_url; page_url Sample.snapshots_args (Some (Int 2))]))
                 [3; 1; 2]).
  { replace (flat_map rows_of_page _)
      with [Sample.snapshot 3; Sample.snapshot 1; Sample.snapshot 2]
      by (vm_compute; reflexivity).
    carry. }
  destruct (H _ _ _ _ [3; 1; 2] (serve_serves _ _) unordered_run Hc) as (_ & Hmin & _).
  vm_compute in Hmin. discriminate.
Qed.

(** The three rows of the scenario, ids 101, 102, 103, then an empty page. *)
Lemma id_accounting_witness :
  m_rows (Sample.snapshots_meta 3 (Some (Int 101)) (Some (Int 103)) 2)
  = Z.of_nat (length [101; 102; 103])
  /\ m_minId (Sample.snapshots_meta 3 (Some (Int 101)) (Some (Int 103)) 2)
     = Int <$> head [101; 102; 103]
  /\ m_maxId (Sample.snapshots_meta 3 (Some (Int 101)) (Some (Int 103)) 2)
     = Int <$> last [101; 102; 103]
  /\ (Sorted Z.le [101; 102; 103] ->
      m_minId (Sample.snapshots_meta 3 (Some (Int 101)) (Some (Int 103)) 2)
      = Int <$> zmin [101; 102; 103]
      /\ m_maxId (Sample.snapshots_meta 3 (Some (Int 101)) (Some (Int 103)) 2)
         = Int <$> zmax [101; 102; 103]).
Proof.
  apply (id_accounting_in_arrival_order Sample.json_loads Sample.snapshots_args
           (map serve [Sample.ordered_page; EmptyString])
           [Sample.ordered_page; EmptyString] _ Sample.ordered_page
           [Sample.first_url; page_url Sample.snapshots_args (Some (Int 103))]).
  - apply serve_serves.
  - vm_compute. reflexivity.
  - replace (flat_map rows_of_page _)
      with [Sample.snapshot 101; Sample.snapshot 102; Sample.snapshot 103]
      by (vm_compute; reflexivity).
    carry.
Defined.



(** A page of three rows, an empty page, and a page that is never asked
    for. *)
Lemma pagination_stops_witness :
  let out := export_loop Sample.json_loads Sample.snapshots_args
               (map serve ([Sample.ordered_page] ++ EmptyString :: [Sample.snapshot 1]))
               initial in
  (length (snd out) <= 2)%nat
  /\ fst out <> Starved
  /\ (forall meta written,
        fst out = Returned (meta, written) ->
        length (snd out) = 2%nat /\ m_requestsMade meta = Z.of_nat (length (snd out)))
  /\ (forall e, fst out = Raised e -> (length (snd out) <= 1)%nat)
  /\ (Forall (parses Sample.json_loads Sample.snapshots_args)
             (flat_map rows_of_page [Sample.ordered_page]) ->
      advancing Sample.json_loads Sample.snapshots_args None [Sample.ordered_page] ->
      exists meta written, fst out = Returned (meta, written)).
Proof.
  apply (pagination_stops_at_first_empty_page Sample.json_loads Sample.snapshots_args
           (map serve ([Sample.ordered_page] ++ EmptyString :: [Sample.snapshot 1]))
           [Sample.ordered_page] EmptyString [Sample.snapshot 1]).
  - apply serve_serves.
  - constructor; [|constructor]. intros H. vm_compute in H. discriminate.
  - reflexivity.
Defined.


(** C2, counterexample.  Three pages, of which the third has no rows; the
    second ends with the id 3 when the cursor stands at 5: the run raises at
    the second page and never returns. *)
Lemma termination_claim_fails_on_stalled_cursor :
  ~ termination_claim Sample.json_loads Sample.snapshots_args Sample.stalled_pages.
Proof.
  intros H.
  destruct (H (map serve Sample.stalled_pages) [Sample.snapshot 5; Sample.snapshot 3]
              EmptyString [])
    as (meta & written & urls & Hrun & _).
  - reflexivity.
  - constructor; [|constructor; [|constructor]]; intros E; vm_compute in E; discriminate.
  - reflexivity.
  - apply serve_serves.
  - vm_compute in Hrun. discriminate.
Qed.

(** C3, counterexample.  A page whose only row has the id [true]: read as the
    specification words it, no row carries an integer id and the run should
    raise; the loop takes [True] as the cursor and goes on. *)
Lemma cursor_claim_fails_on_boolean_id :
  ~ cursor_claim Sample.json_loads_with_true Sample.snapshots_args json_integer.
Proof.
  intros H.
  destruct (H initial (serve Sample.true_row) Sample.true_row []) as [_ Hraise].
  - apply serve_delivers.
  - intros E. vm_compute in E. discriminate.
  - constructor; [|constructor]. eexists. vm_compute. reflexivity.
  - destruct Hraise as [e He]; [left; vm_compute; reflexivity|].
    vm_compute in He. discriminate.
Qed.

(** The cursor stands at 5 and the page ends with id 3. *)
Lemma cursor_must_advance_witness :
  exists last_id,
    int_val last_id = 3
    /\ export_loop Sample.json_loads Sample.snapshots_args
         [serve (Sample.snapshot 3)] Sample.state_at_5
       = (Raised (RuntimeError ("Pagination did not advance for /api/exports/snapshots"
                                +:+ ": afterId=5 lastId=" +:+ str_int last_id)),
          [page_url Sample.snapshots_args (Some (Int 5))]).
Proof.
  destruct (cursor_must_advance Sample.json_loads Sample.snapshots_args
              Sample.state_at_5 (serve (Sample.snapshot 3)) (Sample.snapshot 3) [])
    as (_ & _ & H & _).
  - apply serve_delivers.
  - intros H. vm_compute in H. discriminate.
  - constructor; [|constructor]. eexists. vm_compute. reflexivity.
  - apply (H (Int 5) 3).
    + reflexivity.
    + vm_compute. reflexivity.
    + vm_compute. discriminate.
Defined.

End ExporterFacts.

(** ** The builder *)

Module BuildFacts.
Import Http Exporter Build BuildSpec.

(** C5, counterexample.  The API answers [maxLimit = 0] and the caller asks
    for 10000 rows per request: the exports are called with 10000, and
    [min(10000, 0)] is 0. *)
Lemma page_size_claim_fails_on_zero_max_limit :
  ~ page_size_claim BuildSample.int_of_str BuildSample.args (BuildSample.capability 0) 0.
Proof.
  intros H.
  destruct (H eq_refl _ _ eq_refl) as [H1 _].
  vm_compute in H1. discriminate.
Qed.

(** C5 (as amended).  When exports are enabled and [maxLimit] is an integer,
    both exports are called with the same page size: [min(requested,
    maxLimit)] when [maxLimit] is not 0, and the requested limit when it
    is 0. *)
Theorem page_size_is_min_unless_zero (int_of_str : string -> result Z) (args : cli)
    (doc : gmap string value) (max_limit : Z) (enabled : value) :
  doc !! "maxLimit" = Some (VInt max_limit) ->
  doc !! "enabled" = Some enabled ->
  truthy enabled = true ->
  exists snap chg,
    plan int_of_str args (VDict doc) = Ok (snap, chg)
    /\ limit snap = (if max_limit =? 0 then arg_limit args
                     else Z.min (arg_limit args) max_limit)
    /\ limit chg = limit snap
    /\ path snap = "/api/exports/snapshots"
    /\ path chg = "/api/exports/changes".
Proof.
  intros Hmax Hen Ht. unfold plan, negotiated_limit, obj_get.
  rewrite Hen, Hmax. cbn [default from_option bind]. unfold id. rewrite Ht. cbn [negb].
  unfold py_or. cbn [truthy]. destruct (max_limit =? 0) eqn:Hz; cbn [negb py_int bind].
  - eexists _, _. split; [reflexivity|]. cbn [limit snapshots_call changes_call path].
    repeat split. apply Z.min_id.
  - eexists _, _. split; [reflexivity|]. cbn [limit snapshots_call changes_call path].
    repeat split.
Qed.

(** [--limit 10000] against [maxLimit = 500]. *)
Lemma page_size_witness :
  exists snap chg,
    plan BuildSample.int_of_str BuildSample.args (VDict (BuildSample.capability 500))
    = Ok (snap, chg)
    /\ limit snap = (if 500 =? 0 then arg_limit BuildSample.args
                     else Z.min (arg_limit BuildSample.args) 500)
    /\ limit chg = limit snap
    /\ path snap = "/api/exports/snapshots"
    /\ path chg = "/api/exports/changes".
Proof.
  apply (page_size_is_min_unless_zero BuildSample.int_of_str BuildSample.args
           (BuildSample.capability 500) 500 (VBool true)).
  - vm_compute. reflexivity.
  - vm_compute. reflexivity.
  - reflexivity.
Defined.

(** C9.  The call of line 95 passes [mtime] to [gzip.open], which has no such
    parameter: every call of the exporter raises [TypeError] before it
    requests a page, and no build returns a bundle. *)
Theorem export_sink_never_opens (json_loads : string -> result value)
    (int_of_str : string -> result Z) (sha256_hex : string -> string)
    (gzip_file : string -> string -> string) (json_dumps : manifest -> string) :
  (forall a server,
     _download_export_to_gzip_jsonl json_loads a server
     = (Raised (TypeError "open() got an unexpected keyword argument 'mtime'"), []))
  /\ (forall args now exports_net snapshots_server changes_server b,
        main json_loads int_of_str sha256_hex gzip_file json_dumps args now exports_net
             snapshots_server changes_server <> Returned b).
Proof.
  assert (Hd : forall a server,
             _download_export_to_gzip_jsonl json_loads a server
             = (Raised (TypeError "open() got an unexpected keyword argument 'mtime'"), []))
    by reflexivity.
  split; [exact Hd|].
  intros args now exports_net snapshots_server changes_server b. unfold main.
  destruct (fst (_http_json _ _ _ _)) as [doc|e]; [|discriminate].
  destruct (plan int_of_str args doc) as [[snap chg]|e]; [|discriminate].
  rewrite Hd. discriminate.
Qed.

(** A build against an API that enables exports and serves three snapshots:
    it stops at the first [gzip.open]. *)
Example sample_build_raises :
  main Sample.json_loads BuildSample.int_of_str ValidateSample.digest
    (fun _ written => written) (fun _ => EmptyString) BuildSample.args
    "2026-01-01T00:00:00+00:00" (serve (Sample.row "enabled" 1))
    [serve Sample.ordered_page; serve EmptyString] [serve EmptyString]
  = Raised (TypeError "open() got an unexpected keyword argument 'mtime'").
Proof. vm_compute. reflexivity. Qed.

End BuildFacts.

(** ** The validator *)

Module ValidateFacts.
Import Validate ValidateSpec StringFacts.

Section Parse.

Variable meta : gmap string value.
Variable name_ : string.

Lemma req_str_ok k s : req_str meta name_ k = Ok s <-> text_field meta k s.
Proof.
  unfold req_str, _require, text_field. split.
  - destruct (meta !! k) as [v|]; cbn [bind]; [|discriminate].
    destruct v; cbn [isinstance_str]; try discriminate.
    destruct (is_empty (strip str_isspace s0)) eqn:He; [discriminate|].
    intros [= <-]. exists s0. split; [reflexivity|]. split; [reflexivity|].
    now apply is_empty_false.
  - intros (raw & -> & <- & Hne). cbn [bind isinstance_str].
    apply is_empty_false in Hne. now rewrite Hne.
Qed.

Lemma req_int_ok k i : req_int meta name_ k = Ok i <-> int_field meta k i.
Proof.
  unfold req_int, _require, int_field. split.
  - destruct (meta !! k) as [v|]; cbn [bind]; [|discriminate].
    destruct v; cbn [isinstance_int]; try discriminate; intros [= <-].
    + right. eexists. split; reflexivity.
    + left. eexists. split; reflexivity.
  - intros [(z & -> & ->)|(b & -> & ->)]; reflexivity.
Qed.

Lemma opt_int_ok k o : opt_int meta name_ k = Ok o <-> opt_int_field meta k o.
Proof.
  unfold opt_int, opt_int_field, int_field. split.
  - destruct (meta !! k) as [v|]; cbn [default from_option]; unfold id.
    + destruct v; cbn [isinstance_int]; try discriminate.
      * intros [= <-]. now right.
      * intros [= <-]. right. eexists. split; reflexivity.
      * intros [= <-]. left. eexists. split; reflexivity.
    + intros [= <-]. now left.
  - destruct o as [i|].
    + intros [(z & -> & ->)|(b & -> & ->)]; reflexivity.
    + intros [->| ->]; reflexivity.
Qed.

Lemma req_bool_ok k b : req_bool meta name_ k = Ok b <-> bool_field meta k b.
Proof.
  unfold req_bool, _require, bool_field. split.
  - destruct (meta !! k) as [v|]; cbn [bind]; [|discriminate].
    destruct v; cbn [isinstance_bool]; try discriminate. now intros [= <-].
  - intros ->. reflexivity.
Qed.


Lemma check_invariants_ok (r : pyint) (mn mx : option pyint) (rq lm : pyint) :
  check_invariants name_ r mn mx rq lm = Ok tt
  <-> invariants {| name := name_; filename := EmptyString; sha256 := EmptyString;
                    rows := r; min_id := mn; max_id := mx; requests_made := rq;
                    limit_per_request := lm; truncated := false |}.
Proof.
  unfold check_invariants, invariants.
  cbn [rows min_id max_id requests_made limit_per_request].
  destruct (int_val r <? 0) eqn:Hneg.
  { split; [discriminate|]. intros (H & _). lia. }
  destruct (int_val r =? 0) eqn:Hz.
  - destruct mn as [lo|], mx as [hi|]; cbn [bind];
      try (split; [discriminate | intros (_ & H & _); destruct H as [? ?]; [lia | congruence]]).
    destruct (int_val lm <=? 0) eqn:Hl;
      [split; [discriminate | intros (_ & _ & _ & H & _); lia]|].
    destruct (int_val rq <=? 0) eqn:Hq;
      [split; [discriminate | intros (_ & _ & _ & _ & H); lia]|].
    split; [|reflexivity]. intros _.
    split; [lia|]. split; [intros _; split; reflexivity|].
    split; [intros; lia|]. split; lia.
  - destruct mn as [lo|], mx as [hi|]; cbn [bind];
      try (split; [discriminate
                  | intros (_ & _ & H & _); destruct H as (? & ? & ? & ? & _); [lia | congruence]]).
    destruct (int_val hi <? int_val lo) eqn:Hlt.
    { cbn [bind]. split; [discriminate|].
      intros (_ & _ & H & _). destruct H as (lo' & hi' & [= <-] & [= <-] & ? & _); lia. }
    destruct (int_val rq <? 1) eqn:Hq1.
    { cbn [bind]. split; [discriminate|].
      intros (_ & _ & H & _). destruct H as (lo' & hi' & _ & _ & _ & ?); lia. }
    cbn [bind].
    destruct (int_val lm <=? 0) eqn:Hl;
      [split; [discriminate | intros (_ & _ & _ & H & _); lia]|].
    destruct (int_val rq <=? 0) eqn:Hq;
      [split; [discriminate | intros (_ & _ & _ & _ & H); lia]|].
    split; [|reflexivity]. intros _.
    split; [lia|]. split; [intros; lia|].
    split; [intros _; exists lo, hi; repeat split; lia|]. split; lia.
Qed.

Lemma parse_artifact_ok (art : Artifact) :
  _parse_artifact meta name_ = Ok art <-> well_typed meta name_ art /\ invariants art.
Proof.
  unfold _parse_artifact, well_typed. split.
  - destruct (req_str meta name_ "filename") as [fn|] eqn:H1; cbn [bind]; [|discriminate].
    destruct (req_str meta name_ "sha256") as [sh|] eqn:H2; cbn [bind]; [|discriminate].
    destruct (req_int meta name_ "rows") as [r|] eqn:H3; cbn [bind]; [|discriminate].
    destruct (opt_int meta name_ "minId") as [mn|] eqn:H4; cbn [bind]; [|discriminate].
    destruct (opt_int meta name_ "maxId") as [mx|] eqn:H5; cbn [bind]; [|discriminate].
    destruct (req_int meta name_ "requestsMade") as [rq|] eqn:H6; cbn [bind]; [|discriminate].
    destruct (req_int meta name_ "limitPerRequest") as [lm|] eqn:H7; cbn [bind]; [|discriminate].
    destruct (req_bool meta name_ "truncated") as [tr|] eqn:H8; cbn [bind]; [|discriminate].
    destruct (check_invariants name_ r mn mx rq lm) as [[]|] eqn:H9; cbn [bind]; [|discriminate].
    intros [= <-]. cbn [name filename sha256 rows min_id max_id requests_made
                        limit_per_request truncated].
    apply req_str_ok in H1, H2. apply req_int_ok in H3, H6, H7.
    apply opt_int_ok in H4, H5. apply req_bool_ok in H8. apply check_invariants_ok in H9.
    split; [|exact H9].
    repeat (split; [first [reflexivity | assumption]|]). assumption.
  - intros [(Hn & H1 & H2 & H3 & H4 & H5 & H6 & H7 & H8) Hinv].
    apply req_str_ok in H1, H2. apply req_int_ok in H3, H6, H7.
    apply opt_int_ok in H4, H5. apply req_bool_ok in H8.
    rewrite H1, H2, H3, H4, H5, H6, H7, H8. cbn [bind].
    assert (H9 : check_invariants name_ (rows art) (min_id art) (max_id art)
                   (requests_made art) (limit_per_request art) = Ok tt).
    { apply check_invariants_ok. exact Hinv. }
    rewrite H9. cbn [bind]. destruct art; cbn in *. now subst.
Qed.


Local Abbreviation read_ok := (ValidateSpec.read_ok meta name_).
Local Abbreviation read_fault := (ValidateSpec.read_fault meta name_).

Lemma field_ok_read f : field_ok meta f <-> read_ok f.
Proof.
  destruct f as [k []]; unfold field_ok, ValidateSpec.read_ok; cbn [fst snd];
    split; intros [x Hx]; exists x;
    first [apply req_str_ok | apply req_int_ok | apply opt_int_ok | apply req_bool_ok];
    exact Hx.
Qed.

Lemma read_cases f : read_ok f \/ read_fault f (ValueError (fault_message meta name_ f)).
Proof.
  destruct f as [k []]; unfold ValidateSpec.read_ok, ValidateSpec.read_fault, fault_message; cbn [fst snd].
  - unfold req_str, _require, field. rewrite !append_assoc.
    destruct (meta !! k) as [v|]; cbn [bind].
    + destruct v as [| | | |raw| |]; cbn [isinstance_str]; try (now right).
      destruct (is_empty (strip str_isspace raw)); [now right|]. left. now eexists.
    + now right.
  - unfold req_int, _require, field. rewrite !append_assoc.
    destruct (meta !! k) as [v|]; cbn [bind].
    + destruct v; cbn [isinstance_int]; try (now right); left; now eexists.
    + now right.
  - unfold opt_int, field. rewrite !append_assoc.
    destruct (meta !! k) as [v|]; cbn [default from_option]; unfold id.
    + destruct v; cbn [isinstance_int]; try (now right); left; now eexists.
    + left. now eexists.
  - unfold req_bool, _require, field. rewrite !append_assoc.
    destruct (meta !! k) as [v|]; cbn [bind].
    + destruct v; cbn [isinstance_bool]; try (now right); left; now eexists.
    + now right.
Qed.

Lemma read_exclusive f e : read_ok f -> read_fault f e -> False.
Proof.
  destruct f as [k []]; unfold ValidateSpec.read_ok, ValidateSpec.read_fault; cbn [fst snd];
    intros [x Hx] He; congruence.
Qed.

Lemma read_fault_message f e :
  read_fault f e -> ~ field_ok meta f /\ e = ValueError (fault_message meta name_ f).
Proof.
  intros He. split.
  - intros Hok. apply field_ok_read in Hok. exact (read_exclusive _ _ Hok He).
  - destruct (read_cases f) as [Hok|Hf]; [destruct (read_exclusive _ _ Hok He)|].
    destruct f as [k []]; unfold ValidateSpec.read_fault in *; cbn [fst snd] in *; congruence.
Qed.

Lemma field_fault_read f :
  ~ field_ok meta f -> read_fault f (ValueError (fault_message meta name_ f)).
Proof.
  intros Hno. destruct (read_cases f) as [Hok|Hf]; [|exact Hf].
  destruct Hno. now apply field_ok_read.
Qed.

(** The first member that is not as asked stops the parser, with the
    message on this member. *)
Lemma first_fault_raises done f rest :
  schema = done ++ f :: rest ->
  Forall (field_ok meta) done ->
  ~ field_ok meta f ->
  _parse_artifact meta name_ = Raise (ValueError (fault_message meta name_ f)).
Proof.
  intros Hs Hdone Hf. apply field_fault_read in Hf.
  unfold schema in Hs. unfold _parse_artifact.
  repeat (destruct done as [|g done];
          [ cbn [app] in Hs; injection Hs as <- <-;
            unfold ValidateSpec.read_fault in Hf; cbn [fst snd] in Hf; rewrite Hf; reflexivity
          | cbn [app] in Hs; injection Hs as <- Hs;
            apply Forall_cons in Hdone as [Hg Hdone];
            apply field_ok_read in Hg; unfold ValidateSpec.read_ok in Hg; cbn [fst snd] in Hg;
            destruct Hg as [? Hg]; rewrite Hg; cbn [bind]; clear Hg ]).
  destruct done; cbn [app] in Hs; discriminate Hs.
Qed.

Lemma well_typed_reads (art : Artifact) :
  well_typed meta name_ art ->
  _parse_artifact meta name_
  = (_ <- check_invariants name_ (rows art) (min_id art) (max_id art)
            (requests_made art) (limit_per_request art) ;;
     Ok art).
Proof.
  intros (Hn & H1 & H2 & H3 & H4 & H5 & H6 & H7 & H8).
  apply req_str_ok in H1, H2. apply req_int_ok in H3, H6, H7.
  apply opt_int_ok in H4, H5. apply req_bool_ok in H8.
  unfold _parse_artifact. rewrite H1, H2, H3, H4, H5, H6, H7, H8. cbn [bind].
  destruct art; cbn in *. now subst.
Qed.

Lemma check_invariants_broken (art : Artifact) msg :
  broken name_ art msg ->
  check_invariants name_ (rows art) (min_id art) (max_id art)
    (requests_made art) (limit_per_request art) = Raise (ValueError msg).
Proof.
  assert (Hids : ids_in_order art ->
            ~ int_val (rows art) < 0
            /\ (if int_val (rows art) =? 0
                then match min_id art, max_id art with
                     | None, None => Ok tt
                     | _, _ =>
                         Raise (ValueError ("artifacts." +:+ name_
                                  +:+ " has rows=0 but minId/maxId are not null (minId="
                                  +:+ str_opt_int (min_id art) +:+ ", maxId="
                                  +:+ str_opt_int (max_id art) +:+ ")"))
                     end
                else match min_id art, max_id art with
                     | Some lo, Some hi =>
                         if int_val hi <? int_val lo
                         then Raise (ValueError (field name_ "minId" +:+ " must be <= maxId"))
                         else if int_val (requests_made art) <? 1
                         then Raise (ValueError (field name_ "requestsMade"
                                                 +:+ " must be >= 1 when rows>0"))
                         else Ok tt
                     | _, _ =>
                         Raise (ValueError ("artifacts." +:+ name_
                                            +:+ " has rows>0 but minId/maxId are null"))
                     end) = Ok tt).
  { intros [(Hz & -> & ->)|(Hpos & lo & hi & -> & -> & Hle & Hrq)].
    - split; [lia|]. rewrite Hz. reflexivity.
    - split; [lia|].
      destruct (Z.eqb_spec (int_val (rows art)) 0); [lia|].
      destruct (Z.ltb_spec (int_val hi) (int_val lo)); [lia|].
      destruct (Z.ltb_spec (int_val (requests_made art)) 1); [lia|]. reflexivity. }
  unfold check_invariants, field in *.
  intros [Hneg|Hz Hsome|Hpos Hnone|lo hi Hpos Hlo Hhi Hlt|lo hi Hpos Hlo Hhi Hle Hrq
          |Hord Hlm|Hord Hlm Hrq].
  - destruct (Z.ltb_spec (int_val (rows art)) 0); [now rewrite ?append_assoc|lia].
  - destruct (Z.ltb_spec (int_val (rows art)) 0); [lia|].
    rewrite Hz. cbn [Z.eqb].
    destruct (min_id art), (max_id art); cbn [bind]; try (now rewrite ?append_assoc).
    destruct Hsome; congruence.
  - destruct (Z.ltb_spec (int_val (rows art)) 0); [lia|].
    destruct (Z.eqb_spec (int_val (rows art)) 0); [lia|].
    destruct (min_id art), (max_id art); cbn [bind]; try (now rewrite ?append_assoc).
    destruct Hnone; congruence.
  - destruct (Z.ltb_spec (int_val (rows art)) 0); [lia|].
    destruct (Z.eqb_spec (int_val (rows art)) 0); [lia|].
    rewrite Hlo, Hhi.
    destruct (Z.ltb_spec (int_val hi) (int_val lo)); [now rewrite ?append_assoc|lia].
  - destruct (Z.ltb_spec (int_val (rows art)) 0); [lia|].
    destruct (Z.eqb_spec (int_val (rows art)) 0); [lia|].
    rewrite Hlo, Hhi.
    destruct (Z.ltb_spec (int_val hi) (int_val lo)); [lia|].
    destruct (Z.ltb_spec (int_val (requests_made art)) 1); [now rewrite ?append_assoc|lia].
  - destruct (Hids Hord) as [Hnn ->]. cbn [bind].
    destruct (Z.ltb_spec (int_val (rows art)) 0); [lia|].
    destruct (Z.leb_spec (int_val (limit_per_request art)) 0); [now rewrite ?append_assoc|lia].
  - destruct (Hids Hord) as [Hnn ->]. cbn [bind].
    destruct (Z.ltb_spec (int_val (rows art)) 0); [lia|].
    destruct (Z.leb_spec (int_val (limit_per_request art)) 0); [lia|].
    destruct (Z.leb_spec (int_val (requests_made art)) 0); [now rewrite ?append_assoc|lia].
Qed.

(** Values that do not meet the invariants break one of them. *)
Lemma broken_or_invariants (art : Artifact) :
  invariants art \/ exists msg, broken name_ art msg.
Proof.
  destruct (Z.lt_trichotomy (int_val (rows art)) 0) as [Hneg|[Hz|Hpos]].
  { right. eexists. now apply rows_negative. }
  - destruct (min_id art) as [lo|] eqn:Hlo.
    { right. eexists. apply ids_on_empty; [exact Hz|]. left. congruence. }
    destruct (max_id art) as [hi|] eqn:Hhi.
    { right. eexists. apply ids_on_empty; [exact Hz|]. right. congruence. }
    assert (Hord : ids_in_order art) by (left; auto).
    destruct (Z.le_gt_cases (int_val (limit_per_request art)) 0) as [Hlm|Hlm].
    { right. eexists. now apply limit_not_positive. }
    destruct (Z.le_gt_cases (int_val (requests_made art)) 0) as [Hrq|Hrq].
    { right. eexists. apply requests_not_positive; [exact Hord|lia|exact Hrq]. }
    left. unfold invariants. rewrite Hlo, Hhi.
    split; [lia|]. split; [auto|]. split; [intros; lia|]. split; lia.
  - destruct (min_id art) as [lo|] eqn:Hlo;
      [|right; eexists; apply ids_missing; [exact Hpos|left; exact Hlo]].
    destruct (max_id art) as [hi|] eqn:Hhi;
      [|right; eexists; apply ids_missing; [exact Hpos|right; exact Hhi]].
    destruct (Z.lt_ge_cases (int_val hi) (int_val lo)) as [Hlt|Hle].
    { right. eexists. eapply ids_reversed; eauto. }
    destruct (Z.lt_ge_cases (int_val (requests_made art)) 1) as [Hrq|Hrq].
    { right. eexists. eapply rows_without_request; eauto. }
    assert (Hord : ids_in_order art).
    { right. split; [exact Hpos|]. exists lo, hi. auto. }
    destruct (Z.le_gt_cases (int_val (limit_per_request art)) 0) as [Hlm|Hlm].
    { right. eexists. now apply limit_not_positive. }
    left. unfold invariants. rewrite Hlo, Hhi.
    split; [lia|]. split; [intros; lia|].
    split; [intros _; exists lo, hi; auto|]. split; lia.
Qed.

Lemma broken_raises (art : Artifact) msg :
  well_typed meta name_ art -> broken name_ art msg ->
  _parse_artifact meta name_ = Raise (ValueError msg).
Proof.
  intros Hwt Hb. rewrite (well_typed_reads art Hwt).
  now rewrite (check_invariants_broken art msg Hb).
Qed.

(** Every error of the parser is one of these two. *)
Lemma raise_described e :
  _parse_artifact meta name_ = Raise e ->
  (exists done f rest,
     schema = done ++ f :: rest /\ Forall (field_ok meta) done /\ ~ field_ok meta f
     /\ e = ValueError (fault_message meta name_ f))
  \/ (exists art msg,
        well_typed meta name_ art /\ broken name_ art msg /\ e = ValueError msg).
Proof.
  intros He.
  assert (Hstep : forall done f rest,
            schema = done ++ f :: rest -> Forall (field_ok meta) done ->
            field_ok meta f
            \/ exists done f rest,
                 schema = done ++ f :: rest /\ Forall (field_ok meta) done
                 /\ ~ field_ok meta f).
  { intros done f rest Hs Hdone.
    destruct (read_cases f) as [Hok|Hf].
    - left. now apply field_ok_read.
    - right. exists done, f, rest. split; [exact Hs|]. split; [exact Hdone|].
      now apply read_fault_message in Hf. }
  assert (Hfault : (exists done f rest,
                      schema = done ++ f :: rest /\ Forall (field_ok meta) done
                      /\ ~ field_ok meta f)
                   -> exists done f rest,
                        schema = done ++ f :: rest /\ Forall (field_ok meta) done
                        /\ ~ field_ok meta f
                        /\ e = ValueError (fault_message meta name_ f)).
  { intros (done & f & rest & Hs & Hdone & Hf). exists done, f, rest.
    split; [exact Hs|]. split; [exact Hdone|]. split; [exact Hf|].
    rewrite (first_fault_raises done f rest Hs Hdone Hf) in He. congruence. }
  destruct (Hstep [] _ _ eq_refl (Forall_nil_2 _)) as [H1|H]; [|left; auto].
  destruct (Hstep [_] _ _ eq_refl ltac:(repeat constructor; assumption)) as [H2|H];
    [|left; auto].
  destruct (Hstep [_; _] _ _ eq_refl ltac:(repeat constructor; assumption)) as [H3|H];
    [|left; auto].
  destruct (Hstep [_; _; _] _ _ eq_refl ltac:(repeat constructor; assumption)) as [H4|H];
    [|left; auto].
  destruct (Hstep [_; _; _; _] _ _ eq_refl ltac:(repeat constructor; assumption))
    as [H5|H]; [|left; auto].
  destruct (Hstep [_; _; _; _; _] _ _ eq_refl ltac:(repeat constructor; assumption))
    as [H6|H]; [|left; auto].
  destruct (Hstep [_; _; _; _; _; _] _ _ eq_refl ltac:(repeat constructor; assumption))
    as [H7|H]; [|left; auto].
  destruct (Hstep [_; _; _; _; _; _; _] _ _ eq_refl ltac:(repeat constructor; assumption))
    as [H8|H]; [|left; auto].
  right. unfold field_ok in *. cbn [fst snd] in *.
  destruct H1 as [fn H1], H2 as [sh H2], H3 as [r H3], H4 as [mn H4], H5 as [mx H5],
    H6 as [rq H6], H7 as [lm H7], H8 as [tr H8].
  set (art := {| name := name_; filename := fn; sha256 := sh; rows := r; min_id := mn;
                 max_id := mx; requests_made := rq; limit_per_request := lm;
                 truncated := tr |}).
  assert (Hwt : well_typed meta name_ art).
  { unfold well_typed, art. cbn. repeat split; assumption. }
  destruct (broken_or_invariants art) as [Hinv|[msg Hb]].
  - assert (Hok : _parse_artifact meta name_ = Ok art) by (apply parse_artifact_ok; auto).
    congruence.
  - exists art, msg. split; [exact Hwt|]. split; [exact Hb|].
    rewrite (broken_raises art msg Hwt Hb) in He. congruence.
Qed.

End Parse.

(** C6 (as amended).  The parser returns an artifact exactly when the object
    has the members with the types asked for, an integer member holding a
    JSON integer or a JSON boolean, and the values satisfy the invariants, and
    the artifact holds these values; it raises exactly when the object
    violates one of these requirements.  The error is a [ValueError] on the
    first requirement violated: for a member, in the order [filename],
    [sha256], [rows], [minId], [maxId], [requestsMade], [limitPerRequest],
    [truncated], the message is [manifest missing required field: <key>] when
    a required member is absent and [artifacts.<name>.<key> must be ...] when
    it has the wrong type; for an invariant it is the message of that
    invariant; and the parser raises nothing else. *)
Theorem parse_artifact_schema (meta : gmap string value) (name_ : string) :
  (forall art,
     _parse_artifact meta name_ = Ok art <-> well_typed meta name_ art /\ invariants art)
  /\ ((exists e, _parse_artifact meta name_ = Raise e) <-> ~ valid_artifact meta name_)
  /\ (forall done f rest,
        schema = done ++ f :: rest ->
        Forall (field_ok meta) done ->
        ~ field_ok meta f ->
        _parse_artifact meta name_ = Raise (ValueError (fault_message meta name_ f)))
  /\ (forall art msg,
        well_typed meta name_ art -> broken name_ art msg ->
        _parse_artifact meta name_ = Raise (ValueError msg))
  /\ (forall e,
        _parse_artifact meta name_ = Raise e ->
        (exists done f rest,
           schema = done ++ f :: rest /\ Forall (field_ok meta) done /\ ~ field_ok meta f
           /\ e = ValueError (fault_message meta name_ f))
        \/ (exists art msg,
              well_typed meta name_ art /\ broken name_ art msg /\ e = ValueError msg)).
Proof.
  split; [apply parse_artifact_ok|].
  split; [|split; [apply first_fault_raises|split; [apply broken_raises|apply raise_described]]].
  split.
  - intros [e He] (art & Hart). apply parse_artifact_ok in Hart. congruence.
  - intros Hno. destruct (_parse_artifact meta name_) as [art|e] eqn:Hp.
    + exfalso. apply Hno. exists art. now apply parse_artifact_ok.
    + now exists e.
Qed.

(** C6, counterexample.  An artifact object whose [requestsMade] is the JSON
    [true]: read as the specification words it, the member is not an integer
    and the parser should raise; the parser returns an artifact. *)
Lemma schema_claim_fails_on_boolean_count :
  ~ schema_claim ValidateSample.boolean_doc "snapshots".
Proof.
  intros [_ Hraise].
  destruct Hraise as [e He]; [|vm_compute in He; discriminate].
  intros (art & Hwt & _ & Hplain).
  destruct Hwt as (_ & _ & _ & _ & _ & _ & Hrq & _).
  destruct Hplain as (_ & _ & _ & [z Hz] & _).
  destruct Hrq as [(z' & Hl & _)|(b & _ & Hb)]; [|congruence].
  vm_compute in Hl. discriminate.
Qed.

(** C7.  Once the manifest and its two artifacts are read: without
    [--allow-truncated] a [truncated] artifact makes the validation fail, and
    without [--allow-empty] an artifact with [rows = 0] does; when neither
    check applies (the flag is set, or no artifact is concerned) the outcome
    is that of the checks on the files, which depends on the artifacts through
    their file names and digests only; a validation that succeeds on a
    truncated artifact ends its report with the line "WARNING:
    truncated=true (snapshots=<True or False>, changes=<True or False>)";
    and the report of a validation that succeeds without a truncated artifact
    has its five lines and no warning. *)
Theorem publish_policy_gate (json_loads : string -> result value)
    (sha256_hex repr : string -> string) (gunzip : string -> result string)
    (path_str : string -> string -> string) (fs : gmap string string) (args : cli)
    (manifest : gmap string value) (s c : Artifact) :
  load_manifest json_loads path_str fs args = Ok (manifest, s, c) ->
  let run := main json_loads sha256_hex repr gunzip path_str fs args in
  (allow_truncated args = false -> truncated s = true \/ truncated c = true ->
   exists msg, run = Raise (SystemExit msg))
  /\ (allow_empty args = false -> int_val (rows s) = 0 \/ int_val (rows c) = 0 ->
      exists msg, run = Raise (SystemExit msg))
  /\ (allow_truncated args = true \/ (truncated s = false /\ truncated c = false) ->
      allow_empty args = true \/ (int_val (rows s) <> 0 /\ int_val (rows c) <> 0) ->
      run = verify_and_report sha256_hex repr gunzip fs manifest s c)
  /\ (forall s' c',
        filename s' = filename s -> sha256 s' = sha256 s ->
        filename c' = filename c -> sha256 c' = sha256 c ->
        ((exists out, verify_and_report sha256_hex repr gunzip fs manifest s c = Ok out)
         <-> (exists out, verify_and_report sha256_hex repr gunzip fs manifest s' c' = Ok out)))
  /\ (forall out, run = Ok out -> truncated s = true \/ truncated c = true ->
      last out
      = Some ("WARNING: truncated=true (snapshots="
              +:+ (if truncated s then "True" else "False") +:+ ", changes="
              +:+ (if truncated c then "True" else "False") +:+ ")"))
  /\ (forall out, run = Ok out -> truncated s = false -> truncated c = false ->
      length out = 5%nat /\ Forall (fun line => ~ starts_with "WARNING" line) out).
Proof.
  intros Hload run.
  assert (Hrun : run = (_ <- publish_policy args s c ;;
                        verify_and_report sha256_hex repr gunzip fs manifest s c)).
  { subst run. unfold main. rewrite Hload. reflexivity. }
  split.
  { intros Hat Ht. rewrite Hrun. unfold publish_policy. rewrite Hat.
    assert (truncated s || truncated c = true) as ->
      by (destruct Ht as [-> | ->]; [reflexivity | apply orb_true_r]).
    cbn [negb andb bind]. eexists. reflexivity. }
  split.
  { intros Hae Hr. rewrite Hrun. unfold publish_policy. rewrite Hae.
    destruct (negb (allow_truncated args) && (truncated s || truncated c));
      [cbn [bind]; eexists; reflexivity|].
    assert ((int_val (rows s) =? 0) || (int_val (rows c) =? 0) = true) as ->.
    { destruct Hr as [Hr|Hr]; rewrite Hr; [reflexivity | apply orb_true_r]. }
    cbn [negb andb bind]. eexists. reflexivity. }
  split.
  { intros Ht He. rewrite Hrun. unfold publish_policy.
    assert (negb (allow_truncated args) && (truncated s || truncated c) = false) as ->.
    { destruct Ht as [-> | [-> ->]]; [reflexivity | apply andb_false_r]. }
    assert (negb (allow_empty args)
            && ((int_val (rows s) =? 0) || (int_val (rows c) =? 0)) = false) as ->.
    { destruct He as [-> | [H1 H2]]; [reflexivity|].
      apply Z.eqb_neq in H1, H2. rewrite H1, H2. apply andb_false_r. }
    reflexivity. }
  split.
  { intros s' c' Hf1 Hs1 Hf2 Hs2. unfold verify_and_report, check_artifact_file.
    rewrite Hf1, Hs1, Hf2, Hs2.
    split; intros [out H];
      destruct (fs !! filename s) as [cs|]; cbn [bind] in *; try discriminate;
      destruct (negb (String.eqb (sha256_hex cs) (sha256 s))); cbn [bind] in *;
        try discriminate;
      destruct (if endswith ".gz" (filename s) then _validate_gzip gunzip (filename s) cs
                else Ok tt); cbn [bind] in *; try discriminate;
      destruct (fs !! filename c) as [cc|]; cbn [bind] in *; try discriminate;
      destruct (negb (String.eqb (sha256_hex cc) (sha256 c))); cbn [bind] in *;
        try discriminate;
      destruct (if endswith ".gz" (filename c) then _validate_gzip gunzip (filename c) cc
                else Ok tt); cbn [bind] in *; try discriminate;
      destruct (_validate_sha256sums sha256_hex repr fs _); cbn [bind] in *;
        try discriminate;
      eexists; reflexivity. }
  assert (Hreport : forall out, run = Ok out -> out = report manifest s c).
  { intros out Hout. rewrite Hrun in Hout.
    destruct (publish_policy args s c); cbn [bind] in Hout; [|discriminate].
    unfold verify_and_report in Hout.
    destruct (check_artifact_file sha256_hex gunzip fs s); cbn [bind] in Hout;
      [|discriminate].
    destruct (check_artifact_file sha256_hex gunzip fs c); cbn [bind] in Hout;
      [|discriminate].
    destruct (_validate_sha256sums sha256_hex repr fs _); cbn [bind] in Hout;
      [|discriminate].
    now injection Hout as <-. }
  split.
  { intros out Hout Ht. rewrite (Hreport out Hout). unfold report.
    assert (truncated s || truncated c = true) as ->
      by (destruct Ht as [-> | ->]; [reflexivity | apply orb_true_r]).
    unfold warning_line, str_bool. reflexivity. }
  intros out Hout Hs Hc. rewrite (Hreport out Hout). unfold report.
  rewrite Hs, Hc. cbn [orb app length]. split; [reflexivity|].
  unfold summary_line.
  repeat (constructor; [intros [after E]; rewrite ?append_assoc in E;
                        rewrite !append_cons in E; discriminate E|]).
  constructor.
Qed.

(** ** The checksum listing *)

Lemma dict_set_agree (f k v : string) (d d' : list (string * string)) :
  agree_except f d d' -> agree_except f (dict_set k v d) (dict_set k v d').
Proof.
  induction 1 as [d|v1 v2 d|k1 v1 d d' Hne Hd IH]; cbn [dict_set].
  - apply agree_same.
  - destruct (String.eqb k f); [apply agree_same | apply agree_here].
  - destruct (String.eqb k k1) eqn:E.
    + apply String.eqb_eq in E. subst k1. now apply agree_later.
    + now apply agree_later.
Qed.

Lemma dict_set_merge (f v : string) (d d' : list (string * string)) :
  agree_except f d d' -> dict_set f v d = dict_set f v d'.
Proof.
  induction 1 as [d|v1 v2 d|k1 v1 d d' Hne _ IH]; cbn [dict_set].
  - reflexivity.
  - now rewrite String.eqb_refl.
  - assert (String.eqb f k1 = false) as -> by (apply String.eqb_neq; congruence).
    now rewrite IH.
Qed.

Section Listing.

Variable sha256_hex : string -> string.
Variable repr : string -> string.
Variable fs : gmap string string.

Local Abbreviation parse_line := (Validate.parse_line repr).
Local Abbreviation read_expected := (Validate.read_expected repr).
Local Abbreviation check_expected := (Validate.check_expected sha256_hex fs).

Lemma read_expected_app (l1 l2 : list string) :
  forall acc,
    read_expected (l1 ++ l2) acc
    = (expected <- read_expected l1 acc ;; read_expected l2 expected).
Proof.
  induction l1 as [|raw l1 IH]; intros acc; [reflexivity|].
  cbn [app Validate.read_expected].
  destruct (parse_line raw) as [[[f d]|]|e]; cbn [bind]; [apply IH | apply IH | reflexivity].
Qed.

(** Reading on from two dicts that differ at [f] only. *)
Lemma read_expected_agree (f : string) (lines : list string) :
  forall acc acc',
    agree_except f acc acc' ->
    match read_expected lines acc, read_expected lines acc' with
    | Ok e, Ok e' => agree_except f e e'
    | Raise x, Raise x' => x = x'
    | _, _ => False
    end.
Proof.
  induction lines as [|raw lines IH]; intros acc acc' H; cbn [Validate.read_expected].
  - exact H.
  - destruct (parse_line raw) as [[[k d]|]|e]; cbn [bind].
    + apply IH. now apply dict_set_agree.
    + now apply IH.
    + reflexivity.
Qed.

(** An earlier digest for a file named again later does not count. *)
Lemma read_expected_overridden (f d1 d1' d2 raw1 raw1' raw2 : string)
    (pre mid post : list string) :
  parse_line raw1 = Ok (Some (f, d1)) ->
  parse_line raw1' = Ok (Some (f, d1')) ->
  parse_line raw2 = Ok (Some (f, d2)) ->
  read_expected (pre ++ raw1 :: mid ++ raw2 :: post) []
  = read_expected (pre ++ raw1' :: mid ++ raw2 :: post) [].
Proof.
  intros H1 H1' H2. rewrite !read_expected_app.
  destruct (read_expected pre []) as [acc|e]; cbn [bind]; [|reflexivity].
  change (raw1 :: mid ++ raw2 :: post) with ([raw1] ++ mid ++ raw2 :: post).
  change (raw1' :: mid ++ raw2 :: post) with ([raw1'] ++ mid ++ raw2 :: post).
  rewrite !read_expected_app. cbn [Validate.read_expected]. rewrite H1, H1'. cbn [bind].
  rewrite !read_expected_app.
  pose proof (read_expected_agree f mid (dict_set f d1 acc) (dict_set f d1' acc)) as Hm.
  assert (Ha : agree_except f (dict_set f d1 acc) (dict_set f d1' acc)).
  { clear. induction acc as [|[k v] acc IH]; cbn [dict_set].
    - apply agree_here.
    - destruct (String.eqb f k) eqn:E.
      + apply String.eqb_eq in E. subst k. apply agree_here.
      + apply agree_later; [|exact IH]. apply String.eqb_neq in E. congruence. }
  specialize (Hm Ha).
  destruct (read_expected mid (dict_set f d1 acc)) as [e1|x1],
           (read_expected mid (dict_set f d1' acc)) as [e2|x2]; cbn [bind];
    try contradiction; [|now subst].
  cbn [Validate.read_expected]. rewrite H2. cbn [bind]. now rewrite (dict_set_merge f d2 e1 e2 Hm).
Qed.

Lemma dict_get_set_same (f d : string) (acc : list (string * string)) :
  dict_get f (dict_set f d acc) = Some d.
Proof.
  induction acc as [|[k v] acc IH]; cbn [dict_set dict_get].
  - now rewrite String.eqb_refl.
  - destruct (String.eqb f k) eqn:E; cbn [dict_get].
    + now rewrite String.eqb_refl.
    + rewrite E. exact IH.
Qed.

Lemma dict_get_set_other (f k d : string) (acc : list (string * string)) :
  k <> f -> dict_get f (dict_set k d acc) = dict_get f acc.
Proof.
  intros Hne. induction acc as [|[k1 v1] acc IH]; cbn [dict_set dict_get].
  - assert (String.eqb f k = false) as -> by (apply String.eqb_neq; congruence).
    reflexivity.
  - destruct (String.eqb k k1) eqn:E; cbn [dict_get].
    + apply String.eqb_eq in E. subst k1.
      assert (String.eqb f k = false) as -> by (apply String.eqb_neq; congruence).
      reflexivity.
    + destruct (String.eqb f k1); [reflexivity | exact IH].
Qed.

(** Lines that are silent on [f] leave its entry as it is. *)
Lemma read_expected_silent (f : string) (lines : list string) :
  forall acc expected,
    Forall (silent_on repr f) lines ->
    read_expected lines acc = Ok expected ->
    dict_get f expected = dict_get f acc.
Proof.
  induction lines as [|raw lines IH]; intros acc expected Hs H; cbn [Validate.read_expected] in H.
  - now injection H as <-.
  - inversion Hs as [|? ? Hraw Hrest]; subst.
    destruct (parse_line raw) as [[[k d]|]|e] eqn:Hp; cbn [bind] in H; [| |discriminate].
    + rewrite (IH _ _ Hrest H). apply dict_get_set_other. intros ->. exact (Hraw d Hp).
    + apply (IH _ _ Hrest H).
Qed.

(** Every entry of the dict is checked against the file it names. *)
Lemma check_expected_entry (f d : string) (expected : list (string * string)) :
  check_expected expected = Ok tt ->
  dict_get f expected = Some d ->
  exists content, fs !! f = Some content /\ sha256_hex content = d.
Proof.
  induction expected as [|[k v] expected IH]; cbn [Validate.check_expected dict_get];
    [discriminate|].
  destruct (fs !! k) as [content|] eqn:Hf; [|discriminate].
  destruct (String.eqb (sha256_hex content) v) eqn:Hs; cbn [negb]; [|discriminate].
  intros Hrest. destruct (String.eqb f k) eqn:E.
  - apply String.eqb_eq in E. subst k. intros [= <-]. exists content.
    split; [exact Hf|]. now apply String.eqb_eq.
  - now apply IH.
Qed.

End Listing.

(** C10.  When a file is named on two lines of the listing, the digest of the
    earlier line does not count: the validation gives the same result whatever
    that digest is; and when the later line is the last one for the file, a
    validation that passes has compared the file with the digest of that
    line. *)
Theorem last_digest_wins (sha256_hex repr : string -> string) (fs : gmap string string)
    (text text' : string) (pre mid post : list string)
    (raw1 raw1' raw2 f d1 d1' d2 : string) :
  parse_line repr raw1 = Ok (Some (f, d1)) ->
  parse_line repr raw1' = Ok (Some (f, d1')) ->
  parse_line repr raw2 = Ok (Some (f, d2)) ->
  splitlines text = pre ++ raw1 :: mid ++ raw2 :: post ->
  splitlines text' = pre ++ raw1' :: mid ++ raw2 :: post ->
  _validate_sha256sums sha256_hex repr fs text = _validate_sha256sums sha256_hex repr fs text'
  /\ (Forall (silent_on repr f) post ->
      _validate_sha256sums sha256_hex repr fs text = Ok tt ->
      exists content, fs !! f = Some content /\ sha256_hex content = d2).
Proof.
  intros H1 H1' H2 Ht Ht'. unfold _validate_sha256sums. rewrite Ht, Ht'.
  split.
  { now rewrite (read_expected_overridden repr f d1 d1' d2 raw1 raw1' raw2 pre mid post). }
  intros Hpost Hok.
  destruct (read_expected repr (pre ++ raw1 :: mid ++ raw2 :: post) []) as [expected|e] eqn:Hr;
    cbn [bind] in Hok; [|discriminate].
  assert (Hget : dict_get f expected = Some d2).
  { change (pre ++ raw1 :: mid ++ raw2 :: post)
      with (pre ++ raw1 :: mid ++ [raw2] ++ post) in Hr.
    rewrite app_comm_cons, !app_assoc in Hr. rewrite read_expected_app in Hr.
    destruct (read_expected repr (((pre ++ raw1 :: mid) ++ [raw2])) []) as [acc|e] eqn:Ha;
      cbn [bind] in Hr; [|discriminate].
    rewrite (read_expected_silent repr f post acc expected Hpost Hr).
    rewrite read_expected_app in Ha.
    destruct (read_expected repr (pre ++ raw1 :: mid) []) as [acc0|e] eqn:Ha0;
      cbn [bind] in Ha; [|discriminate].
    cbn [read_expected] in Ha. rewrite H2 in Ha. cbn [bind] in Ha.
    injection Ha as <-. apply dict_get_set_same. }
  destruct expected as [|entry expected]; [discriminate|].
  eapply check_expected_entry; [exact Hok | exact Hget].
Qed.

(** A listing whose first line gives a wrong digest for the snapshots file
    and whose last line gives the right one: it validates, as does the
    listing with the right digest on both lines. *)
Lemma last_digest_wins_witness :
  _validate_sha256sums ValidateSample.digest ValidateSample.repr ValidateSample.bundle_files
    ValidateSample.sums_text
  = _validate_sha256sums ValidateSample.digest ValidateSample.repr ValidateSample.bundle_files
      ValidateSample.sums_text'
  /\ _validate_sha256sums ValidateSample.digest ValidateSample.repr
       ValidateSample.bundle_files ValidateSample.sums_text = Ok tt
  /\ ValidateSample.digest ValidateSample.snapshots_content <> "len0".
Proof.
  destruct (last_digest_wins ValidateSample.digest ValidateSample.repr
              ValidateSample.bundle_files ValidateSample.sums_text ValidateSample.sums_text'
              []
              ["len8  healtharchive-changes.jsonl.gz"; "len8  manifest.json"]
              []
              "len0  healtharchive-snapshots.jsonl.gz"
              "len9  healtharchive-snapshots.jsonl.gz"
              "len9  healtharchive-snapshots.jsonl.gz"
              "healtharchive-snapshots.jsonl.gz" "len0" "len9" "len9") as [H _].
  - vm_compute. reflexivity.
  - vm_compute. reflexivity.
  - vm_compute. reflexivity.
  - vm_compute. reflexivity.
  - vm_compute. reflexivity.
  - split; [exact H|]. split; [vm_compute; reflexivity | vm_compute; discriminate].
Defined.

(** A bundle with a truncated artifact, validated with [--allow-truncated]. *)
Lemma publish_policy_gate_witness :
  exists out,
    main ValidateSample.json_loads ValidateSample.digest ValidateSample.repr
      ValidateSample.gunzip ValidateSample.path_str ValidateSample.bundle_files
      ValidateSample.smoke_test = Ok out
    /\ last out = Some "WARNING: truncated=true (snapshots=True, changes=False)".
Proof.
  destruct (publish_policy_gate ValidateSample.json_loads ValidateSample.digest
              ValidateSample.repr ValidateSample.gunzip ValidateSample.path_str
              ValidateSample.bundle_files ValidateSample.smoke_test
              ValidateSample.manifest_doc ValidateSample.snapshots_artifact
              ValidateSample.changes_artifact) as (_ & _ & H3 & _ & H5 & _).
  - vm_compute. reflexivity.
  - eexists. split.
    + rewrite H3.
      * vm_compute. reflexivity.
      * left. reflexivity.
      * right. split; vm_compute; discriminate.
    + apply (H5 _ ltac:(vm_compute; reflexivity)). left. reflexivity.
Defined.

End ValidateFacts.
(** ** The retry client: what is returned, and how long it sleeps *)

Module HttpMore.
Import Http HttpSpec HttpFacts ExtraSpec.

(** The loop returns the value of the first attempt that does not raise,
    among the attempts [0..R], when the sleeps before it returned. *)
Lemma retry_loop_first_success {A} (w : world) (body : nat -> result A) (R : Z) (v : A) :
  fst (retry_loop w body R (Z.to_nat (R + 1)) 0 None) = Return v
  <-> exists k,
        Z.of_nat k <= R /\ body k = Ok v
        /\ (forall j, (j < k)%nat -> fails body j)
        /\ sleeps_through w k.
Proof.
  destruct (retry_loop_run w body R (Z.to_nat (R + 1)) 0 None) as (m & Hs & Hm & Hf & Hr).
  { destruct (Z_le_gt_dec 0 (R + 1)); [right|left]; lia. }
  split.
  - intros E. rewrite E in Hr. destruct Hr as (j & -> & Hj). exists j.
    split; [lia|]. split; [exact Hj|]. split; [intros i Hi; apply Hf; lia|].
    intros i Hi.
    destruct (slept_sleeps w (S j) 0 _ Hs i) as [q Hq]; [lia|lia|].
    exists q. now apply sleep_backoff_ok.
  - intros (k & Hk & Hb & Hbefore & Hsl).
    destruct (fst (retry_loop w body R (Z.to_nat (R + 1)) 0 None)) as [v'|le|e].
    + destruct Hr as (j & -> & Hj). cbn [Nat.add] in Hj.
      destruct (lt_eq_lt_dec j k) as [[Hlt| ->]|Hgt].
      * destruct (Hbefore j Hlt) as [e He]. congruence.
      * congruence.
      * destruct (Hf k) as [e He]; [lia|lia|]. congruence.
    + exfalso. destruct Hr as [-> Hr].
      destruct (Z.to_nat (R + 1)) as [|j] eqn:Hn; [lia|].
      destruct Hr as (e & He & _). cbn [Nat.add] in He.
      destruct (Nat.eq_dec k j) as [->|Hne]; [congruence|].
      destruct (Hf k) as [e' He']; [lia|lia|]. congruence.
    + exfalso. destruct Hr as (j & -> & [e' He'] & _ & Hse). cbn [Nat.add] in *.
      destruct (lt_eq_lt_dec j k) as [[Hlt| ->]|Hgt].
      * destruct (Hsl j Hlt) as (q & Hq & Ht).
        assert (sleep_backoff w j = Ok q) by (apply sleep_backoff_ok; now split).
        congruence.
      * congruence.
      * destruct (Hf k) as [e'' He'']; [lia|lia|]. congruence.
Qed.

(** A client returns what its loop returned. *)
Lemma client_returns {A} (w : world) (body : nat -> result A) (R : Z) (msg : option exn -> string)
    (v : A) :
  fst (let '(r, evs) := retry_loop w body R (Z.to_nat (R + 1)) 0 None in
       match r with
       | Return x => (Ok x, evs)
       | Exhausted last_exc => (Raise (RuntimeError (msg last_exc)), evs)
       | Escaped e => (Raise e, evs)
       end) = Ok v
  <-> exists k,
        Z.of_nat k <= R /\ body k = Ok v
        /\ (forall j, (j < k)%nat -> fails body j)
        /\ sleeps_through w k.
Proof.
  rewrite <- retry_loop_first_success.
  destruct (retry_loop w body R (Z.to_nat (R + 1)) 0 None) as [[x|le|e] evs]; cbn [fst];
    split; congruence.
Qed.

(** [_http_ndjson_stream] hands out a body exactly when the request could be
    built and the body is that of the first response with status 200 among
    the attempts [0..R], the sleeps before it having returned: a response
    with another status is never handed out. *)
Theorem stream_is_first_200 (url : string) (R : Z) (net : world) (body : string) :
  fst (_http_ndjson_stream url R net) = Ok body
  <-> Request net url = Ok tt
      /\ exists k,
           Z.of_nat k <= R
           /\ net k = HttpResponse 200 body
           /\ (forall j, (j < k)%nat -> forall b, net j <> HttpResponse 200 b)
           /\ sleeps_through net k.
Proof.
  assert (Hfail : forall j, fails (fun a => stream_body url (net a)) j
                            <-> forall b, net j <> HttpResponse 200 b).
  { intros j. unfold fails. split.
    - intros [e He] b Hb.
      assert (stream_body url (net j) = Ok b) by (now apply stream_body_ok).
      congruence.
    - intros H. destruct (stream_body url (net j)) as [b|e] eqn:E; [|now exists e].
      apply stream_body_ok in E. destruct (H b E). }
  unfold _http_ndjson_stream.
  destruct (Request net url) as [[]|e0]; [|split; [discriminate | intros [? _]; discriminate]].
  rewrite client_returns. split.
  - intros (k & Hk & Hb & Hbefore & Hsl). split; [reflexivity|].
    exists k. split; [exact Hk|]. split; [apply stream_body_ok in Hb; exact Hb|].
    split; [|exact Hsl]. intros j Hj. now apply Hfail, Hbefore.
  - intros (_ & k & Hk & Hb & Hbefore & Hsl).
    exists k. split; [exact Hk|]. split; [now apply stream_body_ok|].
    split; [|exact Hsl]. intros j Hj. now apply Hfail, Hbefore.
Qed.

(** [_http_json] returns a document exactly when the request could be built
    and the document is the decoding of the first response among the
    attempts [0..R] that has status 200 and a payload that decodes, the
    sleeps before it having returned: a 200 response whose payload does not
    decode is tried again like any failure. *)
Theorem json_is_first_decodable_200 (json_loads : string -> result value)
    (url : string) (R : Z) (net : world) (v : value) :
  fst (_http_json json_loads url R net) = Ok v
  <-> Request net url = Ok tt
      /\ exists k payload,
           Z.of_nat k <= R
           /\ net k = HttpResponse 200 payload
           /\ json_loads payload = Ok v
           /\ (forall j, (j < k)%nat ->
                 forall p, net j = HttpResponse 200 p -> exists e, json_loads p = Raise e)
           /\ sleeps_through net k.
Proof.
  assert (Hfail : forall j, fails (fun a => json_body json_loads url (net a)) j
                            <-> forall p, net j = HttpResponse 200 p ->
                                          exists e, json_loads p = Raise e).
  { intros j. unfold fails. split.
    - intros [e He] p Hp. destruct (json_loads p) as [w|e'] eqn:E; [|now exists e'].
      assert (json_body json_loads url (net j) = Ok w)
        by (apply json_body_ok; now exists p).
      congruence.
    - intros H. destruct (json_body json_loads url (net j)) as [w|e] eqn:E; [|now exists e].
      apply json_body_ok in E. destruct E as (p & Hp & Hw).
      destruct (H p Hp) as [e He]. congruence. }
  unfold _http_json.
  destruct (Request net url) as [[]|e0]; [|split; [discriminate | intros [? _]; discriminate]].
  rewrite client_returns. split.
  - intros (k & Hk & Hb & Hbefore & Hsl). split; [reflexivity|].
    apply json_body_ok in Hb. destruct Hb as (p & Hp & Hv). exists k, p.
    split; [exact Hk|]. split; [exact Hp|]. split; [exact Hv|].
    split; [|exact Hsl]. intros j Hj. now apply Hfail, Hbefore.
  - intros (_ & k & p & Hk & Hp & Hv & Hbefore & Hsl).
    exists k. split; [exact Hk|]. split; [apply json_body_ok; now exists p|].
    split; [|exact Hsl]. intros j Hj. now apply Hfail, Hbefore.
Qed.

End HttpMore.

Module BackoffFacts.
Import Http HttpSpec HttpFacts ExtraSpec.

Lemma pause_S k : (pause (S k) == (3 # 2) * pause k)%Q.
Proof.
  unfold pause. rewrite Nat2Z.inj_succ. unfold Z.succ.
  rewrite Qpower_plus by discriminate. rewrite Qmult_comm. reflexivity.
Qed.

Lemma pause_pos k : (0 < pause k)%Q.
Proof. unfold pause. apply Qpower_0_lt. reflexivity. Qed.

Lemma pause_mono k m : (k <= m)%nat -> (pause k <= pause m)%Q.
Proof.
  induction 1 as [|m _ IH]; [apply Qle_refl|].
  eapply Qle_trans; [exact IH|]. rewrite pause_S.
  pose proof (pause_pos m) as Hp.
  lra.
Qed.

Lemma total_sleep_policy m : forall k evs,
  follows_policy k (S m) evs ->
  (total_sleep evs == 2 * pause (k + m) - 2 * pause k)%Q.
Proof.
  induction m as [|m IH]; intros k evs H.
  - cbn in H. subst. cbn [total_sleep]. rewrite Nat.add_0_r. ring.
  - cbn [follows_policy] in H. destruct H as (q & rest & -> & Hq & H).
    cbn [total_sleep]. rewrite (IH (S k) rest H), Hq.
    replace (k + S m)%nat with (S k + m)%nat by lia.
    rewrite (pause_S k). ring.
Qed.

Lemma total_sleep_bounded (R : Z) (m : nat) (evs : list event) :
  0 <= R -> Z.of_nat m <= Z.max 0 (R + 1) -> follows_policy 0 m evs ->
  (total_sleep evs <= 2 * pause (Z.to_nat R) - 2)%Q.
Proof.
  intros HR Hm H.
  destruct m as [|m].
  - cbn in H. subst. cbn [total_sleep].
    pose proof (pause_mono 0 (Z.to_nat R) ltac:(lia)) as Hp.
    change (pause 0) with 1%Q in Hp.
    lra.
  - rewrite (total_sleep_policy m 0 evs H). cbn [Nat.add].
    change (pause 0) with 1%Q.
    pose proof (pause_mono m (Z.to_nat R) ltac:(lia)) as Hp.
    lra.
Qed.

(** Whatever the network does, as far as the floats [1.5**attempt] are exact
    and slept without error (with binary64 floats, up to [R = 34]), a request
    with [R >= 0] retries sleeps at most [2 * 1.5^R - 2] seconds in total
    between its attempts (8.125 seconds for the default of 4 retries). *)
Theorem total_backoff_bounded (json_loads : string -> result value)
    (url : string) (R : Z) (net : world) :
  0 <= R ->
  exact_clock net (Z.to_nat R) ->
  (total_sleep (snd (_http_json json_loads url R net)) <= 2 * pause (Z.to_nat R) - 2)%Q
  /\ (total_sleep (snd (_http_ndjson_stream url R net)) <= 2 * pause (Z.to_nat R) - 2)%Q.
Proof.
  intros HR Hclock.
  assert (Hnone : (total_sleep [] <= 2 * pause (Z.to_nat R) - 2)%Q).
  { apply (total_sleep_bounded R 0 []); [exact HR | lia | reflexivity]. }
  assert (Hloop : forall A (body : nat -> result A),
            (total_sleep (snd (retry_loop net body R (Z.to_nat (R + 1)) 0 None))
             <= 2 * pause (Z.to_nat R) - 2)%Q).
  { intros A body.
    destruct (retry_loop_run net body R (Z.to_nat (R + 1)) 0 None) as (m & Hs & Hm & _).
    { right. lia. }
    apply (total_sleep_bounded R m); [exact HR | lia |].
    apply (slept_policy net (Z.to_nat R)); [exact Hclock | lia | exact Hs]. }
  split.
  - unfold _http_json. destruct (Request net url); [|exact Hnone].
    pose proof (Hloop _ (fun a => json_body json_loads url (net a))) as H.
    destruct (retry_loop net _ R (Z.to_nat (R + 1)) 0 None) as [[v|le|e] evs]; exact H.
  - unfold _http_ndjson_stream. destruct (Request net url); [|exact Hnone].
    pose proof (Hloop _ (fun a => stream_body url (net a))) as H.
    destruct (retry_loop net _ R (Z.to_nat (R + 1)) 0 None) as [[v|le|e] evs]; exact H.
Qed.

(** The default of four retries against a server that is always busy: the
    sleeps are 1, 1.5, 2.25 and 3.375 seconds. *)
Lemma total_backoff_witness :
  let net := ideal (fun _ => HttpResponse 503 EmptyString) in
  (total_sleep (snd (_http_json (fun _ => Raise (ValueError "bad json")) "u" default_retries
                       net))
   <= 2 * pause (Z.to_nat default_retries) - 2)%Q
  /\ (total_sleep (snd (_http_ndjson_stream "u" default_retries net))
      <= 2 * pause (Z.to_nat default_retries) - 2)%Q.
Proof.
  apply total_backoff_bounded.
  - unfold default_retries. lia.
  - intros j Hj. exists (Qpower (3 # 2) (Z.of_nat j)).
    split; [reflexivity|]. split; reflexivity.
Defined.

End BackoffFacts.

(** ** The exporter: the cursor, the dict of a run that returns, and aborts *)

Module ExporterMore.
Import Http HttpSpec Exporter ExporterSpec StringFacts HttpFacts ExporterFacts ExtraSpec.

Section Run.

Variable json_loads : string -> result value.
Variable a : export_args.

Local Abbreviation row_value := (ExporterSpec.row_value json_loads a).
Local Abbreviation row_id := (ExporterSpec.row_id json_loads a).
Local Abbreviation parses := (ExporterSpec.parses json_loads a).
Local Abbreviation usable_ids := (ExporterSpec.usable_ids json_loads a).
Local Abbreviation absorb := (ExporterSpec.absorb json_loads a).
Local Abbreviation page_loop := (Exporter.page_loop json_loads a).
Local Abbreviation export_loop := (Exporter.export_loop json_loads a).
Local Abbreviation advancing := (ExporterSpec.advancing json_loads a).
Local Abbreviation page_cursor := (ExtraSpec.page_cursor json_loads a).
Local Abbreviation delivers := (ExporterSpec.delivers a).
Local Abbreviation serves := (ExporterSpec.serves a).


Lemma terminated_nonempty (raw : string) : terminated raw <> EmptyString.
Proof.
  unfold terminated. destruct (endswith_newline raw) eqn:E.
  - intros ->. discriminate.
  - destruct raw; discriminate.
Qed.

Lemma join_terminated_empty (rws : list string) :
  join (map terminated rws) = EmptyString <-> rws = [].
Proof.
  split; [|now intros ->].
  destruct rws as [|r rws]; [reflexivity|].
  cbn [map]. rewrite join_cons. intros E. exfalso.
  apply (terminated_nonempty r). destruct (terminated r); [reflexivity | discriminate].
Qed.

(** A run that returns at [p], after the pages [pre]: the pages advanced the
    cursor, and each request carried the last id of the page before it. *)
Lemma returned_trace (p : string) (post : list string) (pre : list string) :
  forall server st meta written urls,
    serves server (pre ++ p :: post) ->
    Forall (fun b => rows_of_page b <> []) pre ->
    rows_of_page p = [] ->
    export_loop server st = (Returned (meta, written), urls) ->
    advancing (after_id st) pre
    /\ urls = page_url a (after_id st) :: map (fun b => page_url a (page_cursor b)) pre.
Proof.
  induction pre as [|b pre IH]; intros server st meta w urls Hs Hne Hp H.
  - cbn [app] in Hs. inversion Hs as [|net ? rest ? Hd _]; subst.
    rewrite (export_loop_cons json_loads a net p) in H by exact Hd.
    destruct (page_loop_page json_loads a p st) as [(e & He & _)|(_ & Hpl)].
    { rewrite He in H. discriminate. }
    rewrite Hpl in H.
    destruct (after_page a _ _ _) as [st2|st2|e] eqn:Hap; [| |discriminate].
    + injection H as _ _ <-. split; [exact I | reflexivity].
    + exfalso. pose proof (after_page_cases a (absorb (rows_of_page p) st)
                  (Z.of_nat (length (rows_of_page p)))
                  (last (usable_ids (rows_of_page p)))) as Hc.
      rewrite Hap in Hc. destruct Hc as [Hn _]. apply Hn. now rewrite Hp.
  - inversion Hne as [|x l Hb Hne']; subst.
    change ((b :: pre) ++ p :: post) with (b :: (pre ++ p :: post)) in Hs.
    inversion Hs as [|net ? rest ? Hd Hs']; subst.
    rewrite (export_loop_cons json_loads a net b) in H by exact Hd.
    destruct (page_loop_page json_loads a b st) as [(e & He & _)|(_ & Hpl)].
    { rewrite He in H. discriminate. }
    rewrite Hpl in H.
    pose proof (after_page_cases a (absorb (rows_of_page b) st)
                  (Z.of_nat (length (rows_of_page b)))
                  (last (usable_ids (rows_of_page b)))) as Hc.
    destruct (after_page a _ _ _) as [st2|st2|e]; [| |discriminate].
    + exfalso. destruct Hc as [Hn _]. apply length_zero_nil in Hn. contradiction.
    + destruct Hc as (_ & l & Hl & -> & Hadv).
      injection H as Hres <-.
      destruct (IH rest (advance (absorb (rows_of_page b) st) l) meta w
                  (snd (export_loop rest (advance (absorb (rows_of_page b) st) l)))
                  Hs' Hne' Hp) as [Ha Hu].
      { rewrite <- Hres. apply surjective_pairing. }
      cbn [advance after_id] in Ha, Hu. rewrite after_id_absorb in Hadv.
      split.
      * cbn [ExporterSpec.advancing]. exists l. split; [exact Hl|]. split; assumption.
      * rewrite Hu. cbn [map]. unfold ExtraSpec.page_cursor at 2. rewrite Hl. reflexivity.
Qed.

(** Pages that advance carry ids: the last usable id of all their rows is the
    cursor of the last page, and there is a first one when there is a page. *)
Lemma advancing_ids (pre : list string) :
  forall after,
    advancing after pre ->
    last (usable_ids (flat_map rows_of_page pre))
    = match last pre with Some b => page_cursor b | None => None end
    /\ (pre <> [] -> usable_ids (flat_map rows_of_page pre) <> []).
Proof.
  induction pre as [|b pre IH]; intros after Ha.
  - split; [reflexivity | congruence].
  - destruct Ha as (l & Hl & _ & Ha). destruct (IH _ Ha) as [IH1 IH2].
    cbn [flat_map]. rewrite usable_ids_app.
    assert (Hb : usable_ids (rows_of_page b) <> []).
    { intros E. rewrite E in Hl. discriminate. }
    split.
    + destruct pre as [|b' pre'].
      * cbn [flat_map]. cbn [ExporterSpec.usable_ids omap]. rewrite app_nil_r. reflexivity.
      * rewrite last_app. rewrite IH1.
        change (last (b :: b' :: pre')) with (last (b' :: pre')).
        destruct (last (b' :: pre')) as [c|] eqn:E; [|now apply last_None in E].
        specialize (IH2 ltac:(discriminate)).
        destruct (page_cursor c) eqn:Ec; [reflexivity|].
        exfalso. apply last_None in IH1. contradiction.
    + intros _ E. apply app_eq_nil in E as [E _]. contradiction.
Qed.

(** Everything the proofs below need on a run that returns. *)
Lemma returned_run (server : list world) (bodies : list string)
    (meta : export_meta) (written : string) (urls : list string) :
  serves server bodies ->
  export_loop server initial = (Returned (meta, written), urls) ->
  exists pre,
    let rws := flat_map rows_of_page pre in
    length urls = S (length pre)
    /\ urls = page_url a None :: map (fun b => page_url a (page_cursor b)) pre
    /\ m_rows meta = Z.of_nat (length rws)
    /\ m_minId meta = head (usable_ids rws)
    /\ m_maxId meta = last (usable_ids rws)
    /\ m_requestsMade meta = Z.of_nat (S (length pre))
    /\ written = join (map terminated rws)
    /\ Forall (fun b => rows_of_page b <> []) pre
    /\ last (usable_ids rws) = match last pre with Some b => page_cursor b | None => None end
    /\ (pre <> [] -> usable_ids rws <> []).
Proof.
  intros Hs H.
  destruct (export_loop_returned json_loads a server bodies Hs initial meta written urls H)
    as (pre & p & post & -> & Hlen & Hne & Hp & _ & Hr & Hmin & Hmax & Hrq & Hw).
  destruct (returned_trace p post pre server initial meta written urls Hs Hne Hp H)
    as [Ha Hu].
  destruct (advancing_ids pre None Ha) as [Hlast Hids].
  exists pre. cbn zeta. cbn [initial rows min_id max_id requests_made gz after_id] in *.
  split; [exact Hlen|]. split; [exact Hu|]. split; [lia|].
  split; [exact Hmin|].
  split. { rewrite Hmax. unfold last_or. now destruct (last _). }
  split; [lia|]. split; [exact Hw|]. split; [exact Hne|]. split; assumption.
Qed.


(** The numbers of a run that returns. *)
Lemma returned_counts (server : list world) (bodies : list string)
    (meta : export_meta) (written : string) (urls : list string) :
  serves server bodies ->
  export_loop server initial = (Returned (meta, written), urls) ->
  m_requestsMade meta = Z.of_nat (length urls)
  /\ 1 <= m_requestsMade meta
  /\ m_requestsMade meta - 1 <= m_rows meta
  /\ (m_rows meta = 0 <-> m_requestsMade meta = 1)
  /\ (m_rows meta = 0 <-> m_minId meta = None)
  /\ (m_minId meta = None <-> m_maxId meta = None)
  /\ (m_rows meta = 0 <-> written = EmptyString)
  /\ last urls = Some (page_url a (m_maxId meta)).
Proof.
  intros Hs H.
  destruct (returned_run server bodies meta written urls Hs H)
    as (pre & Hlen & Hu & Hr & Hmin & Hmax & Hrq & Hw & Hne & Hlast & Hids).
  cbn zeta in *.
  set (rws := flat_map rows_of_page pre) in *.
  assert (Hcount : (length pre <= length rws)%nat).
  { subst rws. clear -Hne. induction Hne as [|b pre Hb _ IH]; [cbn; lia|].
    cbn [flat_map length]. rewrite length_app.
    destruct (rows_of_page b); [contradiction | cbn [length]; lia]. }
  assert (Hnil : rws = [] <-> pre = []).
  { split.
    - intros E. rewrite E in Hcount. destruct pre; [reflexivity | cbn in Hcount; lia].
    - intros E. subst rws. now rewrite E. }
  assert (Hids' : usable_ids rws = [] <-> pre = []).
  { split.
    - intros E. destruct pre as [|b pre']; [reflexivity|].
      exfalso. apply Hids; [discriminate | exact E].
    - intros E. apply Hnil in E. now rewrite E. }
  split; [rewrite Hrq, Hlen; reflexivity|].
  split; [lia|]. split; [lia|].
  split.
  { rewrite Hr, Hrq. split.
    - intros E. apply length_zero_nil in E. apply Hnil in E. now rewrite E.
    - intros E. assert (pre = []) as -> by (destruct pre; [reflexivity | cbn [length] in E; lia]).
      destruct Hnil as [_ ->]; reflexivity. }
  split.
  { rewrite Hr, Hmin. split.
    - intros E. apply length_zero_nil in E. now rewrite E.
    - intros E. apply head_None in E. apply Hids' in E. apply Hnil in E. now rewrite E. }
  split.
  { rewrite Hmin, Hmax. rewrite head_None, last_None. reflexivity. }
  split.
  { rewrite Hr, Hw, join_terminated_empty. split.
    - apply length_zero_nil.
    - now intros ->. }
  rewrite Hmax, Hlast, Hu.
  destruct pre as [|b pre'] using rev_ind; [reflexivity|].
  rewrite last_snoc. rewrite map_app. cbn [map].
  change (page_url a None :: ?l ++ [?x]) with ((page_url a None :: l) ++ [x]).
  now rewrite last_snoc.
Qed.

(** The dict repeats the arguments of the call, wherever the loop returns. *)
Lemma returned_echo (server : list world) :
  forall st meta written urls,
    export_loop server st = (Returned (meta, written), urls) ->
    m_path meta = path a /\ m_idField meta = id_field a
    /\ m_limitPerRequest meta = limit a /\ m_filename meta = out_name a.
Proof.
  induction server as [|net rest IH]; intros st meta written urls H.
  - discriminate.
  - cbn [Exporter.export_loop] in H.
    destruct (fst (_http_ndjson_stream _ _ net)); [|discriminate].
    destruct (page_loop _ _ _ _) as [[[st1 n] li]|]; [|discriminate].
    destruct (after_page a st1 n li) as [st2|st2|e]; [| |discriminate].
    + injection H as <- _ _. repeat split.
    + destruct (Exporter.export_loop json_loads a rest st2) as [o us] eqn:E.
      injection H as -> _. now apply (IH st2 meta written us).
Qed.


(** The numbers of a run that returns against the validator's checks on an
    artifact (lines 82-102 of [validate_release_bundle.py]): they pass exactly
    when the page size is positive and the first id seen is not above the
    last one; every other check holds of any run that returns. *)
Theorem returned_run_meets_invariants (server : list world) (bodies : list string)
    (meta : export_meta) (written : string) (urls : list string) (name_ : string) :
  serves server bodies ->
  export_loop server initial = (Returned (meta, written), urls) ->
  Validate.check_invariants name_ (Int (m_rows meta)) (m_minId meta) (m_maxId meta)
    (Int (m_requestsMade meta)) (Int (m_limitPerRequest meta)) = Ok tt
  <-> (0 < limit a
       /\ forall lo hi, m_minId meta = Some lo -> m_maxId meta = Some hi ->
                        int_val lo <= int_val hi).
Proof.
  intros Hs H.
  destruct (returned_echo server initial meta written urls H) as (_ & _ & Hlim & _).
  destruct (returned_counts server bodies meta written urls Hs H)
    as (_ & Hreq & Hrows & _ & Hmin & Hmm & _).
  rewrite Hlim. unfold Validate.check_invariants. cbn [int_val].
  destruct (m_rows meta <? 0) eqn:E0; [lia|].
  destruct (m_rows meta =? 0) eqn:E1.
  - assert (Hz : m_rows meta = 0) by lia.
    destruct Hmin as [Hmin _]. specialize (Hmin Hz). rewrite Hmin.
    destruct Hmm as [Hmm _]. specialize (Hmm Hmin). rewrite Hmm.
    cbn [Py.bind].
    destruct (limit a <=? 0) eqn:E2.
    + split; [discriminate | intros [? _]; lia].
    + destruct (m_requestsMade meta <=? 0) eqn:E3; [lia|].
      split; [intros _; split; [lia | discriminate] | reflexivity].
  - assert (Hnz : m_rows meta <> 0) by lia.
    destruct (m_minId meta) as [lo|] eqn:Elo; [|exfalso; apply Hnz, Hmin; reflexivity].
    destruct (m_maxId meta) as [hi|] eqn:Ehi.
    2:{ exfalso. destruct Hmm as [_ Hmm]. specialize (Hmm eq_refl). discriminate. }
    destruct (int_val hi <? int_val lo) eqn:E4.
    + split; [discriminate|]. intros [_ Hle]. specialize (Hle lo hi eq_refl eq_refl). lia.
    + destruct (m_requestsMade meta <? 1) eqn:E5; [lia|].
      cbn [Py.bind].
      destruct (limit a <=? 0) eqn:E2.
      * split; [discriminate | intros [? _]; lia].
      * destruct (m_requestsMade meta <=? 0) eqn:E3; [lia|].
        split; [|reflexivity]. intros _. split; [lia|].
        intros lo' hi' [= <-] [= <-]. lia.
Qed.


(** A page that cannot be fetched aborts the export: when the request can be
    built, none of the five attempts gets a response with status 200 and the
    four sleeps between them return, the [RuntimeError] of
    [_http_ndjson_stream], which quotes the URL and the failure of the last
    attempt, leaves the function, and no other page is requested. *)
Theorem fetch_failure_aborts (net : world) (rest : list world) (st : state) :
  Request net (page_url a (after_id st)) = Ok tt ->
  sleeps_through net 4 ->
  (forall k b, (k <= 4)%nat -> net k <> HttpResponse 200 b) ->
  exists e,
    stream_failure (page_url a (after_id st)) (net 4%nat) e
    /\ export_loop (net :: rest) st
       = (Raised (RuntimeError ("Failed to stream NDJSON from " +:+ page_url a (after_id st)
                                +:+ ": " +:+ exn_str e)),
          [page_url a (after_id st)]).
Proof.
  intros Hreq Hsl Hfail. set (url := page_url a (after_id st)) in *.
  assert (Hraise : forall k, (k <= 4)%nat -> exists e, stream_body url (net k) = Raise e).
  { intros k Hk. destruct (stream_body url (net k)) as [b|e] eqn:E; [|now exists e].
    apply stream_body_ok in E. destruct (Hfail k b Hk E). }
  destruct (Hraise 4%nat ltac:(lia)) as [e He]. exists e.
  split; [now apply stream_body_raise|].
  cbn [Exporter.export_loop]. fold url.
  destruct (retry_loop_run net (fun k => stream_body url (net k)) default_retries
              (Z.to_nat (default_retries + 1)) 0 None) as (m & _ & Hm & _ & Hr).
  { right. reflexivity. }
  unfold _http_ndjson_stream. rewrite Hreq.
  destruct (retry_loop net _ default_retries _ 0 None) as [[v|le|e'] evs]; cbn [fst] in *.
  - exfalso. destruct Hr as (j & -> & Hj). cbn [Nat.add] in Hj.
    change (Z.to_nat (default_retries + 1)) with 5%nat in Hm.
    destruct (Hraise j ltac:(lia)) as [e' He']. congruence.
  - destruct Hr as [-> Hr]. change (Z.to_nat (default_retries + 1)) with 5%nat in Hr.
    destruct Hr as (e' & He' & ->). cbn [Nat.add] in He'.
    rewrite He in He'. injection He' as <-. reflexivity.
  - exfalso. destruct Hr as (j & -> & _ & Hlt & Hse). cbn [Nat.add] in *.
    unfold default_retries in Hlt.
    destruct (Hsl j ltac:(lia)) as (q & Hq & Ht).
    assert (sleep_backoff net j = Ok q) by (apply sleep_backoff_ok; now split).
    congruence.
Qed.

End Run.



(** The same run passes the checks of the validator: the page size is 10000
    and 101 is not above 103. *)
Lemma returned_run_meets_invariants_witness :
  let meta := Sample.snapshots_meta 3 (Some (Int 101)) (Some (Int 103)) 2 in
  Validate.check_invariants "snapshots" (Int (m_rows meta)) (m_minId meta) (m_maxId meta)
    (Int (m_requestsMade meta)) (Int (m_limitPerRequest meta)) = Ok tt
  <-> (0 < limit Sample.snapshots_args
       /\ forall lo hi, m_minId meta = Some lo -> m_maxId meta = Some hi ->
                        int_val lo <= int_val hi).
Proof.
  apply (returned_run_meets_invariants Sample.json_loads Sample.snapshots_args
           (map serve [Sample.ordered_page; EmptyString]) [Sample.ordered_page; EmptyString]
           (Sample.snapshots_meta 3 (Some (Int 101)) (Some (Int 103)) 2) Sample.ordered_page
           [Sample.first_url; page_url Sample.snapshots_args (Some (Int 103))] "snapshots").
  - apply serve_serves.
  - vm_compute. reflexivity.
Defined.


(** A server that answers 503 to every attempt. *)
Lemma fetch_failure_aborts_witness :
  let busy := ideal (fun _ => HttpResponse 503 "busy") in
  exists e,
    stream_failure Sample.first_url (busy 4%nat) e
    /\ Exporter.export_loop Sample.json_loads Sample.snapshots_args
         [busy; serve EmptyString] initial
       = (Raised (RuntimeError ("Failed to stream NDJSON from " +:+ Sample.first_url
                                +:+ ": " +:+ exn_str e)),
          [Sample.first_url]).
Proof.
  apply (fetch_failure_aborts Sample.json_loads Sample.snapshots_args
           (ideal (fun _ => HttpResponse 503 "busy")) [serve EmptyString] initial).
  - reflexivity.
  - intros j Hj. exists (Qpower (3 # 2) (Z.of_nat j)). split; reflexivity.
  - intros k b _. discriminate.
Defined.

End ExporterMore.

(** ** The builder: the API base and the capability check *)

Module BuildMore.
Import Http HttpSpec Exporter Build StringFacts HttpFacts HttpMore ExtraSpec.

Lemma rstrip_snoc (sp : ascii -> bool) (s t : string) :
  all_chars sp t = true -> rstrip sp (s +:+ t) = rstrip sp s.
Proof.
  intros Ht.
  assert (Hnil : rstrip sp t = EmptyString).
  { induction t as [|c t IH]; [reflexivity|].
    cbn [all_chars] in Ht. apply andb_prop in Ht as [Hc Ht].
    cbn [rstrip]. now rewrite (IH Ht), Hc. }
  induction s as [|c s IH]; [exact Hnil|].
  rewrite append_cons. cbn [rstrip]. now rewrite IH.
Qed.

Section Main.

Variable json_loads : string -> result value.
Variable int_of_str : string -> result Z.
Variable sha256_hex : string -> string.
Variable gzip_file : string -> string -> string.
Variable json_dumps : manifest -> string.

Local Abbreviation main := (Build.main json_loads int_of_str sha256_hex gzip_file json_dumps).

(** Slashes at the end of [--api-base] change nothing: the capability
    request, the two export calls (their URLs and their user agent) and the
    outcome of the build are those of the base without them. *)
Theorem trailing_slashes_ignored (args : cli) (slashes : string) :
  all_chars (Ascii.eqb "/"%char) slashes = true ->
  let args' := with_api_base args (arg_api_base args +:+ slashes) in
  (forall exports_manifest, plan int_of_str args' exports_manifest
                            = plan int_of_str args exports_manifest)
  /\ (forall now exports_net snapshots_server changes_server,
        main args' now exports_net snapshots_server changes_server
        = main args now exports_net snapshots_server changes_server).
Proof.
  intros Hs args'.
  assert (Hbase : rstrip (Ascii.eqb "/"%char) (arg_api_base args')
                  = rstrip (Ascii.eqb "/"%char) (arg_api_base args)).
  { unfold args', with_api_base. cbn [arg_api_base]. now apply rstrip_snoc. }
  assert (Hplan : forall em, plan int_of_str args' em = plan int_of_str args em).
  { intros em. unfold plan. rewrite Hbase. reflexivity. }
  split; [exact Hplan|].
  intros now exports_net snapshots_server changes_server.
  unfold Build.main. rewrite Hbase.
  destruct (fst (_http_json _ _ _ _)) as [em|e]; [|reflexivity].
  rewrite Hplan. reflexivity.
Qed.

(** When the request for [/api/exports] can be built and the first answer
    that is a decodable 200, within the five attempts and with the sleeps
    before it returning, is an object whose [enabled] is missing or falsy
    ([false], [null], [0], an empty string), the build stops with the
    [RuntimeError] on disabled exports, whatever [--limit] and [maxLimit]
    are, before any export is requested. *)
Theorem disabled_exports_stop_build (args : cli) (now : string) (exports_net : world)
    (snapshots_server changes_server : list world)
    (k : nat) (payload : string) (doc : gmap string value) :
  Request exports_net (rstrip (Ascii.eqb "/"%char) (arg_api_base args) +:+ "/api/exports")
  = Ok tt ->
  (k <= 4)%nat ->
  sleeps_through exports_net k ->
  exports_net k = HttpResponse 200 payload ->
  json_loads payload = Ok (VDict doc) ->
  (forall j, (j < k)%nat ->
     forall p, exports_net j = HttpResponse 200 p -> exists e, json_loads p = Raise e) ->
  truthy (default VNone (doc !! "enabled")) = false ->
  main args now exports_net snapshots_server changes_server
  = Raised (RuntimeError "Exports are disabled on the API; cannot build a dataset release.").
Proof.
  intros Hreq Hk Hsl Hnet Hdoc Hbefore Hen. unfold Build.main.
  set (url := rstrip _ _ +:+ "/api/exports") in *.
  assert (Hfetch : fst (_http_json json_loads url default_retries exports_net) = Ok (VDict doc)).
  { unfold _http_json. rewrite Hreq. apply client_returns.
    exists k. split; [unfold default_retries; lia|]. split.
    - unfold json_body. rewrite Hnet. exact Hdoc.
    - split; [|exact Hsl]. intros j Hj. unfold fails, json_body.
      destruct (exports_net j) as [e|status p] eqn:Ej; [now exists e|].
      destruct (status =? 200) eqn:Es; [|eauto].
      apply Z.eqb_eq in Es. subst. now apply (Hbefore j Hj). }
  rewrite Hfetch. unfold plan. cbn [obj_get Py.bind]. rewrite Hen. reflexivity.
Qed.

End Main.

(** The sample command line, whose base ends with a slash, with two more. *)
Lemma trailing_slashes_witness :
  let args' := with_api_base BuildSample.args (arg_api_base BuildSample.args +:+ "//") in
  (forall exports_manifest,
     plan BuildSample.int_of_str args' exports_manifest
     = plan BuildSample.int_of_str BuildSample.args exports_manifest)
  /\ (forall now exports_net snapshots_server changes_server,
        Build.main Sample.json_loads BuildSample.int_of_str ValidateSample.digest
          (fun _ written => written) (fun _ => EmptyString)
          args' now exports_net snapshots_server changes_server
        = Build.main Sample.json_loads BuildSample.int_of_str ValidateSample.digest
            (fun _ written => written) (fun _ => EmptyString)
            BuildSample.args now exports_net snapshots_server changes_server).
Proof.
  apply (trailing_slashes_ignored Sample.json_loads BuildSample.int_of_str
           ValidateSample.digest (fun _ written => written) (fun _ => EmptyString)
           BuildSample.args "//").
  reflexivity.
Defined.

(** An API that answers [{"enabled": 0}] at the second attempt. *)
Lemma disabled_exports_witness :
  Build.main Sample.json_loads BuildSample.int_of_str ValidateSample.digest
    (fun _ written => written) (fun _ => EmptyString) BuildSample.args
    "2026-01-01T00:00:00+00:00"
    (ideal (fun k => match k with
                     | O => HttpResponse 200 "not json"
                     | _ => HttpResponse 200 (Sample.row "enabled" 0)
                     end))
    [serve Sample.ordered_page; serve EmptyString] [serve EmptyString]
  = Raised (RuntimeError "Exports are disabled on the API; cannot build a dataset release.").
Proof.
  apply (disabled_exports_stop_build Sample.json_loads BuildSample.int_of_str
           ValidateSample.digest (fun _ written => written) (fun _ => EmptyString)
           BuildSample.args "2026-01-01T00:00:00+00:00" _ _ _
           1%nat (Sample.row "enabled" 0) {[ "enabled" := VInt 0 ]}).
  - reflexivity.
  - lia.
  - intros j Hj. exists (Qpower (3 # 2) (Z.of_nat j)). split; reflexivity.
  - reflexivity.
  - vm_compute. reflexivity.
  - intros j Hj p Hp. assert (j = 0%nat) as -> by lia.
    injection Hp as <-. eexists. vm_compute. reflexivity.
  - vm_compute. reflexivity.
Defined.

End BuildMore.

(** ** The manifest the builder writes, under the validator *)

Module ManifestFacts.
Import Exporter Build Validate Manifest StringFacts ValidateFacts ExtraSpec.

Lemma opt_int_of_value (meta : gmap string value) (name_ k : string) (o : option pyint) :
  meta !! k = Some (opt_int_value o) -> opt_int meta name_ k = Ok o.
Proof.
  intros H. unfold opt_int. rewrite H. cbn [default from_option]. unfold id.
  destruct o as [[z|b]|]; reflexivity.
Qed.

(** The error of the parser on an artifact object of the builder whose file
    name and digest are not blank. *)
Lemma built_artifact_error (e : artifact_entry) (name_ : string) :
  strip str_isspace (m_filename (e_meta e)) <> EmptyString ->
  strip str_isspace (e_sha256 e) <> EmptyString ->
  _parse_artifact (artifact_dict e) name_
  = Raise (ValueError "manifest missing required field: truncated").
Proof.
  intros Hf Hs. apply is_empty_false in Hf, Hs.
  unfold _parse_artifact.
  assert (E1 : req_str (artifact_dict e) name_ "filename"
               = Ok (strip str_isspace (m_filename (e_meta e)))).
  { unfold req_str, _require.
    replace (artifact_dict e !! "filename") with (Some (VStr (m_filename (e_meta e))))
      by reflexivity.
    cbn [bind isinstance_str]. now rewrite Hf. }
  assert (E2 : req_str (artifact_dict e) name_ "sha256"
               = Ok (strip str_isspace (e_sha256 e))).
  { unfold req_str, _require.
    replace (artifact_dict e !! "sha256") with (Some (VStr (e_sha256 e))) by reflexivity.
    cbn [bind isinstance_str]. now rewrite Hs. }
  assert (E3 : req_int (artifact_dict e) name_ "rows" = Ok (Int (m_rows (e_meta e))))
    by reflexivity.
  assert (E4 : opt_int (artifact_dict e) name_ "minId" = Ok (m_minId (e_meta e)))
    by (apply opt_int_of_value; reflexivity).
  assert (E5 : opt_int (artifact_dict e) name_ "maxId" = Ok (m_maxId (e_meta e)))
    by (apply opt_int_of_value; reflexivity).
  assert (E6 : req_int (artifact_dict e) name_ "requestsMade"
               = Ok (Int (m_requestsMade (e_meta e)))) by reflexivity.
  assert (E7 : req_int (artifact_dict e) name_ "limitPerRequest"
               = Ok (Int (m_limitPerRequest (e_meta e)))) by reflexivity.
  assert (E8 : req_bool (artifact_dict e) name_ "truncated"
               = Raise (ValueError "manifest missing required field: truncated"))
    by reflexivity.
  rewrite E1, E2, E3, E4, E5, E6, E7, E8. reflexivity.
Qed.

Lemma built_artifact_not_ok (e : artifact_entry) (name_ : string) (art : Artifact) :
  _parse_artifact (artifact_dict e) name_ <> Ok art.
Proof.
  unfold _parse_artifact.
  destruct (req_str _ name_ "filename"); cbn [bind]; [|discriminate].
  destruct (req_str _ name_ "sha256"); cbn [bind]; [|discriminate].
  destruct (req_int _ name_ "rows"); cbn [bind]; [|discriminate].
  destruct (opt_int _ name_ "minId"); cbn [bind]; [|discriminate].
  destruct (opt_int _ name_ "maxId"); cbn [bind]; [|discriminate].
  destruct (req_int _ name_ "requestsMade"); cbn [bind]; [|discriminate].
  destruct (req_int _ name_ "limitPerRequest"); cbn [bind]; [|discriminate].
  replace (req_bool (artifact_dict e) name_ "truncated")
    with (Raise (ValueError "manifest missing required field: truncated") : result bool)
    by reflexivity.
  discriminate.
Qed.

(** The builder never writes the member [truncated] that the validator
    requires: whatever the export returned, the parser accepts no artifact
    object of the manifest, and it refuses it for the missing key once its
    file name and digest are not blank. *)
Theorem parser_accepts_no_built_artifact (e : artifact_entry) (name_ : string) :
  (forall art, _parse_artifact (artifact_dict e) name_ <> Ok art)
  /\ (strip str_isspace (m_filename (e_meta e)) <> EmptyString ->
      strip str_isspace (e_sha256 e) <> EmptyString ->
      _parse_artifact (artifact_dict e) name_
      = Raise (ValueError "manifest missing required field: truncated")).
Proof.
  split.
  - intros art. apply built_artifact_not_ok.
  - apply built_artifact_error.
Qed.

Section Load.

Variable json_loads : string -> result value.
Variable path_str : string -> string -> string.
Variable fs : gmap string string.
Variable args : Validate.cli.

Local Abbreviation load_manifest := (Validate.load_manifest json_loads path_str fs args).

Lemma require_text_ok (manifest : gmap string value) (k : string) :
  require_text manifest k = Ok tt <-> text_member manifest k.
Proof.
  unfold require_text, _require, text_member. split.
  - destruct (manifest !! k) as [v|]; [|discriminate]. cbn [bind].
    destruct v; cbn [isinstance_str]; try discriminate.
    destruct (is_empty (strip str_isspace s)) eqn:E; [discriminate|].
    intros _. exists s. split; [reflexivity|]. intros E'. rewrite E' in E. discriminate E.
  - intros (s & -> & Hs). cbn [bind isinstance_str].
    apply is_empty_false in Hs. now rewrite Hs.
Qed.

Lemma require_dict_ok (obj : gmap string value) (k : string) (d : gmap string value) :
  _require_dict obj k = Ok d <-> obj !! k = Some (VDict d).
Proof.
  unfold _require_dict, _require. split.
  - destruct (obj !! k) as [v|]; [|discriminate]. cbn [bind].
    destruct v; cbn [isinstance_dict]; try discriminate. now intros [= ->].
  - intros ->. reflexivity.
Qed.

Lemma load_manifest_inv (manifest : gmap string value) (s c : Artifact) :
  load_manifest = Ok (manifest, s, c) -> accepted_manifest json_loads fs manifest s c.
Proof.
  unfold Validate.load_manifest, accepted_manifest. intros H.
  destruct (fs !! "manifest.json") as [text|] eqn:Hm; [|discriminate H].
  destruct (fs !! "SHA256SUMS") as [sums|] eqn:Hsums; [|discriminate H].
  destruct (json_loads text) as [doc|] eqn:Hj; cbn [bind] in H; [|discriminate H].
  destruct doc; cbn [isinstance_dict] in H; try discriminate H.
  unfold _require at 1 in H.
  destruct (_ !! "version") as [raw|] eqn:Hv; cbn [bind] in H; [|discriminate H].
  destruct (isinstance_int raw) as [version|] eqn:Hi; [|discriminate H].
  destruct (int_val version <=? 0) eqn:Hpos; [discriminate H|].
  destruct (require_text _ "tag") as [[]|] eqn:T1; cbn [bind] in H; [|discriminate H].
  destruct (require_text _ "releasedAtUtc") as [[]|] eqn:T2; cbn [bind] in H; [|discriminate H].
  destruct (require_text _ "apiBase") as [[]|] eqn:T3; cbn [bind] in H; [|discriminate H].
  unfold _require at 1 in H.
  destruct (_ !! "exportsManifest") as [emv|] eqn:He; cbn [bind] in H; [|discriminate H].
  destruct emv; cbn [isinstance_dict] in H; try discriminate H.
  destruct (_ !! "enabled") as [enabled|] eqn:Hen; [|discriminate H].
  destruct (_require_dict _ "artifacts") as [artifacts|] eqn:Ha; cbn [bind] in H;
    [|discriminate H].
  destruct (_require_dict artifacts "snapshots") as [sd|] eqn:Hs; cbn [bind] in H;
    [|discriminate H].
  destruct (_require_dict artifacts "changes") as [cd|] eqn:Hc; cbn [bind] in H;
    [|discriminate H].
  destruct (_parse_artifact sd "snapshots") as [s'|] eqn:Ps; cbn [bind] in H;
    [|discriminate H].
  destruct (_parse_artifact cd "changes") as [c'|] eqn:Pc; cbn [bind] in H;
    [|discriminate H].
  injection H as -> -> ->.
  apply require_text_ok in T1, T2, T3. apply require_dict_ok in Ha, Hs, Hc.
  exists text, sums, raw, version. eexists _, enabled, artifacts, sd, cd.
  split; [reflexivity|]. split; [reflexivity|]. split; [exact Hj|].
  split; [exact Hv|]. split; [exact Hi|]. split; [lia|].
  split; [exact T1|]. split; [exact T2|]. split; [exact T3|].
  split; [exact He|]. split; [exact Hen|]. split; [exact Ha|].
  split; [exact Hs|]. split; [exact Hc|]. split; [exact Ps | exact Pc].
Qed.

(** The validator reads a manifest and its two artifacts exactly when the
    bundle holds [manifest.json] and [SHA256SUMS] and the manifest is an
    accepted one: an object with a positive [int] as [version] (a JSON [true]
    counts as 1), strings that are not blank as [tag], [releasedAtUtc] and
    [apiBase], an object with a member [enabled] as [exportsManifest], and
    two artifact objects that parse. *)
Theorem manifest_accepted_iff (manifest : gmap string value) (s c : Artifact) :
  load_manifest = Ok (manifest, s, c) <-> accepted_manifest json_loads fs manifest s c.
Proof.
  split; [apply load_manifest_inv|].
  intros (text & sums & raw & version & em & enabled & artifacts & sd & cd
          & Hm & Hsums & Hj & Hv & Hi & Hpos & T1 & T2 & T3 & He & Hen & Ha & Hs & Hc
          & Ps & Pc).
  apply require_text_ok in T1, T2, T3. apply require_dict_ok in Ha, Hs, Hc.
  unfold Validate.load_manifest. rewrite Hm, Hsums, Hj. cbn [bind isinstance_dict].
  unfold _require at 1. rewrite Hv. cbn [bind]. rewrite Hi.
  destruct (int_val version <=? 0) eqn:Hle; [lia|].
  rewrite T1, T2, T3. cbn [bind].
  unfold _require at 1. rewrite He. cbn [bind isinstance_dict]. rewrite Hen.
  rewrite Ha. cbn [bind]. rewrite Hs, Hc. cbn [bind]. rewrite Ps, Pc. reflexivity.
Qed.

End Load.

(** The validator on a bundle whose manifest is one the builder writes: it
    never accepts the bundle, whatever the flags and the files; when the
    manifest is otherwise in order it stops at the snapshots artifact, for
    the missing [truncated]. *)
Theorem validator_refuses_built_manifest (json_loads : string -> result value)
    (sha256_hex repr : string -> string) (gunzip : string -> result string)
    (path_str : string -> string -> string) (fs : gmap string string)
    (args : Validate.cli) (mf : manifest) (text : string) :
  fs !! "manifest.json" = Some text ->
  json_loads text = Ok (VDict (manifest_dict mf)) ->
  (forall out, Validate.main json_loads sha256_hex repr gunzip path_str fs args <> Ok out)
  /\ (forall sums em enabled,
        fs !! "SHA256SUMS" = Some sums ->
        0 < mf_version mf ->
        strip str_isspace (mf_tag mf) <> EmptyString ->
        strip str_isspace (mf_releasedAtUtc mf) <> EmptyString ->
        strip str_isspace (mf_apiBase mf) <> EmptyString ->
        mf_exportsManifest mf = VDict em ->
        em !! "enabled" = Some enabled ->
        strip str_isspace (m_filename (e_meta (mf_snapshots mf))) <> EmptyString ->
        strip str_isspace (e_sha256 (mf_snapshots mf)) <> EmptyString ->
        Validate.main json_loads sha256_hex repr gunzip path_str fs args
        = Raise (ValueError "manifest missing required field: truncated")).
Proof.
  intros Hm Hj. split.
  - intros out Hmain. unfold Validate.main in Hmain.
    destruct (Validate.load_manifest json_loads path_str fs args) as [[[m s] c]|e] eqn:Hl;
      [|discriminate Hmain].
    apply load_manifest_inv in Hl.
    destruct Hl as (text' & sums & raw & version & em & enabled & artifacts & sd & cd
                    & Hm' & _ & Hj' & _ & _ & _ & _ & _ & _ & _ & _ & Ha & Hs & _ & Ps & _).
    rewrite Hm in Hm'. injection Hm' as <-. rewrite Hj in Hj'. injection Hj' as <-.
    change (manifest_dict mf !! "artifacts")
      with (Some (VDict ({[ "snapshots" := VDict (artifact_dict (mf_snapshots mf));
                            "changes" := VDict (artifact_dict (mf_changes mf)) ]}
                         : gmap string value))) in Ha.
    injection Ha as <-.
    change (Some (VDict (artifact_dict (mf_snapshots mf))) = Some (VDict sd)) in Hs.
    injection Hs as <-.
    exact (built_artifact_not_ok _ _ _ Ps).
  - intros sums em enabled Hsums Hv Ht Hr Ha Hem Hen Hf Hs. revert Hm Hsums Hj Hv Ht Hr Ha Hem Hen Hf Hs.
  intros Hm Hsums Hj Hv Ht Hr Ha Hem Hen Hf Hs.
  apply is_empty_false in Ht, Hr, Ha.
  unfold Validate.main, load_manifest. rewrite Hm, Hsums, Hj. cbn [bind isinstance_dict].
  replace (_require (manifest_dict mf) "version") with (Ok (VInt (mf_version mf)))
    by reflexivity.
  cbn [bind isinstance_int int_val].
  destruct (mf_version mf <=? 0) eqn:Hle; [lia|].
  assert (T1 : require_text (manifest_dict mf) "tag" = Ok tt).
  { unfold require_text.
    replace (_require (manifest_dict mf) "tag") with (Ok (VStr (mf_tag mf))) by reflexivity.
    cbn [bind isinstance_str]. now rewrite Ht. }
  assert (T2 : require_text (manifest_dict mf) "releasedAtUtc" = Ok tt).
  { unfold require_text.
    replace (_require (manifest_dict mf) "releasedAtUtc")
      with (Ok (VStr (mf_releasedAtUtc mf))) by reflexivity.
    cbn [bind isinstance_str]. now rewrite Hr. }
  assert (T3 : require_text (manifest_dict mf) "apiBase" = Ok tt).
  { unfold require_text.
    replace (_require (manifest_dict mf) "apiBase") with (Ok (VStr (mf_apiBase mf)))
      by reflexivity.
    cbn [bind isinstance_str]. now rewrite Ha. }
  rewrite T1, T2, T3. cbn [bind].
  replace (_require (manifest_dict mf) "exportsManifest") with (Ok (mf_exportsManifest mf))
    by reflexivity.
  rewrite Hem. cbn [bind isinstance_dict]. rewrite Hen.
  replace (_require_dict (manifest_dict mf) "artifacts")
    with (Ok ({[ "snapshots" := VDict (artifact_dict (mf_snapshots mf));
                 "changes" := VDict (artifact_dict (mf_changes mf)) ]} : gmap string value))
    by reflexivity.
  cbn [bind].
  replace (_require_dict _ "snapshots") with (Ok (artifact_dict (mf_snapshots mf)))
    by reflexivity.
  cbn [bind].
  replace (_require_dict _ "changes") with (Ok (artifact_dict (mf_changes mf)))
    by reflexivity.
  cbn [bind].
  rewrite (built_artifact_error (mf_snapshots mf) "snapshots" Hf Hs).
  reflexivity.
Qed.

(** The manifest of a build that exported three snapshots and no change, in
    a bundle with its files and its listing. *)
Lemma validator_refuses_witness :
  (forall out,
     Validate.main ManifestSample.json_loads ValidateSample.digest ValidateSample.repr
       ValidateSample.gunzip ValidateSample.path_str ManifestSample.files
       ValidateSample.smoke_test <> Ok out)
  /\ Validate.main ManifestSample.json_loads ValidateSample.digest ValidateSample.repr
       ValidateSample.gunzip ValidateSample.path_str ManifestSample.files
       ValidateSample.smoke_test
     = Raise (ValueError "manifest missing required field: truncated").
Proof.
  destruct (validator_refuses_built_manifest ManifestSample.json_loads ValidateSample.digest
              ValidateSample.repr ValidateSample.gunzip ValidateSample.path_str
              ManifestSample.files ValidateSample.smoke_test ManifestSample.built "built")
    as [Hnever Herr].
  - vm_compute. reflexivity.
  - vm_compute. reflexivity.
  - split; [exact Hnever|].
    apply (Herr (sums_listing "len9" "len0" "len5")
                {[ "enabled" := VBool true; "maxLimit" := VInt 10000 ]} (VBool true)).
    + vm_compute. reflexivity.
    + reflexivity.
    + vm_compute. discriminate.
    + vm_compute. discriminate.
    + vm_compute. discriminate.
    + reflexivity.
    + vm_compute. reflexivity.
    + vm_compute. discriminate.
    + vm_compute. discriminate.
Defined.

End ManifestFacts.

(** ** The listing the builder writes, read back by the validator *)

Module RoundTrip.
Import Validate Text StringFacts ValidateFacts ExtraSpec Manifest.

Local Abbreviation solid := (all_chars (fun c => negb (str_isspace c))).

Lemma linebreak_isspace (c : ascii) : is_linebreak c = true -> str_isspace c = true.
Proof.
  unfold is_linebreak, str_isspace, bytes_isspace.
  generalize (nat_of_ascii c). intros n H.
  repeat (apply orb_prop in H as [H|H]); apply Nat.eqb_eq in H; subst; reflexivity.
Qed.

(** A line without line boundary, then a line feed: [splitlines] cuts there. *)
Lemma splitlines_line (l rest : string) :
  all_chars (fun c => negb (is_linebreak c)) l = true ->
  splitlines_from false (l +:+ NL +:+ rest) = l :: splitlines_from false rest.
Proof.
  induction l as [|c l IH]; intros H.
  - reflexivity.
  - cbn [all_chars] in H. apply andb_prop in H as [Hc Hl].
    rewrite append_cons. cbn [splitlines_from andb].
    apply negb_true_iff in Hc. rewrite Hc, (IH Hl). reflexivity.
Qed.

Lemma all_chars_app (p : ascii -> bool) (s t : string) :
  all_chars p (s +:+ t) = all_chars p s && all_chars p t.
Proof.
  induction s as [|c s IH]; [reflexivity|].
  rewrite append_cons. cbn [all_chars]. now rewrite IH, andb_assoc.
Qed.

Lemma solid_no_linebreak (s : string) :
  solid s = true -> all_chars (fun c => negb (is_linebreak c)) s = true.
Proof.
  induction s as [|c s IH]; [reflexivity|].
  cbn [all_chars]. intros H. apply andb_prop in H as [Hc Hs].
  rewrite (IH Hs), andb_true_r. apply negb_true_iff. apply negb_true_iff in Hc.
  destruct (is_linebreak c) eqn:E; [|reflexivity].
  apply linebreak_isspace in E. congruence.
Qed.

Lemma lstrip_solid (s r : string) :
  s <> EmptyString -> solid s = true -> lstrip str_isspace (s +:+ r) = s +:+ r.
Proof.
  destruct s as [|c s]; [congruence|]. intros _ H.
  cbn [all_chars] in H. apply andb_prop in H as [Hc _]. apply negb_true_iff in Hc.
  rewrite append_cons. cbn [lstrip]. now rewrite Hc.
Qed.

Lemma rstrip_solid (s : string) : solid s = true -> rstrip str_isspace s = s.
Proof.
  induction s as [|c s IH]; [reflexivity|].
  cbn [all_chars]. intros H. apply andb_prop in H as [Hc Hs]. apply negb_true_iff in Hc.
  cbn [rstrip]. rewrite (IH Hs). destruct s; [now rewrite Hc | reflexivity].
Qed.

Lemma rstrip_app_solid (r s : string) :
  s <> EmptyString -> solid s = true -> rstrip str_isspace (r +:+ s) = r +:+ s.
Proof.
  intros Hne Hs. induction r as [|c r IH].
  - now apply rstrip_solid.
  - rewrite append_cons. cbn [rstrip]. rewrite IH.
    destruct (r +:+ s) eqn:E; [|reflexivity].
    exfalso. destruct r; [now apply Hne | discriminate].
Qed.

Lemma strip_solid (s : string) : solid s = true -> strip str_isspace s = s.
Proof.
  intros H. unfold strip. destruct s as [|c s]; [reflexivity|].
  pose proof H as H'. cbn [all_chars] in H'. apply andb_prop in H' as [Hc _].
  apply negb_true_iff in Hc. cbn [lstrip]. rewrite Hc. now apply rstrip_solid.
Qed.

Lemma split_from_solid (s r : string) :
  solid s = true ->
  split_from (s +:+ r) = (s +:+ fst (split_from r), snd (split_from r)).
Proof.
  induction s as [|c s IH]; intros H.
  - change (split_from r = (fst (split_from r), snd (split_from r))).
    now destruct (split_from r).
  - cbn [all_chars] in H. apply andb_prop in H as [Hc Hs]. apply negb_true_iff in Hc.
    rewrite !append_cons. cbn [split_from]. rewrite (IH Hs), Hc. reflexivity.
Qed.

(** The validator reads the line [sha  name] as the entry of [name]. *)
Lemma parse_line_entry (repr : string -> string) (sha name_ : string) :
  token sha -> token name_ ->
  parse_line repr (sha +:+ "  " +:+ name_) = Ok (Some (name_, sha)).
Proof.
  intros [Hs1 Hs2] [Hn1 Hn2]. unfold parse_line.
  assert (Hstrip : strip str_isspace (sha +:+ "  " +:+ name_) = sha +:+ "  " +:+ name_).
  { unfold strip. rewrite lstrip_solid by assumption.
    rewrite <- append_assoc. now apply rstrip_app_solid. }
  rewrite Hstrip.
  assert (Hsplit : split (sha +:+ "  " +:+ name_) = [sha; name_]).
  { unfold split. rewrite split_from_solid by assumption.
    change ("  " +:+ name_) with (String " " (String " " name_)).
    cbn [split_from].
    pose proof (split_from_solid name_ EmptyString Hn2) as Hn.
    rewrite append_empty_r in Hn. cbn [split_from fst snd] in Hn.
    rewrite append_empty_r in Hn. rewrite Hn.
    change (str_isspace " ") with true. cbn [fst snd].
    destruct name_ as [|c n]; [congruence|]. cbn [is_empty].
    rewrite append_empty_r. destruct sha; [congruence | reflexivity]. }
  rewrite Hsplit. cbn [length Nat.ltb Nat.leb hd List.last].
  destruct (sha +:+ "  " +:+ name_) eqn:E.
  { exfalso. destruct sha; [congruence | discriminate]. }
  cbn [is_empty]. rewrite !strip_solid by assumption. reflexivity.
Qed.

Lemma three_entries (s c m : string) :
  dict_set "manifest.json" m (dict_set Build.changes_name c (dict_set Build.snapshots_name s []))
  = [(Build.snapshots_name, s); (Build.changes_name, c); ("manifest.json", m)].
Proof. reflexivity. Qed.

Section Listing.

Variable sha256_hex : string -> string.
Variable repr : string -> string.
Variable fs : gmap string string.

Local Abbreviation has_digest := (ExtraSpec.has_digest sha256_hex fs).

(** The listing written by the builder for three digests without white space
    (as hexadecimal digests are) is accepted by the validator exactly when
    the two artifact files and the manifest have these digests. *)
Theorem built_listing_round_trip (snapshots_sha changes_sha manifest_sha : string) :
  token snapshots_sha -> token changes_sha -> token manifest_sha ->
  _validate_sha256sums sha256_hex repr fs (sums_listing snapshots_sha changes_sha manifest_sha)
  = Ok tt
  <-> has_digest Build.snapshots_name snapshots_sha
      /\ has_digest Build.changes_name changes_sha
      /\ has_digest "manifest.json" manifest_sha.
Proof.
  intros Hs Hc Hm.
  assert (Hname : forall n, solid n = true -> forall sha, token sha ->
            all_chars (fun c => negb (is_linebreak c)) (sha +:+ "  " +:+ n) = true).
  { intros n Hn sha [_ Hsha]. rewrite !all_chars_app.
    rewrite (solid_no_linebreak sha Hsha), (solid_no_linebreak n Hn). reflexivity. }
  assert (Hlines : splitlines (sums_listing snapshots_sha changes_sha manifest_sha)
                   = [snapshots_sha +:+ "  " +:+ Build.snapshots_name;
                      changes_sha +:+ "  " +:+ Build.changes_name;
                      manifest_sha +:+ "  " +:+ "manifest.json"]).
  { unfold splitlines, sums_listing.
    replace (snapshots_sha +:+ "  " +:+ Build.snapshots_name +:+ NL
             +:+ changes_sha +:+ "  " +:+ Build.changes_name +:+ NL
             +:+ manifest_sha +:+ "  manifest.json" +:+ NL)
      with ((snapshots_sha +:+ "  " +:+ Build.snapshots_name) +:+ NL
            +:+ ((changes_sha +:+ "  " +:+ Build.changes_name) +:+ NL
                 +:+ ((manifest_sha +:+ "  " +:+ "manifest.json") +:+ NL +:+ EmptyString)))
      by (rewrite !append_assoc; reflexivity).
    rewrite !splitlines_line by (apply Hname; [reflexivity | assumption]).
    reflexivity. }
  unfold _validate_sha256sums. rewrite Hlines. cbn [read_expected].
  rewrite !parse_line_entry by (assumption || (split; [discriminate | reflexivity])).
  cbn [Py.bind]. rewrite three_entries. cbn [check_expected].
  unfold ExtraSpec.has_digest. split.
  - intros H.
    destruct (fs !! Build.snapshots_name) as [c1|]; [|discriminate H].
    destruct (String.eqb (sha256_hex c1) snapshots_sha) eqn:E1; cbn [negb] in H;
      [|discriminate H].
    destruct (fs !! Build.changes_name) as [c2|]; [|discriminate H].
    destruct (String.eqb (sha256_hex c2) changes_sha) eqn:E2; cbn [negb] in H;
      [|discriminate H].
    destruct (fs !! "manifest.json") as [c3|]; [|discriminate H].
    destruct (String.eqb (sha256_hex c3) manifest_sha) eqn:E3; cbn [negb] in H;
      [|discriminate H].
    apply String.eqb_eq in E1, E2, E3. eauto 10.
  - intros ((c1 & -> & <-) & (c2 & -> & <-) & (c3 & -> & <-)).
    rewrite !String.eqb_refl. reflexivity.
Qed.

End Listing.

(** The listing of the sample build against its files: it is accepted, and
    the three files have the digests listed. *)
Lemma built_listing_witness :
  _validate_sha256sums ValidateSample.digest ValidateSample.repr ManifestSample.files
    (sums_listing "len9" "len0" "len5") = Ok tt
  <-> ExtraSpec.has_digest ValidateSample.digest ManifestSample.files
        Build.snapshots_name "len9"
      /\ ExtraSpec.has_digest ValidateSample.digest ManifestSample.files
           Build.changes_name "len0"
      /\ ExtraSpec.has_digest ValidateSample.digest ManifestSample.files
           "manifest.json" "len5".
Proof.
  apply (built_listing_round_trip ValidateSample.digest ValidateSample.repr
           ManifestSample.files "len9" "len0" "len5").
  - split; [discriminate | reflexivity].
  - split; [discriminate | reflexivity].
  - split; [discriminate | reflexivity].
Defined.

End RoundTrip.

(** ** The listing of digests: what is accepted, and what is refused *)

Module SumsFacts.
Import Validate Text StringFacts ValidateFacts ExtraSpec RoundTrip.

Lemma lstrip_head (sp : ascii -> bool) (s : string) (c : ascii) (r : string) :
  lstrip sp s = String c r -> sp c = false.
Proof.
  induction s as [|d s IH]; [discriminate|].
  cbn [lstrip]. destruct (sp d) eqn:E; [exact IH|]. now intros [= <- _].
Qed.

Lemma rstrip_head (sp : ascii -> bool) (s : string) (c : ascii) (r : string) :
  rstrip sp s = String c r -> exists r', s = String c r'.
Proof.
  destruct s as [|d s]; [discriminate|].
  cbn [rstrip]. destruct (rstrip sp s).
  - destruct (sp d); [discriminate|]. intros [= <- _]. now exists s.
  - intros [= <- _]. now exists s.
Qed.

Lemma strip_head (sp : ascii -> bool) (s : string) (c : ascii) (r : string) :
  strip sp s = String c r -> sp c = false.
Proof.
  unfold strip. intros H. apply rstrip_head in H as [r' H]. now apply lstrip_head in H.
Qed.

Lemma split_head (c : ascii) (s : string) : str_isspace c = false -> split (String c s) <> [].
Proof.
  intros Hc. unfold split. cbn [split_from].
  destruct (split_from s) as [t ts]. rewrite Hc. cbn [is_empty]. discriminate.
Qed.

Local Abbreviation solid := (all_chars (fun c => negb (str_isspace c))).

(** [split] gives the words of the string. *)
Lemma split_space (c : ascii) (s : string) :
  str_isspace c = true -> split (String c s) = split s.
Proof.
  intros Hc. unfold split. cbn [split_from].
  destruct (split_from s) as [t ts]. rewrite Hc. reflexivity.
Qed.

Lemma split_word (t s : string) :
  token t -> boundary s -> split (t +:+ s) = t :: split s.
Proof.
  intros [Hne Ht] Hb. unfold split. rewrite (split_from_solid t s Ht).
  destruct s as [|c r].
  - cbn [split_from fst snd is_empty]. rewrite append_empty_r.
    destruct t; [congruence | reflexivity].
  - cbn [boundary] in Hb. cbn [split_from].
    destruct (split_from r) as [t' ts']. rewrite Hb. cbn [fst snd is_empty].
    rewrite append_empty_r. destruct t; [congruence | reflexivity].
Qed.

Lemma words_split (s : string) (ws : list string) : words s ws -> ws = split s.
Proof.
  induction 1 as [|c s ws Hc _ IH|t s ws Ht Hb _ IH].
  - reflexivity.
  - now rewrite split_space.
  - rewrite split_word by assumption. now rewrite IH.
Qed.

Lemma split_from_words (s : string) :
  forall t ts,
    split_from s = (t, ts) ->
    exists s', s = t +:+ s' /\ boundary s' /\ solid t = true /\ words s' ts.
Proof.
  induction s as [|c r IH]; intros t ts E.
  - injection E as <- <-. exists EmptyString. repeat split. constructor.
  - cbn [split_from] in E. destruct (split_from r) as [t' ts'].
    destruct (IH t' ts' eq_refl) as (s' & Hr & Hb & Ht' & Hw).
    destruct (str_isspace c) eqn:Hc; injection E as <- <-.
    + exists (String c r). split; [reflexivity|]. split; [exact Hc|].
      split; [reflexivity|]. apply words_space; [exact Hc|].
      rewrite Hr. destruct t' as [|d t']; cbn [is_empty].
      * exact Hw.
      * apply words_word; [split; [discriminate | exact Ht'] | exact Hb | exact Hw].
    + exists s'. split; [now rewrite append_cons, Hr|]. split; [exact Hb|].
      split; [|exact Hw]. cbn [all_chars]. now rewrite Hc, Ht'.
Qed.

Lemma split_words (s : string) : words s (split s).
Proof.
  unfold split. destruct (split_from s) as [t ts] eqn:E.
  destruct (split_from_words s t ts E) as (s' & -> & Hb & Ht & Hw).
  destruct t as [|d t]; cbn [is_empty].
  - exact Hw.
  - apply words_word; [split; [discriminate | exact Ht] | exact Hb | exact Hw].
Qed.

Lemma words_tokens (s : string) (ws : list string) : words s ws -> List.Forall token ws.
Proof. induction 1; [constructor | assumption | now constructor]. Qed.

(** White space at the ends of a line changes nothing to its words. *)
Lemma split_lstrip (s : string) : split (lstrip str_isspace s) = split s.
Proof.
  induction s as [|c r IH]; [reflexivity|].
  cbn [lstrip]. destruct (str_isspace c) eqn:Hc; [|reflexivity].
  now rewrite split_space.
Qed.

Lemma split_from_rstrip (s : string) : split_from (rstrip str_isspace s) = split_from s.
Proof.
  induction s as [|c r IH]; [reflexivity|].
  cbn [rstrip]. destruct (rstrip str_isspace r) as [|d r'] eqn:E.
  - cbn [split_from] in IH. cbn [split_from]. rewrite <- IH.
    destruct (str_isspace c) eqn:Hc; [reflexivity|].
    cbn [split_from]. now rewrite Hc.
  - cbn [split_from] in *. now rewrite <- IH.
Qed.

Lemma split_strip (s : string) : split (strip str_isspace s) = split s.
Proof.
  unfold strip. transitivity (split (lstrip str_isspace s)); [|apply split_lstrip].
  unfold split. now rewrite split_from_rstrip.
Qed.

Lemma strip_empty (s : string) :
  is_empty (strip str_isspace s) = true <-> split s = [].
Proof.
  rewrite <- split_strip. destruct (strip str_isspace s) as [|c r] eqn:E.
  - split; reflexivity.
  - cbn [is_empty]. split; [discriminate|]. intros H. exfalso.
    exact (split_head c r (strip_head _ _ _ _ E) H).
Qed.

Lemma last_snoc_default (l : list string) (x d : string) : List.last (l ++ [x]) d = x.
Proof.
  induction l as [|y l IH]; [reflexivity|].
  cbn [app List.last]. destruct (l ++ [x]) eqn:E; [now destruct l | exact IH].
Qed.

Section Listing.

Variable sha256_hex : string -> string.
Variable repr : string -> string.
Variable fs : gmap string string.

Local Abbreviation parse_line := (Validate.parse_line repr).
Local Abbreviation read_expected := (Validate.read_expected repr).
Local Abbreviation check_expected := (Validate.check_expected sha256_hex fs).
Local Abbreviation _validate_sha256sums := (Validate._validate_sha256sums sha256_hex repr fs).
Local Abbreviation has_digest := (ExtraSpec.has_digest sha256_hex fs).

(** What the validator makes of a line, by the words of the line. *)
Lemma parse_line_blank (raw : string) : words raw [] -> parse_line raw = Ok None.
Proof.
  intros H. apply words_split in H. unfold Validate.parse_line.
  assert (E : is_empty (strip str_isspace raw) = true) by (now apply strip_empty).
  now rewrite E.
Qed.

Lemma parse_line_one_word (raw w : string) :
  words raw [w] ->
  parse_line raw = Raise (ValueError ("Invalid SHA256SUMS line: " +:+ repr raw)).
Proof.
  intros H. apply words_split in H. unfold Validate.parse_line.
  destruct (is_empty (strip str_isspace raw)) eqn:E.
  { apply strip_empty in E. congruence. }
  rewrite split_strip, <- H. reflexivity.
Qed.

Lemma parse_line_words (raw sha file : string) (between : list string) :
  words raw (sha :: between ++ [file]) ->
  parse_line raw = Ok (Some (file, sha)).
Proof.
  intros H. pose proof (words_tokens _ _ H) as Ht. apply words_split in H.
  unfold Validate.parse_line.
  destruct (is_empty (strip str_isspace raw)) eqn:E.
  { apply strip_empty in E. congruence. }
  rewrite split_strip, <- H.
  assert (Hlen : (length (sha :: between ++ [file]) <? 2)%nat = false).
  { apply Nat.ltb_ge. cbn [length]. rewrite length_app. cbn [length]. lia. }
  rewrite Hlen. cbn [hd].
  change (sha :: between ++ [file]) with ((sha :: between) ++ [file]).
  rewrite last_snoc_default.
  inversion Ht as [|? ? [_ Hsha] Hrest]; subst.
  apply List.Forall_app in Hrest as [_ Hfile].
  inversion Hfile as [|? ? [_ Hf] _]; subst.
  now rewrite !strip_solid by assumption.
Qed.

(** A line has no word, one word, or a first and a last word. *)
Lemma words_cases (raw : string) :
  words raw []
  \/ (exists w, words raw [w])
  \/ (exists sha between file, words raw (sha :: between ++ [file])).
Proof.
  pose proof (split_words raw) as H.
  destruct (split raw) as [|sha [|w rest]]; [now left | right; left; now exists sha |].
  right. right.
  destruct (@exists_last _ (w :: rest) ltac:(discriminate)) as (between & file & E).
  rewrite E in H. now exists sha, between, file.
Qed.

Lemma lists_read (lines : list string) (entries : list (string * string)) :
  lists lines entries ->
  forall acc, read_expected lines acc = Ok (recorded entries acc).
Proof.
  induction 1 as [|raw lines entries Hw _ IH|raw lines sha between file entries Hw _ IH];
    intros acc.
  - reflexivity.
  - cbn [Validate.read_expected]. rewrite (parse_line_blank raw Hw). cbn [Py.bind].
    apply IH.
  - cbn [Validate.read_expected]. rewrite (parse_line_words raw sha file between Hw).
    cbn [Py.bind]. apply IH.
Qed.

(** The first line of one word stops the reading. *)
Lemma one_word_read (before : list string) (raw w : string) (after : list string) :
  List.Forall (fun l => forall v, ~ words l [v]) before ->
  words raw [w] ->
  forall acc,
    read_expected (before ++ raw :: after) acc
    = Raise (ValueError ("Invalid SHA256SUMS line: " +:+ repr raw)).
Proof.
  intros Hbefore Hw. induction before as [|l before IH]; intros acc.
  - cbn [app Validate.read_expected]. now rewrite (parse_line_one_word raw w Hw).
  - inversion Hbefore as [|? ? Hl Hrest]; subst.
    cbn [app Validate.read_expected].
    destruct (words_cases l) as [H0|[[v H1]|(sha & between & file & H2)]].
    + rewrite (parse_line_blank l H0). cbn [Py.bind]. now apply IH.
    + destruct (Hl v H1).
    + rewrite (parse_line_words l sha file between H2). cbn [Py.bind]. now apply IH.
Qed.

(** The lines say something, or one of them has one word only. *)
Lemma lists_or_one_word (lines : list string) :
  (exists entries, lists lines entries)
  \/ (exists before raw w after,
        lines = before ++ raw :: after
        /\ List.Forall (fun l => forall v, ~ words l [v]) before
        /\ words raw [w]).
Proof.
  induction lines as [|l lines IH]; [left; exists []; constructor|].
  destruct (words_cases l) as [H0|[[v H1]|(sha & between & file & H2)]].
  - destruct IH as [[entries He]|(before & raw & w & after & -> & Hb & Hw)].
    + left. exists entries. now constructor.
    + right. exists (l :: before), raw, w, after. split; [reflexivity|].
      split; [|exact Hw]. constructor; [|exact Hb].
      intros v Hv. apply words_split in H0, Hv. congruence.
  - right. exists [], l, v, lines. split; [reflexivity|]. split; [constructor | exact H1].
  - destruct IH as [[entries He]|(before & raw & w & after & -> & Hb & Hw)].
    + left. exists ((file, sha) :: entries). econstructor; eassumption.
    + right. exists (l :: before), raw, w, after. split; [reflexivity|].
      split; [|exact Hw]. constructor; [|exact Hb].
      intros v Hv. apply words_split in H2, Hv. rewrite <- H2 in Hv.
      injection Hv as _ Hv. destruct between; discriminate Hv.
Qed.

Lemma dict_get_app (f : string) (d1 d2 : list (string * string)) :
  dict_get f (d1 ++ d2)
  = match dict_get f d1 with Some s => Some s | None => dict_get f d2 end.
Proof.
  induction d1 as [|[k v] d1 IH]; [reflexivity|].
  cbn [app dict_get]. destruct (String.eqb f k); [reflexivity | exact IH].
Qed.

Lemma dict_get_recorded (f : string) (entries : list (string * string)) :
  forall acc,
    dict_get f (recorded entries acc)
    = match final_digest f entries with Some s => Some s | None => dict_get f acc end.
Proof.
  unfold final_digest, recorded.
  induction entries as [|[k v] entries IH]; intros acc; [reflexivity|].
  cbn [fold_left fst snd rev]. rewrite IH, dict_get_app. cbn [dict_get].
  destruct (dict_get f (rev entries)); [reflexivity|].
  destruct (String.eqb f k) eqn:E.
  - apply String.eqb_eq in E. subst. apply dict_get_set_same.
  - apply String.eqb_neq in E. apply dict_get_set_other. congruence.
Qed.

Lemma dict_set_nonempty (k v : string) (d : list (string * string)) : dict_set k v d <> [].
Proof. destruct d as [|[k' v'] d]; cbn [dict_set]; [|destruct (String.eqb k k')]; discriminate. Qed.

Lemma recorded_nonempty (entries : list (string * string)) :
  forall acc, acc <> [] \/ entries <> [] -> recorded entries acc <> [].
Proof.
  unfold recorded. induction entries as [|[k v] entries IH]; intros acc H.
  - destruct H as [H|H]; [exact H | congruence].
  - cbn [fold_left fst snd]. apply IH. left. apply dict_set_nonempty.
Qed.

Lemma dict_set_keys (k v : string) (d : list (string * string)) :
  NoDup (map fst d) -> NoDup (map fst (dict_set k v d)) /\
  forall x, In x (map fst (dict_set k v d)) <-> x = k \/ In x (map fst d).
Proof.
  induction d as [|[k' v'] d IH]; intros Hnd.
  - cbn [dict_set map fst]. split; [constructor; [apply not_elem_of_nil | constructor]|].
    intros x. cbn [In]. split; [intros [->|[]]; now left | intros [->|[]]; now left].
  - cbn [map fst] in Hnd. inversion Hnd as [|k0 l0 Hnotin Hnd']; subst.
    destruct (IH Hnd') as [IH1 IH2].
    cbn [dict_set]. destruct (String.eqb k k') eqn:E.
    + apply String.eqb_eq in E. subst k'. cbn [map fst]. split; [exact Hnd|].
      intros x. cbn [In]. split; [intros [->|H]; [now left | right; now right]|].
      intros [->|[->|H]]; [now left | now left | now right].
    + apply String.eqb_neq in E. cbn [map fst]. split.
      * constructor; [|exact IH1]. rewrite list_elem_of_In. intros Hin.
        apply IH2 in Hin. destruct Hin as [->|Hin]; [congruence|].
        apply Hnotin. now rewrite list_elem_of_In.
      * intros x. cbn [In]. rewrite IH2. tauto.
Qed.

Lemma recorded_nodup (entries : list (string * string)) :
  forall acc, NoDup (map fst acc) -> NoDup (map fst (recorded entries acc)).
Proof.
  unfold recorded. induction entries as [|[k v] entries IH]; intros acc H; [exact H|].
  cbn [fold_left fst snd]. apply IH. now apply dict_set_keys.
Qed.

Lemma dict_get_In (f s : string) (d : list (string * string)) :
  NoDup (map fst d) -> (In (f, s) d <-> dict_get f d = Some s).
Proof.
  induction d as [|[k v] d IH]; intros Hnd.
  - cbn. split; [intros [] | discriminate].
  - cbn [map fst] in Hnd. inversion Hnd as [|k0 l0 Hnotin Hnd']; subst.
    cbn [In dict_get]. destruct (String.eqb f k) eqn:E.
    + apply String.eqb_eq in E. subst k. split.
      * intros [[= ->]|Hin]; [reflexivity|]. exfalso. apply Hnotin.
        rewrite list_elem_of_In. apply in_map_iff. now exists (f, s).
      * intros [= ->]. now left.
    + apply String.eqb_neq in E. rewrite <- (IH Hnd'). split.
      * intros [[= -> ->]|Hin]; [congruence | exact Hin].
      * intros Hin. now right.
Qed.

Lemma check_expected_all (expected : list (string * string)) :
  check_expected expected = Ok tt
  <-> Forall (fun e => has_digest (fst e) (snd e)) expected.
Proof.
  induction expected as [|[f d] expected IH].
  - split; [constructor | reflexivity].
  - cbn [Validate.check_expected]. split.
    + intros H. destruct (fs !! f) as [content|] eqn:Ef; [|discriminate].
      destruct (String.eqb (sha256_hex content) d) eqn:E; cbn [negb] in H; [|discriminate].
      apply String.eqb_eq in E. constructor; [|now apply IH].
      exists content. split; [exact Ef | exact E].
    + intros H. inversion H as [|? ? (content & Ef & Ed) Hrest]; subst.
      cbn [fst snd] in Ef, Ed. rewrite Ef, Ed, String.eqb_refl. cbn [negb]. now apply IH.
Qed.

(** The listing is accepted exactly when none of its lines has one word
    only, a line has two words or more, and every file named by the last
    word of a line exists and has the digest that the first word of the last
    line naming it gives. *)
Theorem sums_accepted_iff (text : string) :
  _validate_sha256sums text = Ok tt
  <-> exists entries,
        lists (splitlines text) entries
        /\ entries <> []
        /\ forall f sha, final_digest f entries = Some sha -> has_digest f sha.
Proof.
  assert (Hall : forall entries,
            check_expected (recorded entries []) = Ok tt
            <-> forall f sha, final_digest f entries = Some sha -> has_digest f sha).
  { intros entries.
    assert (Hnd : NoDup (map fst (recorded entries []))).
    { apply recorded_nodup. constructor. }
    rewrite check_expected_all, List.Forall_forall. split.
    - intros H f sha Hf. apply (H (f, sha)). apply dict_get_In; [exact Hnd|].
      rewrite dict_get_recorded, Hf. reflexivity.
    - intros H [f sha] Hin. apply H. cbn [fst snd]. apply dict_get_In in Hin; [|exact Hnd].
      rewrite dict_get_recorded in Hin.
      destruct (final_digest f entries); [exact Hin | discriminate Hin]. }
  assert (Hrun : forall entries,
            lists (splitlines text) entries ->
            (_validate_sha256sums text = Ok tt
             <-> entries <> []
                 /\ forall f sha, final_digest f entries = Some sha -> has_digest f sha)).
  { intros entries Hl. unfold Validate._validate_sha256sums.
    rewrite (lists_read _ _ Hl []). cbn [Py.bind].
    destruct entries as [|e entries].
    - cbn. split; [discriminate | intros [H _]; congruence].
    - pose proof (recorded_nonempty (e :: entries) [] ltac:(right; discriminate)) as Hne.
      destruct (recorded (e :: entries) []) as [|x xs] eqn:E; [congruence|].
      rewrite <- E, Hall. split; [intros H; split; [discriminate | exact H] | now intros [_ H]]. }
  split.
  - intros Hok.
    destruct (lists_or_one_word (splitlines text))
      as [[entries He]|(before & raw & w & after & Hlines & Hb & Hw)].
    + exists entries. split; [exact He|]. now apply Hrun.
    + unfold Validate._validate_sha256sums in Hok.
      rewrite Hlines, (one_word_read before raw w after Hb Hw []) in Hok. discriminate.
  - intros (entries & He & Hne & H). apply (Hrun entries He). now split.
Qed.

(** What is refused whatever the files are: a listing with a line of one word
    only is refused with the error that quotes the first such line, before
    any file is looked at; and a listing in which no line has a word is
    refused as empty. *)
Theorem sums_refused_before_files (text : string) :
  (forall before raw w after,
     splitlines text = before ++ raw :: after ->
     List.Forall (fun l => forall v, ~ words l [v]) before ->
     words raw [w] ->
     forall fs' : gmap string string,
       Validate._validate_sha256sums sha256_hex repr fs' text
       = Raise (ValueError ("Invalid SHA256SUMS line: " +:+ repr raw)))
  /\ (List.Forall (fun l => words l []) (splitlines text) ->
      forall fs' : gmap string string,
        Validate._validate_sha256sums sha256_hex repr fs' text
        = Raise (ValueError "SHA256SUMS is empty")).
Proof.
  split.
  - intros before raw w after Hlines Hb Hw fs'. unfold Validate._validate_sha256sums.
    now rewrite Hlines, (one_word_read before raw w after Hb Hw []).
  - intros Hblank fs'. unfold Validate._validate_sha256sums.
    assert (Hl : lists (splitlines text) []).
    { induction Hblank; now constructor. }
    now rewrite (lists_read _ _ Hl []).
Qed.

End Listing.

End SumsFacts.

(** ** The validator: what a successful run has checked *)

Module ValidatorMore.
Import Validate Text StringFacts ValidateFacts ExtraSpec.

Section Main.

Variable json_loads : string -> result value.
Variable sha256_hex : string -> string.
Variable repr : string -> string.
Variable gunzip : string -> result string.
Variable path_str : string -> string -> string.
Variable fs : gmap string string.
Variable args : cli.

Local Abbreviation intact := (ExtraSpec.intact sha256_hex gunzip fs).

Lemma check_artifact_file_ok (art : Artifact) :
  check_artifact_file sha256_hex gunzip fs art = Ok tt <-> intact art.
Proof.
  unfold check_artifact_file, ExtraSpec.intact, _validate_gzip. split.
  - intros H. destruct (fs !! filename art) as [content|]; [|discriminate H].
    exists content. split; [reflexivity|].
    destruct (String.eqb (sha256_hex content) (sha256 art)) eqn:E; cbn [negb] in H;
      [|discriminate H].
    apply String.eqb_eq in E. split; [exact E|].
    intros Hgz. rewrite Hgz in H.
    destruct (gunzip content) as [bytes|e]; [now exists bytes | discriminate H].
  - intros (content & -> & <- & Hgz). rewrite String.eqb_refl. cbn [negb].
    destruct (endswith ".gz" (filename art)); [|reflexivity].
    destruct (Hgz eq_refl) as [bytes ->]. reflexivity.
Qed.

Lemma publish_policy_ok (s c : Artifact) :
  publish_policy args s c = Ok tt <-> publishable args s c.
Proof.
  unfold publish_policy, publishable.
  destruct (negb (allow_truncated args) && (truncated s || truncated c)) eqn:E1.
  { split; [discriminate|]. intros [H1 _].
    apply andb_prop in E1 as [Ea Et]. apply orb_prop in Et.
    rewrite H1 in Ea; [discriminate Ea | exact Et]. }
  destruct (negb (allow_empty args)
            && ((int_val (rows s) =? 0) || (int_val (rows c) =? 0))) eqn:E2.
  { split; [discriminate|]. intros [_ H2].
    apply andb_prop in E2 as [Ea Er]. apply orb_prop in Er.
    rewrite H2 in Ea; [discriminate Ea|].
    destruct Er as [Er|Er]; apply Z.eqb_eq in Er; [now left | now right]. }
  split; [intros _ | reflexivity]. split.
  - intros Ht. destruct (allow_truncated args); [reflexivity|]. cbn [negb andb] in E1.
    destruct Ht as [Ht|Ht]; rewrite Ht in E1;
      [discriminate E1 | rewrite orb_true_r in E1; discriminate E1].
  - intros Hr. destruct (allow_empty args); [reflexivity|]. cbn [negb andb] in E2.
    destruct Hr as [Hr|Hr]; apply Z.eqb_eq in Hr; rewrite Hr in E2;
      [discriminate E2 | rewrite orb_true_r in E2; discriminate E2].
Qed.


End Main.

End ValidatorMore.

(** ** Hashing a file by chunks *)

Module HashFacts.
Import HashFile StringFacts.

Lemma read_join (n : N) (s : string) : fst (read n s) +:+ snd (read n s) = s.
Proof.
  revert n. induction s as [|c s IH]; intros n; [reflexivity|].
  cbn [read]. destruct (n =? 0)%N; [reflexivity|].
  specialize (IH (N.pred n)). destruct (read (N.pred n) s) as [chunk rest].
  cbn [fst snd] in *. now rewrite append_cons, IH.
Qed.

Lemma read_rest_shorter (n : N) (s : string) :
  (0 < n)%N -> s <> EmptyString -> (String.length (snd (read n s)) < String.length s)%nat.
Proof.
  revert n. induction s as [|c s IH]; intros n Hn Hs; [congruence|].
  cbn [read]. destruct (n =? 0)%N eqn:E; [apply N.eqb_eq in E; lia|].
  destruct (read (N.pred n) s) as [chunk rest] eqn:Er. cbn [snd String.length].
  destruct s as [|d s'].
  - cbn in Er. injection Er as <- <-. cbn. lia.
  - destruct (N.pred n =? 0)%N eqn:Ep.
    + cbn [read] in Er. rewrite Ep in Er. injection Er as <- <-. cbn [String.length]. lia.
    + apply N.eqb_neq in Ep. specialize (IH (N.pred n) ltac:(lia) ltac:(discriminate)).
      rewrite Er in IH. cbn [snd] in IH. lia.
Qed.

Section Hash.

Variable H : Type.
Variable new : H.
Variable update : H -> string -> H.
Variable hexdigest : H -> string.

(** Feeding a hash two pieces in turn is feeding it their concatenation;
    feeding it nothing leaves it as it is. *)
Hypothesis update_app : forall h s1 s2, update (update h s1) s2 = update h (s1 +:+ s2).
Hypothesis update_empty : forall h, update h EmptyString = h.

Lemma fold_chunks (n : N) (fuel : nat) :
  (0 < n)%N ->
  forall s h, (String.length s < fuel)%nat ->
    fold_left update (chunks fuel n s) h = update h s.
Proof.
  intros Hn. induction fuel as [|fuel IH]; intros s h Hlen; [lia|].
  cbn [chunks].
  pose proof (read_join n s) as Hj.
  destruct s as [|c s'].
  - cbn. now rewrite update_empty.
  - pose proof (read_rest_shorter n (String c s') Hn ltac:(discriminate)) as Hshort.
    destruct (read n (String c s')) as [chunk rest] eqn:Er. cbn [fst snd] in *.
    destruct chunk as [|d chunk'].
    + exfalso. cbn [read] in Er. destruct (n =? 0)%N eqn:E; [apply N.eqb_eq in E; lia|].
      destruct (read (N.pred n) s'). discriminate Er.
    + cbn [is_empty fold_left]. rewrite IH by lia. now rewrite update_app, Hj.
Qed.

(** [_sha256_file] reads the file by chunks of 1 MiB and feeds them to the
    hash in turn: the digest is that of the whole content fed at once. *)
Theorem chunked_digest_is_digest (content : string) :
  _sha256_file H new update hexdigest content = hexdigest (update new content).
Proof.
  unfold _sha256_file. f_equal. apply fold_chunks; [reflexivity | lia].
Qed.

End Hash.

(** A hash that keeps what it is fed. *)
Lemma chunked_digest_witness :
  _sha256_file string EmptyString String.append (fun h => h) "healtharchive"
  = "healtharchive".
Proof.
  apply (chunked_digest_is_digest string EmptyString String.append (fun h => h)).
  - intros h s1 s2. apply append_assoc.
  - intros h. apply append_empty_r.
Defined.

End HashFacts.

(** ** What the listing need not cover *)

Module Coverage.
Import Validate Text StringFacts ValidateFacts ExtraSpec RoundTrip ValidatorMore.

Lemma splitlines_single (l : string) :
  l <> EmptyString ->
  all_chars (fun c => negb (is_linebreak c)) l = true ->
  splitlines_from false l = [l].
Proof.
  induction l as [|c l IH]; intros Hne H; [congruence|].
  cbn [all_chars] in H. apply andb_prop in H as [Hc Hl]. apply negb_true_iff in Hc.
  cbn [splitlines_from andb]. rewrite Hc.
  destruct l as [|d l']; [reflexivity|].
  rewrite (IH ltac:(discriminate) Hl). reflexivity.
Qed.

Section Main.

Variable json_loads : string -> result value.
Variable sha256_hex : string -> string.
Variable repr : string -> string.
Variable gunzip : string -> result string.
Variable path_str : string -> string -> string.
Variable args : cli.


End Main.


End Coverage.

